(** * Geoscope / Synscope: ingestion, deduplication and alert-level model

    A shallow embedding of the multi-source intelligence pipeline:

    - [synscope/database.py]  : the [IntelItem] table and its session;
    - [geoscope/core/utils.py]: [parse_flexible_date];
    - [geoscope/core/llm.py]  : [analyze_text], the classification oracle client;
    - [geoscope/ints/*.py], [synscope/ints/*.py]: the collector adapters;
    - [synscope/core/theme.py]: [calculate_defcon];
    - [synscope/cli.py]       : the statistics of [generate_full].

    The repository carries the same package under two names ([geoscope] and
    [synscope]); modules imported from one and present under the other
    ([database], [core.llm], [core.utils]) are read from where they are.

    Python values that the code handles dynamically (the decoded JSON of the
    oracle, the columns filled from it) live in a small universe [pyval];
    floats are modelled by exact rationals ([Q]): the modelled code compares
    them with integer constants and stores them unchanged, which is exact,
    and takes one mean in the statistics, which is modelled without
    rounding.  Strings are byte strings; [lower], [upper] and
    [strip] are the ASCII ones, which is what [str.lower], [str.upper] and
    [str.strip] compute on ASCII text. *)

From Stdlib Require Import ZArith QArith Lqa Lia.
From Stdlib Require Import String Ascii List DecimalString.
From stdpp Require Import base option list gmap strings.

Import ListNotations.
Local Open Scope string_scope.
Local Open Scope Z_scope.

(** ** Python values and strings *)

Module Py.

(** JSON scalars as Python sees them after [json.loads]; arrays and objects
    nested inside a field are not modelled. *)
Inductive pyval : Type :=
| PNone
| PBool (b : bool)
| PInt (z : Z)
| PFloat (q : Q)
| PStr (s : string).

(** Python truthiness ([if v:]). *)
Definition truthy (v : pyval) : bool :=
  match v with
  | PNone => false
  | PBool b => b
  | PInt z => negb (z =? 0)
  | PFloat q => negb (Qeq_bool q 0)
  | PStr s => negb (String.eqb s "")
  end.

(** [v == "text"] for a stored value [v]. *)
Definition eq_str (v : pyval) (s : string) : bool :=
  match v with
  | PStr t => String.eqb t s
  | _ => false
  end.

(** The number a value denotes under [+] and [/] ([bool] is a subclass of
    [int]); [None] where Python raises [TypeError]. *)
Definition as_number (v : pyval) : option Q :=
  match v with
  | PInt z => Some (inject_Z z)
  | PFloat q => Some q
  | PBool b => Some (if b then 1%Q else 0%Q)
  | PNone | PStr _ => None
  end.

(** [f"{x}"] for an optional string: [None] prints as ["None"]. *)
Definition fmt (o : option string) : string :=
  match o with
  | Some s => s
  | None => "None"
  end.

(** [d.get(k, dflt)] on a dictionary decoded from JSON. *)
Definition get {V : Type} (d : gmap string V) (k : string) (dflt : V) : V :=
  match d !! k with
  | Some v => v
  | None => dflt
  end.

(** [s[:n]] for [n >= 0]. *)
Definition prefix_to (n : nat) (s : string) : string := String.substring 0 n s.

(** [l[:n]] with Python's reading of a negative bound. *)
Definition slice_to {A : Type} (n : Z) (l : list A) : list A :=
  if 0 <=? n then take (Z.to_nat n) l
  else take (length l - Z.to_nat (- n))%nat l.

Definition lower_ascii (c : ascii) : ascii :=
  let n := nat_of_ascii c in
  if ((65 <=? n) && (n <=? 90))%nat then ascii_of_nat (n + 32) else c.

Definition upper_ascii (c : ascii) : ascii :=
  let n := nat_of_ascii c in
  if ((97 <=? n) && (n <=? 122))%nat then ascii_of_nat (n - 32) else c.

Fixpoint map_string (f : ascii -> ascii) (s : string) : string :=
  match s with
  | EmptyString => EmptyString
  | String c s' => String (f c) (map_string f s')
  end.

Definition lower : string -> string := map_string lower_ascii.
Definition upper : string -> string := map_string upper_ascii.

(** [s.startswith(p)]. *)
Definition startswith (s p : string) : bool := String.prefix p s.

(** [needle in hay]. *)
Fixpoint contains (needle hay : string) : bool :=
  String.prefix needle hay ||
  match hay with
  | EmptyString => false
  | String _ hay' => contains needle hay'
  end.

(** [s.replace(c, by)] for a one-character pattern [c]. *)
Fixpoint replace_char (c : ascii) (by_ : string) (s : string) : string :=
  match s with
  | EmptyString => EmptyString
  | String a s' =>
      if Ascii.eqb a c then by_ ++ replace_char c by_ s'
      else String a (replace_char c by_ s')
  end.

Definition is_space (c : ascii) : bool :=
  let n := nat_of_ascii c in
  (((9 <=? n) && (n <=? 13)) || ((28 <=? n) && (n <=? 32)))%nat.

Fixpoint lstrip (s : string) : string :=
  match s with
  | String c s' => if is_space c then lstrip s' else s
  | EmptyString => EmptyString
  end.

Fixpoint rstrip (s : string) : string :=
  match s with
  | EmptyString => EmptyString
  | String c s' =>
      match rstrip s' with
      | EmptyString => if is_space c then EmptyString else String c EmptyString
      | r => String c r
      end
  end.

(** [s.strip()]. *)
Definition strip (s : string) : string := rstrip (lstrip s).

(** [str(n)] for an integer. *)
Definition str_of_Z (z : Z) : string := NilEmpty.string_of_int (Z.to_int z).

(** Exceptions of the modelled code, by class. *)
Inductive exn : Type :=
| AttributeError
| TypeError
| ValueError
| OverflowError
| RequestError
| OSError.

End Py.

Export Py.

(** ** synscope/database.py *)

Module Database.

(** Naive UTC instants, in seconds. *)
Definition datetime : Type := Z.

(** A row of the [intelligence] table.  The surrogate [id] is the row's
    position in the store and [collected_at] is not read by the modelled
    code; both are left out.  [source_url] is nullable: [None] is SQL NULL. *)
Record IntelItem : Type := mkIntelItem {
  timestamp : datetime;
  int_category : string;
  source_url : option string;
  keyword : string;
  raw_text : string;
  author : option string;
  summary : pyval;
  country : pyval;
  threat_level : pyval;
  threat_score : pyval;
  confidence : pyval;
  latitude : option Q;
  longitude : option Q
}.

(** [Column(Float, default=0.0)]: the confidence of a row whose constructor
    is not given the keyword.  ([threat_score] has the default 0 in the same
    way; every adapter passes it.) *)
Definition default_confidence : pyval := PFloat 0.

(** A session: the rows committed to the table and the rows added since the
    last commit.  The session autoflushes, so a query sees both. *)
Record Session : Type := mkSession {
  committed : list IntelItem;
  pending : list IntelItem
}.

Definition visible (s : Session) : list IntelItem := committed s ++ pending s.

Definition key_is (k : option string) (x : IntelItem) : bool :=
  bool_decide (source_url x = k).

(** [db.query(IntelItem).filter_by(source_url=k).first()]; a [None] key is
    compared with [IS NULL]. *)
Definition query_first (k : option string) (s : Session) : option IntelItem :=
  find (key_is k) (visible s).

(** *** What the table holds of a row

    [threat_score] is [Column(Integer, default=0)] and [confidence] is
    [Column(Float, default=0.0)].  An attribute that is [None] when the row
    is inserted is left out of the INSERT and the column default is stored.
    A value that is given goes through the column's affinity in SQLite:
    a text that reads as a number is stored as that number, a whole float
    in the integer column as an integer, a number in the float column as a
    float.  A row read back carries what the table holds.  The text
    columns are left as they are given: every adapter gives them strings,
    and what the table makes of a number the oracle answers in one of them
    is not modelled. *)

(** SQLite's white space. *)
Definition sql_space (c : ascii) : bool :=
  let n := nat_of_ascii c in
  (((9 <=? n) && (n <=? 13)) || (n =? 32))%nat.

Fixpoint skip_spaces (s : string) : string :=
  match s with
  | String c s' => if sql_space c then skip_spaces s' else s
  | EmptyString => EmptyString
  end.

Definition digit_of (c : ascii) : option Z :=
  let n := nat_of_ascii c in
  if ((48 <=? n) && (n <=? 57))%nat then Some (Z.of_nat n - 48) else None.

(** The digits at the start of [s]: their value after [acc], how many there
    are after [n], and the rest of [s]. *)
Fixpoint read_digits (acc : Z) (n : nat) (s : string) : Z * nat * string :=
  match s with
  | String c s' =>
      match digit_of c with
      | Some d => read_digits (10 * acc + d) (S n) s'
      | None => (acc, n, s)
      end
  | EmptyString => (acc, n, s)
  end.

(** An optional sign: whether it is a minus, and the rest. *)
Definition read_sign (s : string) : bool * string :=
  match s with
  | String "-" s' => (true, s')
  | String "+" s' => (false, s')
  | _ => (false, s)
  end.

(** The number a text reads as, when the whole of it is a well-formed
    integer or real literal between optional white space: a sign, digits
    with an optional point (at least one digit), an optional exponent. *)
Definition numeric_literal (s : string) : option Q :=
  let '(negative, s) := read_sign (skip_spaces s) in
  let '(whole, n_whole, s) := read_digits 0 0 s in
  let '(mantissa, n_frac, s) :=
    match s with
    | String "." s' => read_digits whole 0 s'
    | _ => (whole, 0%nat, s)
    end in
  let '(exponent, exponent_ok, s) :=
    match s with
    | String c s' =>
        if Ascii.eqb c "e" || Ascii.eqb c "E" then
          let '(down, s') := read_sign s' in
          let '(e, n_exp, s') := read_digits 0 0 s' in
          (if down then - e else e, negb (n_exp =? 0)%nat, s')
        else (0, true, s)
    | EmptyString => (0, true, s)
    end in
  if negb (n_whole + n_frac =? 0)%nat && exponent_ok
     && String.eqb (skip_spaces s) ""
  then Some (inject_Z (if negative then - mantissa else mantissa)
             * Qpower 10 (exponent - Z.of_nat n_frac))%Q
  else None.

(** A whole number that fits a 64-bit integer is stored as an integer. *)
Definition integer_or_real (q : Q) : pyval :=
  let r := Qred q in
  if (Qden r =? 1)%positive
     && (- 2 ^ 63 <=? Qnum r) && (Qnum r <? 2 ^ 63)
  then PInt (Qnum r) else PFloat q.

(** The integer column. *)
Definition integer_affinity (v : pyval) : pyval :=
  match v with
  | PNone => PNone
  | PBool b => PInt (if b then 1 else 0)
  | PInt z => PInt z
  | PFloat q => integer_or_real q
  | PStr s =>
      match numeric_literal s with
      | Some q => integer_or_real q
      | None => PStr s
      end
  end.

(** The float column. *)
Definition real_affinity (v : pyval) : pyval :=
  match v with
  | PNone => PNone
  | PBool b => PFloat (if b then 1 else 0)
  | PInt z => PFloat (inject_Z z)
  | PFloat q => PFloat q
  | PStr s =>
      match numeric_literal s with
      | Some q => PFloat q
      | None => PStr s
      end
  end.

(** [Column(..., default=dflt)]. *)
Definition or_default (dflt v : pyval) : pyval :=
  match v with
  | PNone => dflt
  | _ => v
  end.

Definition score_column (v : pyval) : pyval :=
  integer_affinity (or_default (PInt 0) v).

Definition confidence_column (v : pyval) : pyval :=
  real_affinity (or_default (PFloat 0) v).

(** The row the table holds for the object [x] given to the session. *)
Definition stored (x : IntelItem) : IntelItem :=
  {| timestamp := timestamp x;
     int_category := int_category x;
     source_url := source_url x;
     keyword := keyword x;
     raw_text := raw_text x;
     author := author x;
     summary := summary x;
     country := country x;
     threat_level := threat_level x;
     threat_score := score_column (threat_score x);
     confidence := confidence_column (confidence x);
     latitude := latitude x;
     longitude := longitude x |}.



(** [db.add(item)]. *)
Definition add (x : IntelItem) (s : Session) : Session :=
  {| committed := committed s; pending := pending s ++ [stored x] |}.

(** [db.commit()]. *)
Definition commit (s : Session) : Session :=
  {| committed := committed s ++ pending s; pending := [] |}.

(** The rows of [l] keyed by [k]. *)
Definition keyed (k : option string) (l : list IntelItem) : list IntelItem :=
  filter (fun x => source_url x = k) l.

(** Number of visible rows keyed by [k]. *)
Definition rows_keyed (k : option string) (s : Session) : nat :=
  length (keyed k (visible s)).

(** The uniqueness constraint of the [source_url] column, over the rows a
    query sees. *)
Definition unique_identifiers (s : Session) : Prop :=
  NoDup (map source_url (visible s)).

End Database.

Export Database.

(** ** The outside world *)

(** What [requests.post(...)] followed by [raise_for_status()] and
    [resp.json()] can come to in [analyze_text]. *)
Inductive http_reply : Type :=
| ConnectionFailed                     (* timeout, refused connection *)
| HttpErrorStatus                      (* raise_for_status() raises *)
| BodyNotJson                          (* resp.json() raises *)
| BodyNotObject                        (* valid JSON, not an object *)
| BodyObject (d : gmap string pyval).  (* a JSON object *)

(** What [json.loads] returns on a string it accepts. *)
Inductive json_doc : Type :=
| JDict (d : gmap string pyval)
| JOther.

(** What [dateutil.parser.parse(s, fuzzy=True)] does: it returns a datetime
    or raises [ParserError] (a [ValueError]), [TypeError] or
    [OverflowError]. *)
Inductive parse_outcome : Type :=
| Parsed (d : datetime)
| ParseRaises (e : exn).

Record Article : Type := mkArticle {
  article_text : string;
  article_authors : list string
}.

(** The external collaborators, as functions of their request. *)
Class Externals : Type := mkExternals {
  (** successive readings of the system clock *)
  clock : nat -> datetime;
  (** [strftime('%Y%m%d%H')] and [strftime('%Y%m%d')] of a local reading *)
  strftime_hour : datetime -> string;
  strftime_day : datetime -> string;
  (** the oracle's HTTP endpoint, by prompt *)
  oracle_post : string -> http_reply;
  (** [json.loads] on a string; [None] when it raises *)
  json_loads : string -> option json_doc;
  (** [dateutil.parser.parse] *)
  dateutil_parse : string -> parse_outcome;
  (** [datetime.fromisoformat]; [None] when it raises [ValueError] *)
  fromisoformat : string -> option datetime;
  (** [newspaper.Article(url).download(); .parse()]; [None] when it raises *)
  article_fetch : string -> option Article;
  (** [clean_text] of [core/utils.py] (regular-expression clean-up) *)
  clean_text : string -> string;
  (** [str(x)] of a dictionary and of a list of strings *)
  str_of_dict : gmap string string -> string;
  str_of_list : list string -> string;
  (** [f"{x:.0f}"] of a float *)
  fmt_float0 : Q -> string;
  (** [hash(s)] of a string *)
  py_hash : string -> Z;
  (** the two [re.findall] calls of [detect_eam_patterns] *)
  findall_skyking : string -> list string;
  findall_eam : string -> list (string * string)
}.

(** ** State and exceptions

    A computation runs on a [World] (the session, the number of clock
    readings taken so far, the log) and either returns or raises. *)

Module Run.

Inductive log_entry : Type :=
| LogError (msg : string)
| LogWarning (msg : string).

Record World : Type := mkWorld {
  db : Session;
  ticks : nat;
  logs : list log_entry
}.

Definition M (A : Type) : Type := World -> (exn + A) * World.

Definition ret {A : Type} (a : A) : M A := fun w => (inr a, w).

Definition bind {A B : Type} (m : M A) (f : A -> M B) : M B :=
  fun w =>
    match m w with
    | (inr a, w') => f a w'
    | (inl e, w') => (inl e, w')
    end.

Definition raise {A : Type} (e : exn) : M A := fun w => (inl e, w).

(** [try: m  except Exception as e: h e]. *)
Definition try_except {A : Type} (m : M A) (h : exn -> M A) : M A :=
  fun w =>
    match m w with
    | (inr a, w') => (inr a, w')
    | (inl e, w') => h e w'
    end.

(** [try: m  except (ValueError, TypeError): h]. *)
Definition try_except_value_type {A : Type} (m : M A) (h : M A) : M A :=
  fun w =>
    match m w with
    | (inl ValueError, w') | (inl TypeError, w') => h w'
    | r => r
    end.

Definition db_query_first (k : option string) : M (option IntelItem) :=
  fun w => (inr (query_first k (db w)), w).

Definition db_add (x : IntelItem) : M unit :=
  fun w => (inr tt, {| db := add x (db w); ticks := ticks w; logs := logs w |}).

(** [db.commit()] of rows the store takes ([accepted]).  A flush the driver
    refuses raises and leaves the session unusable until a rollback, which
    the modelled code never issues; such a flush is outside the model. *)
Definition db_commit : M unit :=
  fun w => (inr tt, {| db := commit (db w); ticks := ticks w; logs := logs w |}).

(** One reading of the system clock: [datetime.utcnow()],
    [datetime.now(timezone.utc).replace(tzinfo=None)], [datetime.now()]. *)
Definition now `{Externals} : M datetime :=
  fun w => (inr (clock (ticks w)),
            {| db := db w; ticks := S (ticks w); logs := logs w |}).

Definition log (l : log_entry) : M unit :=
  fun w => (inr tt, {| db := db w; ticks := ticks w; logs := logs w ++ [l] |}).

(** The world after one more log entry, and after one more clock reading. *)
Definition logged (l : log_entry) (w : World) : World :=
  {| db := db w; ticks := ticks w; logs := logs w ++ [l] |}.

Definition ticked (w : World) : World :=
  {| db := db w; ticks := S (ticks w); logs := logs w |}.

(** An optional result of an external call, raising [e] when absent. *)
Definition or_raise {A : Type} (e : exn) (o : option A) : M A :=
  match o with
  | Some a => ret a
  | None => raise e
  end.

#[export] Instance M_ret : MRet M := @ret.
#[export] Instance M_bind : MBind M := fun A B f m => bind m f.

(** [for x in l: body(x)], counting what the body reports ([count += 1]). *)
Fixpoint for_each {A : Type} (body : A -> M nat) (l : list A) : M nat :=
  match l with
  | [] => ret 0%nat
  | x :: l' =>
      n ← body x; m ← for_each body l'; ret (n + m)%nat
  end.

End Run.

Export Run.

(** ** geoscope/core/utils.py *)

Module Utils.
Section WithExternals.
Context `{Externals}.

(** [parse_flexible_date(date_str)].  The warning's text is kept up to the
    quoted input. *)
Definition parse_flexible_date (date_str : string) : M datetime :=
  if negb (truthy (PStr date_str)) then now
  else
    try_except_value_type
      (match dateutil_parse date_str with
       | Parsed d => ret d
       | ParseRaises e => raise e
       end)
      (_ ← log (LogWarning ("Could not parse date: '" ++ date_str
                             ++ "'. Defaulting to NOW."));
       now).

(** The inputs on which the parser's outcome is one the function provides
    for: the empty string, a string the parser accepts, a string on which
    it raises [ValueError] or [TypeError]. *)
Definition provided_for (s : string) : Prop :=
  s = "" \/ (exists d, dateutil_parse s = Parsed d)
  \/ dateutil_parse s = ParseRaises ValueError
  \/ dateutil_parse s = ParseRaises TypeError.

End WithExternals.
End Utils.

(** ** geoscope/core/llm.py *)

Module Llm.
Section WithExternals.
Context `{Externals}.

Definition nl : string := String (ascii_of_nat 10) EmptyString.

Definition prompt_of (text : string) : string :=
  "Analyze the text below. Return ONLY a valid JSON object with these keys: "
  ++ "summary (concise string), country (string), threat_level (string: LOW, ELEVATED, HIGH, CRITICAL), "
  ++ "threat_score (int 0-100), confidence (float 0.0-1.0). "
  ++ "No markdown, no explanations." ++ nl ++ nl
  ++ "TEXT: " ++ prefix_to 2000 text.

(** The dictionary returned by the [except] branch of [analyze_text]. *)
Definition fallback_analysis : gmap string pyval :=
  {[ "summary" := PStr "Analysis failed due to model error.";
     "country" := PStr "Unknown";
     "threat_level" := PStr "UNKNOWN";
     "threat_score" := PInt 0;
     "confidence" := PFloat 0 ]}.

(** The body of the [try] of [analyze_text]: post, check the status, decode
    the body, take its ['response'] (['{}'] when absent) and decode that. *)
Definition analyze_text_try (text : string) : M json_doc :=
  match oracle_post (prompt_of text) with
  | ConnectionFailed => raise RequestError
  | HttpErrorStatus => raise RequestError
  | BodyNotJson => raise ValueError
  | BodyNotObject => raise AttributeError
  | BodyObject d =>
      match Py.get d "response" (PStr "{}") with
      | PStr result => or_raise ValueError (json_loads result)
      | _ => raise TypeError
      end
  end.

(** [analyze_text(text)]. *)
Definition analyze_text (text : string) : M json_doc :=
  try_except (analyze_text_try text)
    (fun e => _ ← log (LogError "LLM Analysis Failed"); ret (JDict fallback_analysis)).

(** The ways the oracle call fails: the request itself (timeout, refused
    connection), an error status, a body that is not JSON or not an object,
    a ['response'] that is not a string, a ['response'] that does not
    decode. *)
Inductive oracle_failure (text : string) : Prop :=
| fail_request :
    oracle_post (prompt_of text) = ConnectionFailed -> oracle_failure text
| fail_status :
    oracle_post (prompt_of text) = HttpErrorStatus -> oracle_failure text
| fail_body_not_json :
    oracle_post (prompt_of text) = BodyNotJson -> oracle_failure text
| fail_body_not_object :
    oracle_post (prompt_of text) = BodyNotObject -> oracle_failure text
| fail_response_not_text d :
    oracle_post (prompt_of text) = BodyObject d ->
    (forall s, Py.get d "response" (PStr "{}") <> PStr s) ->
    oracle_failure text
| fail_response_undecodable d s :
    oracle_post (prompt_of text) = BodyObject d ->
    Py.get d "response" (PStr "{}") = PStr s ->
    json_loads s = None ->
    oracle_failure text.

(** [analysis.get(k, dflt)] on whatever [analyze_text] returned: a decoded
    document that is not an object has no [get]. *)
Definition analysis_get (analysis : json_doc) (k : string) (dflt : pyval) : M pyval :=
  match analysis with
  | JDict d => ret (Py.get d k dflt)
  | JOther => raise AttributeError
  end.

End WithExternals.
End Llm.

(** ** geoscope/ints/cybint.py *)

Module Cybint.
Section WithExternals.
Context `{Externals}.

(** What [requests.get(url).json()] came to in [fetch_cisa_exploits]:
    an exception, or the value of its ["vulnerabilities"] key if any. *)
Inductive cisa_reply : Type :=
| CisaFailed
| CisaData (vulnerabilities : option (list (gmap string string))).

(** One turn of the loop of [fetch_cisa_exploits]. *)
Definition fetch_cisa_item (vuln : gmap string string) : M nat :=
  let cve_id := vuln !! "cveID" in
  let desc := vuln !! "shortDescription" in
  let vendor := Py.get vuln "vendorProject" "Unknown" in
  let product := Py.get vuln "product" "Unknown" in
  found ← db_query_first cve_id;
  if found is Some _ then ret 0%nat
  else
    t ← now;
    _ ← db_add {| timestamp := t;
                  int_category := "CYBINT";
                  source_url := cve_id;
                  keyword := vendor;
                  raw_text := str_of_dict vuln;
                  author := None;
                  summary := PStr ("🔴 ACTIVE EXPLOIT: " ++ fmt cve_id ++ " - "
                                   ++ product ++ " - " ++ fmt desc);
                  country := PStr "Global";
                  threat_level := PStr "CRITICAL";
                  threat_score := PInt 95;
                  confidence := PFloat 1;
                  latitude := None;
                  longitude := None |};
    ret 1%nat.

(** [CYBINTManager.fetch_cisa_exploits]. *)
Definition fetch_cisa_exploits (reply : cisa_reply) : M unit :=
  try_except
    (match reply with
     | CisaFailed => raise RequestError
     | CisaData data =>
         let vulnerabilities := default [] data in
         _ ← for_each fetch_cisa_item (slice_to 20 vulnerabilities);
         db_commit
     end)
    (fun e => log (LogError "CYBINT Error")).

(** The severity [fetch_cisa_item] gives every row it builds. *)
Definition cisa_row (x : IntelItem) : Prop :=
  int_category x = "CYBINT" /\ threat_level x = PStr "CRITICAL"
  /\ threat_score x = PInt 95 /\ confidence x = PFloat 1.

(** A feed entry: the attributes [fetch_feed] reads with [getattr]. *)
Record FeedEntry : Type := mkFeedEntry {
  entry_link : option string;
  entry_title : option string;
  entry_summary : option string;
  entry_description : option string
}.

Definition high_threat_keywords : list string :=
  ["critical"; "exploit"; "zero-day"; "0day"; "ransomware";
   "breach"; "attack"; "malware"; "vulnerability"; "CVE-"].

(** [any(kw.lower() in title.lower() or kw.lower() in summary.lower() ...)]. *)
Definition mentions_high_threat (title summary : string) : bool :=
  existsb (fun kw => contains (lower kw) (lower title)
                     || contains (lower kw) (lower summary))
          high_threat_keywords.

(** One turn of the loop of [fetch_feed]. *)
Definition fetch_feed_entry (source_name : string) (entry : FeedEntry) : M nat :=
  match entry_link entry with
  | None | Some EmptyString => ret 0%nat
  | Some link =>
      found ← db_query_first (Some link);
      if found is Some _ then ret 0%nat
      else
        let title := default "No Title" (entry_title entry) in
        let summary :=
          default (default "" (entry_description entry)) (entry_summary entry) in
        let '(level, score) :=
          if mentions_high_threat title summary
          then ("HIGH", 75) else ("UNKNOWN", 50) in
        t ← now;
        _ ← db_add {| timestamp := t;
                      int_category := "CYBINT";
                      source_url := Some link;
                      keyword := "Cyber News";
                      raw_text := prefix_to 2000 summary;
                      author := Some source_name;
                      summary := PStr ("[" ++ source_name ++ "] " ++ title);
                      country := PStr "Global";
                      threat_level := PStr level;
                      threat_score := PInt score;
                      confidence := default_confidence;
                      latitude := None;
                      longitude := None |};
        ret 1%nat
  end.

(** [CYBINTManager.fetch_feed]; [parsed] is [None] when [feedparser.parse]
    raised. *)
Definition fetch_feed (parsed : option (list FeedEntry)) (source_name : string)
    (limit : Z) : M nat :=
  match parsed with
  | None => ret 0%nat
  | Some entries =>
      count ← for_each (fetch_feed_entry source_name) (slice_to limit entries);
      _ ← db_commit;
      ret count
  end.

End WithExternals.
End Cybint.

(** ** synscope/ints/osint.py *)

Module Osint.
Section WithExternals.
Context `{Externals}.

(** [a or b] on optional strings. *)
Definition py_or (a b : option string) : option string :=
  match a with
  | Some (String _ _) => a
  | _ => b
  end.

(** One turn of the ingestion loop of [bulk_fetch]. *)
Definition bulk_fetch_item (keyword : string) (r : gmap string string) : M nat :=
  let url := py_or (r !! "url") (r !! "href") in
  let title := r !! "title" in
  let source := Py.get r "source" "Web Search" in
  match url with
  | None | Some EmptyString => ret 0%nat
  | Some url =>
      found ← db_query_first (Some url);
      if found is Some _ then ret 0%nat
      else
        try_except
          (article ← or_raise RequestError (article_fetch url);
           let raw_body := clean_text (article_text article) in
           let raw_body :=
             if (String.length raw_body <? 100)%nat
             then Py.get r "body" "" else raw_body in
           analysis ← Llm.analyze_text (prefix_to 3000 raw_body);
           ingest_time ← now;
           a_summary ← Llm.analysis_get analysis "summary" (PStr "Analysis Failed");
           a_country ← Llm.analysis_get analysis "country" (PStr "Unknown");
           a_level ← Llm.analysis_get analysis "threat_level" (PStr "UNKNOWN");
           a_score ← Llm.analysis_get analysis "threat_score" (PInt 0);
           a_confidence ← Llm.analysis_get analysis "confidence" (PFloat 0);
           _ ← db_add {| timestamp := ingest_time;
                         int_category := "OSINT";
                         source_url := Some url;
                         keyword := keyword;
                         raw_text := fmt title ++ Llm.nl ++ Llm.nl ++ raw_body;
                         author := Some (if article_authors article is [] then source
                                         else str_of_list (article_authors article));
                         summary := a_summary;
                         country := a_country;
                         threat_level := a_level;
                         threat_score := a_score;
                         confidence := a_confidence;
                         latitude := None;
                         longitude := None |};
           _ ← db_commit;
           ret 1%nat)
          (fun e => ret 0%nat)
  end.


End WithExternals.
End Osint.

(** ** synscope/ints/socmint.py *)

Module Socmint.
Section WithExternals.
Context `{Externals}.

Definition platform_of (url : string) : string :=
  if contains "reddit.com" url then "Reddit"
  else if contains "t.me" url then "Telegram"
  else if contains "twitter.com" url || contains "x.com" url then "X (Twitter)"
  else "Unknown".

Definition nonempty (o : option string) : bool :=
  match o with
  | Some (String _ _) => true
  | _ => false
  end.

(** One turn of the ingestion loop of [run_social_search]. *)
Definition run_social_search_item (keyword : string) (user subreddit : option string)
    (r : gmap string string) : M nat :=
  let url := Py.get r "href" "" in
  let title := Py.get r "title" "" in
  let body := Py.get r "body" "" in
  let platform := platform_of url in
  found ← db_query_first (Some url);
  if found is Some _ then ret 0%nat
  else
    let full_text := "[" ++ platform ++ "] " ++ title ++ Llm.nl ++ body in
    analysis ← Llm.analyze_text full_text;
    timestamp ← now;
    try_except
      (a_summary ← Llm.analysis_get analysis "summary" (PStr body);
       a_country ← Llm.analysis_get analysis "country" (PStr "Unknown");
       a_level ← Llm.analysis_get analysis "threat_level" (PStr "UNKNOWN");
       a_score ← Llm.analysis_get analysis "threat_score" (PInt 0);
       a_confidence ← Llm.analysis_get analysis "confidence" (PFloat 0);
       _ ← db_add {| timestamp := timestamp;
                     int_category := "SOCMINT";
                     source_url := Some url;
                     keyword := keyword;
                     raw_text := full_text;
                     author := Some (if nonempty user then "@" ++ fmt user
                                     else if nonempty subreddit then "r/" ++ fmt subreddit
                                     else platform);
                     summary := a_summary;
                     country := a_country;
                     threat_level := a_level;
                     threat_score := a_score;
                     confidence := a_confidence;
                     latitude := None;
                     longitude := None |};
       _ ← db_commit;
       ret 1%nat)
      (fun e => _ ← log (LogError "Error saving SOCMINT item"); ret 0%nat).


End WithExternals.
End Socmint.

(** ** geoscope/ints/geoint.py *)

Module Geoint.
Section WithExternals.
Context `{Externals}.

(** A catalogue scene: its id and its [properties]. *)
Record Scene : Type := mkScene {
  scene_id : string;
  scene_properties : gmap string string
}.

(** One turn of the loop of [search_satellite_metadata]. *)
Definition satellite_item (location_name : string) (lat lon : Q) (item : Scene)
    : M nat :=
  let props := scene_properties item in
  let acquisition_date := props !! "datetime" in
  let cloud_cover := props !! "eo:cloud_cover" in
  let summary :=
    "Satellite Pass: Sentinel-2. " ++ "Cloud Cover: " ++ fmt cloud_cover ++ "%. "
    ++ "Date: " ++ fmt acquisition_date ++ "." in
  found ← db_query_first (Some ("STAC:" ++ scene_id item));
  if found is Some _ then ret 0%nat
  else
    date ← or_raise AttributeError acquisition_date;
    t ← or_raise ValueError (fromisoformat (replace_char "Z" "+00:00" date));
    _ ← db_add {| timestamp := t;
                  int_category := "GEOINT";
                  source_url := Some ("STAC:" ++ scene_id item);
                  keyword := location_name;
                  raw_text := str_of_dict props;
                  author := None;
                  summary := PStr summary;
                  country := PStr location_name;
                  threat_level := PNone;
                  threat_score := PInt 0;
                  confidence := default_confidence;
                  latitude := Some lat;
                  longitude := Some lon |};
    ret 1%nat.


End WithExternals.
End Geoint.

(** ** geoscope/ints/signals.py *)

Module Signals.
Section WithExternals.
Context `{Externals}.

Record Signal : Type := mkSignal {
  sig_type : string;
  sig_content : string;
  sig_priority : string
}.

(** [SignalsManager.detect_eam_patterns]. *)
Definition detect_eam_patterns (text : string) : list Signal :=
  map (fun m => {| sig_type := "EAM-SKYKING";
                   sig_content := strip m;
                   sig_priority := "CRITICAL" |})
      (findall_skyking text)
  ++
  map (fun hb => {| sig_type := "EAM-STANDARD";
                    sig_content := "Header: " ++ fst hb ++ " | Body: " ++ strip (snd hb);
                    sig_priority := "HIGH" |})
      (findall_eam text).

(** One turn of the loop of [ingest_log_file]. *)
Definition ingest_signal (sig : Signal) : M nat :=
  let content := sig_content sig in
  let sig_id := "SIGINT-" ++ str_of_Z (py_hash content) in
  found ← db_query_first (Some sig_id);
  if found is Some _ then ret 0%nat
  else
    t ← now;
    _ ← db_add {| timestamp := t;
                  int_category := "COMINT";
                  source_url := Some sig_id;
                  keyword := "HFGCS";
                  raw_text := content;
                  author := None;
                  summary := PStr ("Intercepted " ++ sig_type sig ++ ": "
                                   ++ prefix_to 50 content ++ "...");
                  country := PStr "Global";
                  threat_level := PStr (sig_priority sig);
                  threat_score :=
                    PInt (if String.eqb (sig_type sig) "EAM-SKYKING" then 90 else 60);
                  confidence := PFloat 1;
                  latitude := None;
                  longitude := None |};
    ret 1%nat.

(** [SignalsManager.ingest_log_file] once the path is looked up and the file
    read; [file] is the content of the log, or [None] when the path does
    not exist.  [ingest_log_path] below starts from the path. *)
Definition ingest_log_file (file : option string) : M unit :=
  match file with
  | None => ret tt
  | Some raw_data =>
      let detected_signals := detect_eam_patterns raw_data in
      if detected_signals is [] then ret tt
      else _ ← for_each ingest_signal detected_signals; db_commit
  end.

(** What the path given to [ingest_log_file] comes to: no such path, a
    path that [open] or [read] raises on (a directory, a file without read
    permission), or a file with its content. *)
Inductive log_path : Type :=
| NoSuchPath
| OpenRaises (e : exn)
| Readable (raw_data : string).

(** [SignalsManager.ingest_log_file] from the path on: [open] and [read]
    sit outside any handler. *)
Definition ingest_log_path (path : log_path) : M unit :=
  match path with
  | NoSuchPath => ingest_log_file None
  | OpenRaises e => raise e
  | Readable raw_data => ingest_log_file (Some raw_data)
  end.

(** The content read from a path. *)
Definition content_of (path : log_path) : string :=
  match path with
  | Readable raw_data => raw_data
  | _ => ""
  end.

End WithExternals.
End Signals.

(** ** synscope/ints/adsint.py *)

Module Adsint.
Section WithExternals.
Context `{Externals}.

Definition MILITARY_CALLSIGNS : list string :=
  ["RCH"; "DUKE"; "EVIL"; "KNIFE"; "VIKING"; "DOOM"; "DEATH"; "BONE"; "GHOST";
   "SNAKE"; "ARROW"; "NATO"; "RRR"; "MMF"; "IAM"; "GAF"; "FORTE"; "LAGR"].

Definition INTERESTING_AIRCRAFT : gmap string string :=
  {[ "AE01D5" := "USAF E-4B Nightwatch (Doomsday Plane)";
     "AE041B" := "USAF RC-135V Rivet Joint";
     "AE0425" := "USAF RC-135W Rivet Joint";
     "AE5420" := "USAF E-6B Mercury (TACAMO)";
     "43C6C4" := "RAF RC-135W Rivet Joint" ]}.

(** The entries of a state vector that [scan_region] reads
    ([state[0]], [1], [2], [5], [6], [7], [9]). *)
Record StateVector : Type := mkStateVector {
  sv_icao24 : string;
  sv_callsign : option string;
  sv_origin_country : string;
  sv_longitude : option Q;
  sv_latitude : option Q;
  sv_altitude : option Q;
  sv_velocity : option Q
}.

(** One turn of the loop of [scan_region]. *)
Definition scan_state (state : StateVector) : M nat :=
  let icao24 := sv_icao24 state in
  let callsign := strip (default "" (sv_callsign state)) in
  let origin_country := sv_origin_country state in
  let is_military :=
    existsb (fun prefix => startswith (upper callsign) prefix) MILITARY_CALLSIGNS in
  let is_known := bool_decide (is_Some (INTERESTING_AIRCRAFT !! upper icao24)) in
  if is_military || is_known then
    let aircraft_name :=
      Py.get INTERESTING_AIRCRAFT (upper icao24) ("Military (" ++ callsign ++ ")") in
    local ← now;
    let source_id := "ADSINT-" ++ icao24 ++ "-" ++ strftime_hour local in
    found ← db_query_first (Some source_id);
    if found is Some _ then ret 0%nat
    else
      altitude ← or_raise TypeError (sv_altitude state);
      velocity ← or_raise TypeError (sv_velocity state);
      t ← now;
      _ ← db_add {| timestamp := t;
                    int_category := "ADSINT";
                    source_url := Some source_id;
                    keyword := if String.eqb callsign "" then icao24 else callsign;
                    raw_text := "ICAO: " ++ icao24 ++ ", Callsign: " ++ callsign
                                ++ ", Country: " ++ origin_country;
                    author := None;
                    summary :=
                      PStr ("🛩️ " ++ aircraft_name ++ " | Callsign: " ++ callsign
                            ++ " | " ++ "Alt: " ++ fmt_float0 altitude ++ "m | Speed: "
                            ++ fmt_float0 velocity ++ "m/s | Origin: " ++ origin_country);
                    country := PStr origin_country;
                    threat_level := PStr (if is_known then "HIGH" else "ELEVATED");
                    threat_score := PInt (if is_known then 75 else 50);
                    confidence := PFloat 1;
                    latitude := sv_latitude state;
                    longitude := sv_longitude state |};
      ret 1%nat
  else ret 0%nat.

(** [ADSINTManager.scan_region]; [reply] is [None] when the request raised,
    else the ["states"] of the answer.  The rows returned for display are
    not modelled. *)
Definition scan_region (reply : option (list StateVector)) : M unit :=
  match reply with
  | None | Some [] => ret tt
  | Some states => _ ← for_each scan_state states; db_commit
  end.

End WithExternals.
End Adsint.

(** ** synscope/ints/maritint.py *)

Module Maritint.
Section WithExternals.
Context `{Externals}.

Record Pattern : Type := mkPattern {
  p_name : string;
  p_type : string;
  p_lat : Q;
  p_lon : Q;
  p_detail : string
}.

(** [regional_patterns], in the order of the dictionary literal. *)
Definition regional_patterns : list (string * list Pattern) :=
  [ ("black_sea",
     [ mkPattern "Russian Black Sea Fleet" "NAVAL ACTIVITY" (4462 # 100) (3352 # 100)
                 "Sevastopol naval base activity";
       mkPattern "Turkish Straits" "CHOKEPOINT" (4101 # 100) (29 # 1)
                 "Bosphorus transit monitoring" ]);
    ("south_china_sea",
     [ mkPattern "Spratly Islands" "DISPUTED ZONE" (10 # 1) (114 # 1)
                 "Artificial island militarization";
       mkPattern "PLA Navy Patrol" "NAVAL PATROL" (155 # 10) (112 # 1)
                 "Carrier group activity" ]);
    ("baltic",
     [ mkPattern "Kaliningrad" "NAVAL BASE" (5471 # 100) (2051 # 100)
                 "Russian Baltic Fleet";
       mkPattern "Gotland" "STRATEGIC ZONE" (575 # 10) (185 # 10)
                 "Swedish defensive perimeter" ]);
    ("persian_gulf",
     [ mkPattern "Strait of Hormuz" "CHOKEPOINT" (265 # 10) (565 # 10)
                 "Oil tanker transit zone";
       mkPattern "US 5th Fleet" "NAVAL PRESENCE" (2622 # 100) (5058 # 100)
                 "Bahrain naval base" ]);
    ("taiwan_strait",
     [ mkPattern "PLA Eastern Theater" "NAVAL ACTIVITY" (245 # 10) (118 # 1)
                 "Amphibious exercise zone";
       mkPattern "Taiwan Navy" "DEFENSIVE PATROL" (24 # 1) (1205 # 10)
                 "ROC Navy patrol routes" ]) ].

(** The patterns selected for a region, or the generic entry. *)
Definition patterns_for (region : string) (lat_min lat_max lon_min lon_max : Q)
    : list Pattern :=
  let region_key :=
    replace_char "-" "_" (replace_char " " "_" (lower region)) in
  let patterns :=
    concat (map snd (List.filter
                       (fun kd => contains (fst kd) region_key
                                  || contains region_key (fst kd))
                       regional_patterns)) in
  if patterns is [] then
    [ mkPattern ("Maritime Zone " ++ region) "MONITORING"
                ((lat_min + lat_max) / 2)%Q ((lon_min + lon_max) / 2)%Q
                "General maritime surveillance" ]
  else patterns.

(** One turn of the storing loop of [_generate_regional_intel]. *)
Definition regional_intel_item (region : string) (pattern : Pattern) : M nat :=
  local ← now;
  let source_id :=
    "MARITINT-" ++ replace_char " " "-" (p_name pattern) ++ "-" ++ strftime_day local in
  found ← db_query_first (Some source_id);
  if found is Some _ then ret 0%nat
  else
    t ← now;
    _ ← db_add {| timestamp := t;
                  int_category := "MARITINT";
                  source_url := Some source_id;
                  keyword := p_type pattern;
                  raw_text := p_name pattern ++ ": " ++ p_detail pattern;
                  author := None;
                  summary := PStr ("🚢 " ++ p_name pattern ++ " | " ++ p_type pattern
                                   ++ " | " ++ p_detail pattern);
                  country := PStr region;
                  threat_level := PStr "ELEVATED";
                  threat_score := PInt 55;
                  confidence := PFloat (7 # 10);
                  latitude := Some (p_lat pattern);
                  longitude := Some (p_lon pattern) |};
    ret 1%nat.

(** [MARITINTManager._generate_regional_intel]. *)
Definition _generate_regional_intel (region : string)
    (lat_min lat_max lon_min lon_max : Q) : M unit :=
  _ ← for_each (regional_intel_item region)
               (patterns_for region lat_min lat_max lon_min lon_max);
  db_commit.

End WithExternals.
End Maritint.

(** ** synscope/cli.py: the statistics of [generate_full] *)

Module Cli.

(** [len([x for x in items if x.threat_level == "CRITICAL"])]. *)
Definition critical_count (items : list IntelItem) : nat :=
  length (List.filter (fun x => eq_str (threat_level x) "CRITICAL") items).

(** [[x.threat_score for x in items if x.threat_score]]. *)
Definition threat_scores (items : list IntelItem) : list pyval :=
  map threat_score (List.filter (fun x => truthy (threat_score x)) items).

(** [sum(l)]: [None] where an element is not a number ([TypeError]). *)
Fixpoint py_sum (acc : Q) (l : list pyval) : option Q :=
  match l with
  | [] => Some acc
  | v :: l' =>
      match as_number v with
      | Some n => py_sum (acc + n)%Q l'
      | None => None
      end
  end.

(** [sum(threat_scores) / len(threat_scores) if threat_scores else 0]. *)
Definition avg_score (items : list IntelItem) : exn + Q :=
  match threat_scores items with
  | [] => inr 0%Q
  | scores =>
      match py_sum 0 scores with
      | Some total => inr (total / inject_Z (Z.of_nat (length scores)))%Q
      | None => inl TypeError
      end
  end.

(** The number a row's score stands for ([0] for NULL). *)
Definition score_num (x : IntelItem) : Q :=
  match as_number (threat_score x) with
  | Some q => q
  | None => 0%Q
  end.

(** A row whose score is a number or NULL, as a numeric column holds. *)
Definition numeric_scored (x : IntelItem) : Prop :=
  forall s, threat_score x <> PStr s.

(** [sum(q for q in l)] over rationals. *)
Definition total (l : list Q) : Q := fold_right Qplus 0%Q l.

(** [counts P l n]: exactly [n] elements of [l] satisfy [P]. *)
Inductive counts {A : Type} (P : A -> Prop) : list A -> nat -> Prop :=
| counts_nil : counts P [] 0
| counts_hit x l n : P x -> counts P l n -> counts P (x :: l) (S n)
| counts_miss x l n : ~ P x -> counts P l n -> counts P (x :: l) n.

End Cli.

(** ** synscope/core/theme.py *)

Module Theme.

(** [calculate_defcon(avg_threat_score: float, critical_count: int) -> int];
    the [if]/[elif] chain is kept in source order. *)
Definition calculate_defcon (avg_threat_score : Q) (critical_count : Z) : Z :=
  if (5 <=? critical_count) || Qle_bool 85 avg_threat_score then 1
  else if (3 <=? critical_count) || Qle_bool 70 avg_threat_score then 2
  else if (1 <=? critical_count) || Qle_bool 50 avg_threat_score then 3
  else if Qle_bool 30 avg_threat_score then 4
  else 5.

End Theme.

(** ** The adapters' common shape

    Every adapter turns one raw item into at most one row, behind the same
    existence check on [source_url].  [attempt] collects the eight loop
    bodies so that a property can be stated once for all of them. *)

Module Pipeline.
Section WithExternals.
Context `{Externals}.

Inductive attempt : Type :=
| ViaCisa (vuln : gmap string string)
| ViaFeed (source_name : string) (entry : Cybint.FeedEntry)
| ViaOsint (keyword : string) (r : gmap string string)
| ViaSocmint (keyword : string) (user subreddit : option string)
             (r : gmap string string)
| ViaGeoint (location_name : string) (lat lon : Q) (item : Geoint.Scene)
| ViaSignals (sig : Signals.Signal)
| ViaAdsint (state : Adsint.StateVector)
| ViaMaritint (region : string) (pattern : Maritint.Pattern).

Definition ingest (a : attempt) : M nat :=
  match a with
  | ViaCisa vuln => Cybint.fetch_cisa_item vuln
  | ViaFeed source_name entry => Cybint.fetch_feed_entry source_name entry
  | ViaOsint keyword r => Osint.bulk_fetch_item keyword r
  | ViaSocmint keyword user subreddit r =>
      Socmint.run_social_search_item keyword user subreddit r
  | ViaGeoint location_name lat lon item =>
      Geoint.satellite_item location_name lat lon item
  | ViaSignals sig => Signals.ingest_signal sig
  | ViaAdsint state => Adsint.scan_state state
  | ViaMaritint region pattern => Maritint.regional_intel_item region pattern
  end.

(** The identifier under which the adapter looks the item up, when the item
    gets as far as the check: an entry without link, a result without URL
    and an aircraft that is neither military nor known are dropped before.
    The flight and maritime keys embed the clock reading taken just before
    the check. *)
Definition identifier_of (a : attempt) (w : World) : option (option string) :=
  match a with
  | ViaCisa vuln => Some (vuln !! "cveID")
  | ViaFeed _ entry =>
      match Cybint.entry_link entry with
      | Some (String c s) => Some (Some (String c s))
      | _ => None
      end
  | ViaOsint _ r =>
      match Osint.py_or (r !! "url") (r !! "href") with
      | Some (String c s) => Some (Some (String c s))
      | _ => None
      end
  | ViaSocmint _ _ _ r => Some (Some (Py.get r "href" ""))
  | ViaGeoint _ _ _ item => Some (Some ("STAC:" ++ Geoint.scene_id item))
  | ViaSignals sig =>
      Some (Some ("SIGINT-" ++ str_of_Z (py_hash (Signals.sig_content sig))))
  | ViaAdsint state =>
      let callsign := strip (default "" (Adsint.sv_callsign state)) in
      if existsb (fun prefix => startswith (upper callsign) prefix)
                 Adsint.MILITARY_CALLSIGNS
         || bool_decide (is_Some (Adsint.INTERESTING_AIRCRAFT
                                    !! upper (Adsint.sv_icao24 state)))
      then Some (Some ("ADSINT-" ++ Adsint.sv_icao24 state ++ "-"
                       ++ strftime_hour (clock (ticks w))))
      else None
  | ViaMaritint _ pattern =>
      Some (Some ("MARITINT-" ++ replace_char " " "-" (Maritint.p_name pattern)
                  ++ "-" ++ strftime_day (clock (ticks w))))
  end.

(** The same attempt on a search result that also carries a publication
    date (the ["date"] entry of a news result). *)
Definition dated (date : string) (a : attempt) : attempt :=
  match a with
  | ViaOsint keyword r => ViaOsint keyword (<["date" := date]> r)
  | ViaSocmint keyword user subreddit r =>
      ViaSocmint keyword user subreddit (<["date" := date]> r)
  | _ => a
  end.

(** The adapters that fill the severity columns from the oracle. *)
Definition uses_oracle (a : attempt) : bool :=
  match a with
  | ViaOsint _ _ | ViaSocmint _ _ _ _ => true
  | _ => false
  end.

(** What a new row of an oracle-fed adapter carries: the clock reading of
    its ingestion (the only one taken), and what the table holds of the
    oracle's severity fields, with their defaults. *)
Definition oracle_fed (w w' : World) (x : IntelItem) : Prop :=
  timestamp x = clock (ticks w) /\
  ticks w' = S (ticks w) /\
  exists text w0 d,
    Llm.analyze_text text w = (inr (JDict d), w0)
    /\ threat_score x = score_column (Py.get d "threat_score" (PInt 0))
    /\ confidence x = confidence_column (Py.get d "confidence" (PFloat 0)).



End WithExternals.

(** [lo <= v <= hi] for a stored number. *)
Definition within (lo hi : Q) (v : pyval) : Prop :=
  match as_number v with
  | Some q => (lo <= q)%Q /\ (q <= hi)%Q
  | None => False
  end.

(** The range invariant of the record. *)
Definition scores_in_range (x : IntelItem) : Prop :=
  within 0 100 (threat_score x) /\ within 0 1 (confidence x).



(** [s] occurs in [t]. *)
Definition occurs_in (s t : string) : Prop :=
  exists pre post, t = pre ++ s ++ post.

End Pipeline.

(** ** Sample collaborators and inputs *)

Module Sample.

(** Collaborators that answer every request the same way. *)
Definition externals (reply : http_reply) (decoded : option json_doc)
    (parse : parse_outcome) : Externals :=
  {| clock := fun n => 1700000000 + Z.of_nat n;
     strftime_hour := fun _ => "2024010112";
     strftime_day := fun _ => "20240101";
     oracle_post := fun _ => reply;
     json_loads := fun _ => decoded;
     dateutil_parse := fun _ => parse;
     fromisoformat := fun _ => Some 1700000000;
     article_fetch := fun _ => Some {| article_text := ""; article_authors := [] |};
     clean_text := fun s => s;
     str_of_dict := fun _ => "{}";
     str_of_list := fun _ => "[]";
     fmt_float0 := fun _ => "0";
     py_hash := fun s => Z.of_nat (String.length s);
     findall_skyking := fun _ => [];
     findall_eam := fun _ => [] |}.


(** An oracle that is down. *)
Definition offline : Externals :=
  externals ConnectionFailed None (ParseRaises ValueError).



Definition empty_world : World :=
  {| db := {| committed := []; pending := [] |}; ticks := 0; logs := [] |}.

Definition row (k : option string) : IntelItem :=
  {| timestamp := 0; int_category := "CYBINT"; source_url := k;
     keyword := ""; raw_text := ""; author := None;
     summary := PNone; country := PNone; threat_level := PNone;
     threat_score := PInt 0; confidence := PFloat 0;
     latitude := None; longitude := None |}.

(** A row with a given severity. *)
Definition graded (level : string) (score : Z) : IntelItem :=
  {| timestamp := 0; int_category := "CYBINT"; source_url := None;
     keyword := ""; raw_text := ""; author := None;
     summary := PNone; country := PNone; threat_level := PStr level;
     threat_score := PInt score; confidence := PFloat 1;
     latitude := None; longitude := None |}.

(** A store that already holds one row keyed by [k]. *)
Definition world_with (k : option string) : World :=
  {| db := {| committed := [row k]; pending := [] |}; ticks := 0; logs := [] |}.

(** A catalogue of [n] items ["CVE-1"], ..., ["CVE-n"]. *)
Definition catalogue (n : nat) : list (gmap string string) :=
  map (fun i => {[ "cveID" := "CVE-" ++ str_of_Z (Z.of_nat i) ]}) (seq 1 n).

End Sample.

(** ** Batches of attempts *)

Module Batch.
Section WithExternals.
Context `{Externals}.
Import Pipeline.

(** The count an outcome reports. *)
Definition reported (r : exn + nat) : nat :=
  match r with
  | inr n => n
  | inl _ => 0%nat
  end.

(** The attempts that, past the existence check, always store their row:
    the catalogue, the feeds, the signal log and the maritime entries.  The
    others can still fail (article or oracle answer, scene date, altitude). *)
Definition sure (a : attempt) : bool :=
  match a with
  | ViaCisa _ | ViaFeed _ _ | ViaSignals _ | ViaMaritint _ _ => true
  | _ => false
  end.

(** An attempt with nothing left to do: it is dropped before the check, or
    its identifier is in the store. *)
Definition settled (a : attempt) (w : World) : Prop :=
  match identifier_of a w with
  | None => True
  | Some k => query_first k (db w) <> None
  end.

(** An attempt whose identifier does not depend on when it is made. *)
Definition timeless (a : attempt) : Prop :=
  forall w1 w2, identifier_of a w1 = identifier_of a w2.

(** All clock readings fall on the same day. *)
Definition one_day : Prop :=
  forall n m, strftime_day (clock n) = strftime_day (clock m).

(** The severity the signal adapter stores: the priority broadcast is
    CRITICAL with score 90, the generic pattern HIGH with score 60. *)
Definition signal_row (x : IntelItem) : Prop :=
  int_category x = "COMINT" /\ confidence x = PFloat 1
  /\ ((threat_level x = PStr "CRITICAL" /\ threat_score x = PInt 90)
      \/ (threat_level x = PStr "HIGH" /\ threat_score x = PInt 60)).

(** The row the maritime adapter stores for a region. *)
Definition maritime_row (region : string) (x : IntelItem) : Prop :=
  int_category x = "MARITINT" /\ country x = PStr region
  /\ threat_level x = PStr "ELEVATED" /\ threat_score x = PInt 55
  /\ confidence x = PFloat (7 # 10).

(** The severity of a row stored when the oracle failed. *)
Definition fallback_row (x : IntelItem) : Prop :=
  summary x = PStr "Analysis failed due to model error."
  /\ country x = PStr "Unknown"
  /\ threat_level x = PStr "UNKNOWN"
  /\ threat_score x = PInt 0
  /\ confidence x = PFloat 0.

(** The filter of [scan_region]: a military callsign prefix or a hardware
    identifier of the table of known aircraft. *)
Definition watched (state : Adsint.StateVector) : bool :=
  let callsign := strip (default "" (Adsint.sv_callsign state)) in
  existsb (fun prefix => startswith (upper callsign) prefix)
          Adsint.MILITARY_CALLSIGNS
  || bool_decide (is_Some (Adsint.INTERESTING_AIRCRAFT
                             !! upper (Adsint.sv_icao24 state))).

(** A state vector whose summary can be formatted. *)
Definition formattable (state : Adsint.StateVector) : Prop :=
  Adsint.sv_altitude state <> None /\ Adsint.sv_velocity state <> None.

(** The severity the flight adapter stores. *)
Definition flight_row (x : IntelItem) : Prop :=
  int_category x = "ADSINT" /\ confidence x = PFloat 1
  /\ ((threat_level x = PStr "HIGH" /\ threat_score x = PInt 75)
      \/ (threat_level x = PStr "ELEVATED" /\ threat_score x = PInt 50)).




(** [l1] is an initial segment of [l2]. *)
Definition extends {A : Type} (l1 l2 : list A) : Prop :=
  exists more, l2 = (l1 ++ more)%list.

End WithExternals.
End Batch.

(** ** geoscope/ints/cybint.py: the whole scan *)

Module CybintScan.
Section WithExternals.
Context `{Externals}.

(** [CYBER_FEEDS], in the order of the dictionary literal. *)
Definition CYBER_FEEDS : list (string * string) :=
  [ ("The Hacker News", "http://feeds.feedburner.com/TheHackersNews");
    ("BleepingComputer", "https://www.bleepingcomputer.com/feed/");
    ("Krebs on Security", "https://krebsonsecurity.com/feed/");
    ("Dark Reading", "https://www.darkreading.com/rss.xml");
    ("US-CERT Alerts", "https://www.cisa.gov/uscert/ncas/alerts.xml");
    ("Threatpost", "https://threatpost.com/feed/");
    ("SecurityWeek", "https://feeds.feedburner.com/securityweek") ].

(** [CYBINTManager.scan_all]; [cisa] is what the catalogue request came to
    and [parse url] what [feedparser.parse(url)] came to.  The function
    returns nothing; the value here is the total it prints. *)
Definition scan_all (limit_per_feed : Z) (cisa : Cybint.cisa_reply)
    (parse : string -> option (list Cybint.FeedEntry)) : M nat :=
  _ ← Cybint.fetch_cisa_exploits cisa;
  for_each (fun feed => Cybint.fetch_feed (parse (snd feed)) (fst feed) limit_per_feed)
           CYBER_FEEDS.

End WithExternals.
End CybintScan.

(** ** synscope/core/theme.py: the status panel *)

Module Defcon.

(** [DEFCON_LEVELS]: name, colour and description of each level. *)
Definition DEFCON_LEVELS : gmap Z (string * string * string) :=
  {[ 1 := ("COCKED PISTOL", "white on red", "Nuclear war imminent");
     2 := ("FAST PACE", "red", "Next step to nuclear war");
     3 := ("ROUND HOUSE", "yellow", "Increase force readiness");
     4 := ("DOUBLE TAKE", "green", "Above normal readiness");
     5 := ("FADE OUT", "blue", "Lowest state of readiness") ]}.

(** [defcon = DEFCON_LEVELS[level]], the first statement of
    [print_defcon_status]: [None] where Python raises [KeyError]. *)
Definition print_defcon_status (level : Z) : option (string * string * string) :=
  DEFCON_LEVELS !! level.

End Defcon.

(** ** synscope/cli.py and geoscope/core/llm.py: the report's input *)

Module Report.

(** [[x.summary for x in items if x.int_category == c and x.summary]]. *)
Definition summaries_of (category : string) (items : list IntelItem) : list pyval :=
  map summary
      (List.filter (fun x => String.eqb (int_category x) category
                             && truthy (summary x)) items).

(** [intel_data] of [generate_full]: the five groups, in the order of the
    dictionary literal; the COMINT rows go under ["SIGNALS"]. *)
Definition intel_data (items : list IntelItem) : list (string * list pyval) :=
  [ ("OSINT", summaries_of "OSINT" items);
    ("SOCMINT", summaries_of "SOCMINT" items);
    ("GEOINT", summaries_of "GEOINT" items);
    ("SIGNALS", summaries_of "COMINT" items);
    ("CYBINT", summaries_of "CYBINT" items) ].

(** The lines one group adds to [context_parts] in [generate_full_report]:
    nothing for an empty group; else a header with the size of the whole
    group, its first twenty items and an empty line. *)
Definition group_parts (group : string * list pyval) : list pyval :=
  match snd group with
  | [] => []
  | items =>
      PStr ("=== " ++ fst group ++ " INTELLIGENCE ("
            ++ str_of_Z (Z.of_nat (length items)) ++ " items) ===")
      :: take 20 items ++ [PStr ""]
  end.

Definition context_parts (data : list (string * list pyval)) : list pyval :=
  concat (map group_parts data).

(** ["\n".join(parts)]: [None] where an element is not a string
    ([TypeError]). *)
Fixpoint join_lines (parts : list pyval) : option string :=
  match parts with
  | [] => Some ""
  | p :: rest =>
      match p, join_lines rest with
      | PStr s, Some t =>
          Some (match rest with
                | [] => s
                | _ => s ++ Llm.nl ++ t
                end)
      | _, _ => None
      end
  end.

(** The intelligence data at the end of the prompt of
    [generate_full_report]: [context[:8000]]. *)
Definition report_context (data : list (string * list pyval)) : option string :=
  match join_lines (context_parts data) with
  | Some context => Some (prefix_to (Z.to_nat 8000) context)
  | None => None
  end.

(** A row whose summary is what a [Text] column holds: a string or NULL. *)
Definition text_summary (x : IntelItem) : Prop :=
  summary x = PNone \/ exists s, summary x = PStr s.

(** The categories [generate_full] makes a group for. *)
Definition reported_category (c : string) : bool :=
  existsb (String.eqb c) ["OSINT"; "SOCMINT"; "GEOINT"; "COMINT"; "CYBINT"].

End Report.

(** ** geoscope/core/utils.py: text clean-up

    [clean_text] applies two regular-expression substitutions and a strip.
    Each substitution is written as the left-to-right scan it performs, on
    ASCII text. *)

Module Text.

(** [re.sub(r'<[^>]+>', '', text)].  [tag] is [None] outside a tag and
    [Some b] after a [<] followed by the characters [b], none of them [>].
    A [>] closes the tag when [b] is not empty, and the tag is dropped;
    after [<>] both characters stay.  A [<] that no [>] follows stays with
    what follows it. *)
Fixpoint strip_tags_from (tag : option string) (s : string) : string :=
  match s with
  | EmptyString =>
      match tag with
      | None => EmptyString
      | Some b => String "<" b
      end
  | String c s' =>
      match tag with
      | None =>
          if Ascii.eqb c "<" then strip_tags_from (Some EmptyString) s'
          else String c (strip_tags_from None s')
      | Some b =>
          if Ascii.eqb c ">" then
            match b with
            | EmptyString => String "<" (String ">" (strip_tags_from None s'))
            | String _ _ => strip_tags_from None s'
            end
          else strip_tags_from (Some (b ++ String c EmptyString)) s'
      end
  end.

Definition strip_tags (s : string) : string := strip_tags_from None s.

(** [re.sub(r'\s+', ' ', text)]; [in_run] holds inside a run of
    whitespace, whose first character has already given the space. *)
Fixpoint collapse_from (in_run : bool) (s : string) : string :=
  match s with
  | EmptyString => EmptyString
  | String c s' =>
      if is_space c then
        if in_run then collapse_from true s'
        else String " " (collapse_from true s')
      else String c (collapse_from false s')
  end.

Definition collapse_whitespace (s : string) : string := collapse_from false s.

(** [clean_text(text)]. *)
Definition clean_text (text : string) : string :=
  if negb (truthy (PStr text)) then ""
  else strip (collapse_whitespace (strip_tags text)).

(** A text without whitespace other than single spaces between other
    characters.  [after_space] holds at the start and after a space. *)
Fixpoint tidy_from (after_space : bool) (s : string) : bool :=
  match s with
  | EmptyString => negb after_space
  | String c s' =>
      if Ascii.eqb c " " then negb after_space && tidy_from true s'
      else negb (is_space c) && tidy_from false s'
  end.

Definition tidy (s : string) : bool :=
  match s with
  | EmptyString => true
  | _ => tidy_from true s
  end.

(** [s] holds a [>]. *)
Fixpoint has_gt (s : string) : bool :=
  match s with
  | EmptyString => false
  | String c s' => Ascii.eqb c ">" || has_gt s'
  end.

(** A text on which the tag pattern finds nothing: every [<] is directly
    followed by [>], or no [>] follows it at all. *)
Fixpoint tagless (s : string) : bool :=
  match s with
  | EmptyString => true
  | String c s' =>
      if Ascii.eqb c "<" then
        match s' with
        | EmptyString => true
        | String d s'' =>
            if Ascii.eqb d ">" then tagless s'' else negb (has_gt s')
        end
      else tagless s'
  end.

(** Whitespace in [s] is single spaces only, never two in a row, and none
    at the start when [after_space] holds. *)
Fixpoint spaced_from (after_space : bool) (s : string) : bool :=
  match s with
  | EmptyString => true
  | String c s' =>
      if Ascii.eqb c " " then negb after_space && spaced_from true s'
      else negb (is_space c) && spaced_from false s'
  end.

End Text.

(** ** More sample collaborators *)

Module Fixtures.

(** Collaborators whose pattern search finds one priority broadcast, the
    whole text, in every log; everything else as in [Sample.offline]. *)
Definition receiving : Externals :=
  {| clock := fun n => 1700000000 + Z.of_nat n;
     strftime_hour := fun _ => "2024010112";
     strftime_day := fun _ => "20240101";
     oracle_post := fun _ => ConnectionFailed;
     json_loads := fun _ => None;
     dateutil_parse := fun _ => ParseRaises ValueError;
     fromisoformat := fun _ => Some 1700000000;
     article_fetch := fun _ => Some {| article_text := ""; article_authors := [] |};
     clean_text := fun s => s;
     str_of_dict := fun _ => "{}";
     str_of_list := fun _ => "[]";
     fmt_float0 := fun _ => "0";
     py_hash := fun s => Z.of_nat (String.length s);
     findall_skyking := fun text => [text];
     findall_eam := fun _ => [] |}.

(** A world of feeds in which one answers, with one entry, and every other
    fails to parse. *)
Definition one_feed_up (url : string) : option (list Cybint.FeedEntry) :=
  if String.eqb url "https://krebsonsecurity.com/feed/"
  then Some [Cybint.mkFeedEntry (Some "https://krebsonsecurity.com/2024/01/a")
               (Some "Ransomware gang claims breach") None None]
  else None.

(** A row of a category with a summary. *)
Definition summarised (category summary_text : string) : IntelItem :=
  {| timestamp := 0; int_category := category; source_url := None;
     keyword := ""; raw_text := ""; author := None;
     summary := PStr summary_text; country := PNone; threat_level := PNone;
     threat_score := PInt 0; confidence := PFloat 0;
     latitude := None; longitude := None |}.

(** A summary of 500 characters. *)
Definition long_summary : string :=
  string_of_list_ascii (repeat "a"%char 500).

(** A report's rows: twenty-five long CYBINT summaries and one OSINT one. *)
Definition crowded : list IntelItem :=
  (repeat (summarised "CYBINT" long_summary) 25
   ++ [summarised "OSINT" "Checkpoint closed"])%list.

End Fixtures.

(** * Properties *)

Ltac run :=
  unfold or_raise, Llm.analysis_get in *;
  unfold mbind, M_bind, bind, mret, M_ret, ret, raise, try_except,
         db_query_first, db_add, db_commit, now, log in *.

(** ** Strings *)

Section Strings.

Lemma prefix_app (p s : string) :
  String.prefix p s = true <-> exists post, s = p ++ post.
Proof.
  revert s. induction p as [|a p IH]; intros s.
  - split; [intros _; exists s; reflexivity | intros _; destruct s; reflexivity].
  - destruct s as [|b s]; simpl.
    + split; [discriminate | intros [post Hp]; discriminate].
    + destruct (ascii_dec a b) as [->|Hne].
      * rewrite IH. split; intros [post Hp]; exists post.
        -- now rewrite Hp.
        -- now injection Hp.
      * split; [discriminate | intros [post Hp]; injection Hp; congruence].
Qed.

Lemma contains_occurs (needle hay : string) :
  contains needle hay = true <-> Pipeline.occurs_in needle hay.
Proof.
  unfold Pipeline.occurs_in.
  induction hay as [|c hay IH]; cbn [contains].
  - rewrite orb_false_r, prefix_app. split.
    + intros [post Hp]. exists "", post. exact Hp.
    + intros (pre & post & Hp). destruct pre; [|discriminate].
      exists post. exact Hp.
  - rewrite orb_true_iff, prefix_app, IH. split.
    + intros [[post Hp] | (pre & post & Hp)].
      * exists "", post. exact Hp.
      * exists (String c pre), post. simpl. now rewrite Hp.
    + intros (pre & post & Hp). destruct pre as [|a pre].
      * left. exists post. exact Hp.
      * right. simpl in Hp. injection Hp as _ Hp. exists pre, post. exact Hp.
Qed.

End Strings.

(** ** The alert level *)

Section AlertLevel.
Import Theme.

(** The guards of [calculate_defcon] reflect the comparisons of the source. *)
Lemma guard_reflect (k : Z) (t : Q) (c : Z) (m : Q) :
  (k <=? c) || Qle_bool t m = true <-> (k <= c \/ (t <= m)%Q).
Proof.
  rewrite orb_true_iff, Z.leb_le, Qle_bool_iff. tauto.
Qed.

Lemma qguard_false (t m : Q) : Qle_bool t m = false <-> (m < t)%Q.
Proof.
  split; intros Hg.
  - apply Qnot_le_lt. intros Hle. apply Qle_bool_iff in Hle. congruence.
  - destruct (Qle_bool t m) eqn:E; [|reflexivity].
    apply Qle_bool_iff in E. apply Qlt_not_le in Hg. contradiction.
Qed.

Lemma guard_reflect_false (k : Z) (t : Q) (c : Z) (m : Q) :
  (k <=? c) || Qle_bool t m = false <-> (c < k /\ (m < t)%Q).
Proof.
  rewrite orb_false_iff, Z.leb_gt, qguard_false. tauto.
Qed.

(** C2. [calculate_defcon] is defined on every non-negative mean score and
    critical count, returns a level between 1 and 5, and follows the ordered
    thresholds with the first match winning; the four boundary cases of the
    specification evaluate as stated. *)
Theorem calculate_defcon_thresholds (m : Q) (c : Z) :
  (0 <= m)%Q -> 0 <= c ->
  let level := calculate_defcon m c in
  1 <= level <= 5 /\
  (5 <= c \/ (85 <= m)%Q -> level = 1) /\
  (~ (5 <= c \/ (85 <= m)%Q) -> 3 <= c \/ (70 <= m)%Q -> level = 2) /\
  (~ (5 <= c \/ (85 <= m)%Q) -> ~ (3 <= c \/ (70 <= m)%Q) ->
     1 <= c \/ (50 <= m)%Q -> level = 3) /\
  (~ (5 <= c \/ (85 <= m)%Q) -> ~ (3 <= c \/ (70 <= m)%Q) ->
     ~ (1 <= c \/ (50 <= m)%Q) -> (30 <= m)%Q -> level = 4) /\
  (~ (5 <= c \/ (85 <= m)%Q) -> ~ (3 <= c \/ (70 <= m)%Q) ->
     ~ (1 <= c \/ (50 <= m)%Q) -> ~ (30 <= m)%Q -> level = 5) /\
  calculate_defcon 85 0 = 1 /\
  calculate_defcon (8499 # 100) 0 = 2 /\
  calculate_defcon 0 5 = 1 /\
  calculate_defcon 0 0 = 5.
Proof.
  intros _ _ level. subst level. unfold calculate_defcon.
  destruct ((5 <=? c) || Qle_bool 85 m) eqn:G1;
    [apply guard_reflect in G1 | apply guard_reflect_false in G1];
  (destruct ((3 <=? c) || Qle_bool 70 m) eqn:G2;
    [apply guard_reflect in G2 | apply guard_reflect_false in G2]);
  (destruct ((1 <=? c) || Qle_bool 50 m) eqn:G3;
    [apply guard_reflect in G3 | apply guard_reflect_false in G3]);
  (destruct (Qle_bool 30 m) eqn:G4;
    [apply Qle_bool_iff in G4 | apply qguard_false in G4]);
  repeat split; try reflexivity; try lia; intros;
    try tauto;
    try (exfalso; intuition (try lia; try lra)).
Qed.

Lemma calculate_defcon_thresholds_witness :
  let level := calculate_defcon (84 # 1) 4 in
  1 <= level <= 5 /\ level = 2.
Proof.
  pose proof (calculate_defcon_thresholds (84 # 1) 4) as H.
  assert (H0 : (0 <= 84 # 1)%Q) by (unfold Qle; simpl; lia).
  assert (H1 : 0 <= 4) by lia.
  specialize (H H0 H1). cbv zeta in H.
  destruct H as (Hr & _ & H2 & _).
  split; [exact Hr|].
  apply H2.
  - intros [Hc | Hm]; [lia | unfold Qle in Hm; simpl in Hm; lia].
  - left; lia.
Defined.

(** C3. [calculate_defcon] is antitone in both arguments: raising the mean
    score or the critical count never raises the numeric level. *)
Theorem calculate_defcon_monotone (m1 m2 : Q) (c1 c2 : Z) :
  (0 <= m1)%Q -> 0 <= c1 -> (m1 <= m2)%Q -> c1 <= c2 ->
  calculate_defcon m1 c1 >= calculate_defcon m2 c2.
Proof.
  intros _ _ Hm Hc. unfold calculate_defcon.
  destruct ((5 <=? c2) || Qle_bool 85 m2) eqn:A1;
    [apply guard_reflect in A1 | apply guard_reflect_false in A1];
  (destruct ((3 <=? c2) || Qle_bool 70 m2) eqn:A2;
    [apply guard_reflect in A2 | apply guard_reflect_false in A2]);
  (destruct ((1 <=? c2) || Qle_bool 50 m2) eqn:A3;
    [apply guard_reflect in A3 | apply guard_reflect_false in A3]);
  (destruct (Qle_bool 30 m2) eqn:A4;
    [apply Qle_bool_iff in A4 | apply qguard_false in A4]);
  (destruct ((5 <=? c1) || Qle_bool 85 m1) eqn:B1;
    [apply guard_reflect in B1 | apply guard_reflect_false in B1]);
  (destruct ((3 <=? c1) || Qle_bool 70 m1) eqn:B2;
    [apply guard_reflect in B2 | apply guard_reflect_false in B2]);
  (destruct ((1 <=? c1) || Qle_bool 50 m1) eqn:B3;
    [apply guard_reflect in B3 | apply guard_reflect_false in B3]);
  (destruct (Qle_bool 30 m1) eqn:B4;
    [apply Qle_bool_iff in B4 | apply qguard_false in B4]);
  try lia; exfalso; intuition (try lia; try lra).
Qed.

Lemma calculate_defcon_monotone_witness :
  calculate_defcon 40 0 >= calculate_defcon 72 1.
Proof.
  apply calculate_defcon_monotone.
  - unfold Qle; simpl; lia.
  - lia.
  - unfold Qle; simpl; lia.
  - lia.
Defined.

End AlertLevel.

(** ** The store *)

Section Store.

Lemma visible_add (x : IntelItem) (s : Session) :
  visible (add x s) = (visible s ++ [stored x])%list.
Proof. unfold visible, add. simpl. now rewrite app_assoc. Qed.

(** A row with an integer score and a float confidence is held as it is. *)
Lemma stored_fixed (x : IntelItem) :
  (exists z, threat_score x = PInt z) ->
  (exists q, confidence x = PFloat q) ->
  stored x = x.
Proof. destruct x. cbn. intros [z ->] [q ->]. reflexivity. Qed.

Lemma visible_commit (s : Session) : visible (commit s) = visible s.
Proof. unfold visible, commit. simpl. now rewrite app_nil_r. Qed.

Lemma keyed_app (k : option string) (l1 l2 : list IntelItem) :
  keyed k (l1 ++ l2) = (keyed k l1 ++ keyed k l2)%list.
Proof. apply filter_app. Qed.

Lemma query_first_none (k : option string) (s : Session) :
  query_first k s = None <-> rows_keyed k s = 0%nat.
Proof.
  unfold query_first, rows_keyed, keyed, key_is.
  induction (visible s) as [|x l IH]; simpl; [tauto|].
  rewrite filter_cons. destruct (decide (source_url x = k)) as [E|E].
  - rewrite bool_decide_eq_true_2 by exact E. split; discriminate.
  - rewrite bool_decide_eq_false_2 by exact E. exact IH.
Qed.

Lemma rows_keyed_add (k : option string) (x : IntelItem) (s : Session) :
  rows_keyed k (add x s)
  = (rows_keyed k s + if decide (source_url x = k) then 1 else 0)%nat.
Proof.
  unfold rows_keyed. rewrite visible_add, keyed_app, length_app.
  unfold keyed at 2. rewrite filter_cons, filter_nil.
  change (source_url (stored x)) with (source_url x).
  destruct (decide (source_url x = k)); reflexivity.
Qed.

Lemma query_first_some (k : option string) (s : Session) (x : IntelItem) :
  query_first k s = Some x -> rows_keyed k s <> 0%nat.
Proof.
  intros Hq Hz. apply query_first_none in Hz. congruence.
Qed.

(** Under the uniqueness constraint an identifier keys at most one row. *)
Lemma unique_rows_keyed (k : option string) (s : Session) :
  unique_identifiers s -> (rows_keyed k s <= 1)%nat.
Proof.
  unfold unique_identifiers, rows_keyed, keyed.
  induction (visible s) as [|x l IH]; cbn [map]; intros Hnd; [cbn; lia|].
  apply NoDup_cons in Hnd as [Hx Hnd].
  rewrite filter_cons. destruct (decide (source_url x = k)) as [E|E]; [|auto].
  assert (Hnone : filter (fun y => source_url y = k) l = []).
  { destruct (filter (fun y => source_url y = k) l) as [|y t] eqn:Hf;
      [reflexivity|].
    assert (Hy : y ∈ filter (fun y => source_url y = k) l)
      by (rewrite Hf; left).
    apply list_elem_of_filter in Hy as [Hk Hy]. exfalso. apply Hx.
    rewrite E, <- Hk. now apply list_elem_of_fmap_2. }
  rewrite Hnone. cbn. lia.
Qed.

End Store.

(** ** The classification oracle client *)

Section Oracle.
Context `{Externals}.
Import Llm.

(** [analyze_text] returns on every input and leaves the session and the
    clock alone. *)
Lemma analyze_text_returns (text : string) (w : World) :
  exists j w', analyze_text text w = (inr j, w')
               /\ db w' = db w /\ ticks w' = ticks w.
Proof.
  unfold analyze_text, analyze_text_try, try_except.
  destruct (oracle_post (prompt_of text)) as [| | | |d]; cbn; eauto.
  destruct (Py.get d "response" (PStr "{}")) as [|b|z|q|s]; cbn; eauto.
  destruct (json_loads s); cbn; eauto.
Qed.


(** The fallback of [analyze_text], from the failure. *)
Lemma analyze_text_failed (text : string) (w : World) :
  oracle_failure text ->
  analyze_text text w
  = (inr (JDict fallback_analysis), logged (LogError "LLM Analysis Failed") w).
Proof.
  intros Hfail. unfold analyze_text, analyze_text_try, try_except.
  destruct Hfail as [E|E|E|E|d E Hns|d s E Hs Hd]; rewrite E; cbn;
    try reflexivity.
  - destruct (Py.get d "response" (PStr "{}")) as [|b|z|q|s]; cbn;
      try reflexivity.
    now destruct (Hns s).
  - rewrite Hs, Hd. reflexivity.
Qed.

(** C4. When the oracle call fails, [analyze_text] returns the fixed
    fallback record (and logs the failure); no exception reaches the
    caller. *)
Theorem analyze_text_fallback (text : string) (w : World) :
  oracle_failure text ->
  analyze_text text w
  = (inr (JDict fallback_analysis), logged (LogError "LLM Analysis Failed") w)
  /\ fallback_analysis !! "summary" = Some (PStr "Analysis failed due to model error.")
  /\ fallback_analysis !! "country" = Some (PStr "Unknown")
  /\ fallback_analysis !! "threat_level" = Some (PStr "UNKNOWN")
  /\ fallback_analysis !! "threat_score" = Some (PInt 0)
  /\ fallback_analysis !! "confidence" = Some (PFloat 0).
Proof.
  intros Hfail. split; [|repeat split; reflexivity].
  unfold analyze_text, analyze_text_try, try_except.
  destruct Hfail as [E|E|E|E|d E Hns|d s E Hs Hd]; rewrite E; cbn;
    try reflexivity.
  - destruct (Py.get d "response" (PStr "{}")) as [|b|z|q|s]; cbn;
      try reflexivity.
    now destruct (Hns s).
  - rewrite Hs, Hd. reflexivity.
Qed.

End Oracle.

Lemma analyze_text_fallback_witness :
  fst (@Llm.analyze_text Sample.offline "Troop movements reported." Sample.empty_world)
  = inr (JDict Llm.fallback_analysis).
Proof.
  destruct (@analyze_text_fallback Sample.offline "Troop movements reported."
              Sample.empty_world) as [Hrun _].
  - apply Llm.fail_request. reflexivity.
  - rewrite Hrun. reflexivity.
Defined.

(** ** The flexible date parser *)

Section Dates.
Context `{Externals}.
Import Utils.

(** C8, as the code has it.  On an input it provides for,
    [parse_flexible_date] returns a datetime and does not raise: what the
    parser returns for a string it accepts; the current time, with a logged
    warning, for a string on which the parser raises [ValueError] or
    [TypeError]; the current time, without a warning, for the empty
    string. *)
Theorem parse_flexible_date_cases (s : string) (w : World) :
  Utils.provided_for s ->
  exists d w',
    parse_flexible_date s w = (inr d, w') /\ db w' = db w /\
    (s = "" -> d = clock (ticks w) /\ w' = ticked w) /\
    (s <> "" -> forall d0, dateutil_parse s = Parsed d0 -> d = d0 /\ w' = w) /\
    (s <> "" ->
     dateutil_parse s = ParseRaises ValueError
     \/ dateutil_parse s = ParseRaises TypeError ->
     d = clock (ticks w) /\
     w' = ticked (logged (LogWarning ("Could not parse date: '" ++ s
                                      ++ "'. Defaulting to NOW.")) w)).
Proof.
  intros Hp. unfold parse_flexible_date.
  destruct s as [|c s].
  - cbn. exists (clock (ticks w)), (ticked w).
    repeat split; try reflexivity; congruence.
  - cbn [truthy String.eqb negb].
    replace (String.eqb (String c s) "") with false by (now destruct c).
    cbn [negb].
    unfold try_except_value_type.
    destruct Hp as [Hp|[[d Hp]|[Hp|Hp]]]; [discriminate| | |]; rewrite Hp; cbn.
    + exists d, w. split; [reflexivity|]. split; [reflexivity|].
      split; [discriminate|]. split.
      * intros _ d0 [= ->]. now split.
      * intros _ [?|?]; discriminate.
    + eexists _, _. split; [reflexivity|]. split; [reflexivity|].
      split; [discriminate|]. split.
      * intros _ d0 ?; discriminate.
      * intros _ _. now split.
    + eexists _, _. split; [reflexivity|]. split; [reflexivity|].
      split; [discriminate|]. split.
      * intros _ d0 ?; discriminate.
      * intros _ _. now split.
Qed.

End Dates.

Lemma parse_flexible_date_cases_witness :
  exists w',
    @Utils.parse_flexible_date Sample.offline "the day after" Sample.empty_world
    = (inr 1700000000, w').
Proof.
  destruct (@parse_flexible_date_cases Sample.offline "the day after"
              Sample.empty_world) as (d & w' & Hrun & _ & _ & _ & Hraise).
  - right. right. left. reflexivity.
  - destruct Hraise as [Hd _]; [discriminate | left; reflexivity |].
    exists w'. rewrite Hrun, Hd. reflexivity.
Defined.

(** C8, as stated, asks for a logged warning on the empty string as well;
    the guard on the empty string returns the current time before any
    logging. *)
Lemma parse_flexible_date_empty_logs_nothing :
  ~ (forall (E : Externals) (s : string) (w : World),
       s = "" \/ (exists e, dateutil_parse s = ParseRaises e) ->
       exists w' msg,
         Utils.parse_flexible_date s w = (inr (clock (ticks w)), w')
         /\ logs w' = (logs w ++ [LogWarning msg])%list).
Proof.
  intros Hclaim.
  destruct (Hclaim Sample.offline "" Sample.empty_world) as (w' & msg & Hrun & Hlog).
  - left. reflexivity.
  - cbn in Hrun. injection Hrun as <-. cbn in Hlog. discriminate.
Qed.

(** ** The vulnerability-feed adapter: syndicated feeds *)

Section FeedSeverity.
Context `{Externals}.
Import Cybint Pipeline.

Lemma mentions_high_threat_iff (title summary : string) :
  mentions_high_threat title summary = true <->
  exists kw, In kw high_threat_keywords /\
             (occurs_in (lower kw) (lower title)
              \/ occurs_in (lower kw) (lower summary)).
Proof.
  unfold mentions_high_threat. rewrite existsb_exists.
  split; intros (kw & Hin & Hk); exists kw; split; try assumption.
  - apply orb_true_iff in Hk. now rewrite <- !contains_occurs.
  - apply orb_true_iff. now rewrite !contains_occurs.
Qed.

(** C6. An entry of a syndicated feed that is ingested (it has a link, and
    no row is keyed by that link) is stored under its link; it gets
    [threat_level "HIGH"] and [threat_score 75] when a term of the
    vocabulary occurs, case-insensitively, in its title or its summary, and
    keeps the default score 50 (level ["UNKNOWN"]) otherwise. *)
Theorem fetch_feed_entry_severity (source_name : string) (entry : FeedEntry)
    (w : World) (link : string) :
  entry_link entry = Some link ->
  link <> "" ->
  query_first (Some link) (db w) = None ->
  let title := default "No Title" (entry_title entry) in
  let summary :=
    default (default "" (entry_description entry)) (entry_summary entry) in
  let flagged :=
    exists kw, In kw high_threat_keywords /\
               (occurs_in (lower kw) (lower title)
                \/ occurs_in (lower kw) (lower summary)) in
  exists x,
    fetch_feed_entry source_name entry w
    = (inr 1%nat, {| db := add x (db w); ticks := S (ticks w); logs := logs w |}) /\
    source_url x = Some link /\
    int_category x = "CYBINT" /\
    (flagged -> threat_level x = PStr "HIGH" /\ threat_score x = PInt 75) /\
    (~ flagged -> threat_level x = PStr "UNKNOWN" /\ threat_score x = PInt 50).
Proof.
  intros Hlink Hne Hq title summary flagged.
  unfold fetch_feed_entry. rewrite Hlink.
  destruct link as [|c link]; [congruence|].
  unfold mbind, M_bind, bind, db_query_first. rewrite Hq.
  fold title summary.
  assert (Hflag : mentions_high_threat title summary = true <-> flagged)
    by apply mentions_high_threat_iff.
  destruct (mentions_high_threat title summary) eqn:Hm;
    eexists; (split; [reflexivity|]); cbn;
    (split; [reflexivity|]); (split; [reflexivity|]); split; intros Hf.
  - split; reflexivity.
  - exfalso. apply Hf, Hflag. reflexivity.
  - apply Hflag in Hf. discriminate.
  - split; reflexivity.
Qed.

End FeedSeverity.

Lemma fetch_feed_entry_severity_witness :
  exists x,
    @Cybint.fetch_feed_entry Sample.offline "Krebs on Security"
      {| Cybint.entry_link := Some "https://example.org/a";
         Cybint.entry_title := Some "New Zero-Day in the wild";
         Cybint.entry_summary := None;
         Cybint.entry_description := None |} Sample.empty_world
    = (inr 1%nat, {| db := add x (db Sample.empty_world); ticks := 1; logs := [] |})
    /\ source_url x = Some "https://example.org/a"
    /\ threat_level x = PStr "HIGH" /\ threat_score x = PInt 75.
Proof.
  destruct (@fetch_feed_entry_severity Sample.offline "Krebs on Security"
              {| Cybint.entry_link := Some "https://example.org/a";
                 Cybint.entry_title := Some "New Zero-Day in the wild";
                 Cybint.entry_summary := None;
                 Cybint.entry_description := None |} Sample.empty_world
              "https://example.org/a")
    as (x & Hrun & Hkey & _ & Hhigh & _).
  - reflexivity.
  - discriminate.
  - reflexivity.
  - exists x. split; [exact Hrun|]. split; [exact Hkey|].
    apply Hhigh. exists "zero-day". split.
    + simpl. tauto.
    + left. exists "new ", " in the wild". reflexivity.
Defined.

(** ** The deduplication gate *)

Section Gate.
Context `{Externals}.
Import Pipeline.

(** C1. For each of the eight ingestion paths: when the identifier under
    which the adapter looks an item up is already in the store, the attempt
    returns without error, reports no new row and leaves the session as it
    was; the row found under the identifier is still the one found
    afterwards and the number of rows keyed by it has not changed: exactly
    one, where the store's identifiers were unique. *)
Theorem reingestion_is_noop (a : attempt) (w : World) (k : option string)
    (x : IntelItem) :
  identifier_of a w = Some k ->
  query_first k (db w) = Some x ->
  exists w',
    ingest a w = (inr 0%nat, w')
    /\ db w' = db w
    /\ logs w' = logs w
    /\ query_first k (db w') = Some x
    /\ rows_keyed k (db w') = rows_keyed k (db w)
    /\ (unique_identifiers (db w) -> rows_keyed k (db w') = 1%nat).
Proof.
  intros Hid Hq.
  enough (exists w', ingest a w = (inr 0%nat, w') /\ db w' = db w /\ logs w' = logs w)
    as (w' & Hrun & Hdb & Hlog)
    by (exists w'; rewrite Hdb; repeat split; auto; intros Hu;
        pose proof (unique_rows_keyed k (db w) Hu);
        pose proof (query_first_some k (db w) x Hq); lia).
  destruct a as [vuln | source_name entry | keyword r | keyword user subreddit r
                | location_name lat lon item | sig | state | region pattern];
    cbn [ingest identifier_of] in *.
  - injection Hid as <-.
    unfold Cybint.fetch_cisa_item. run. rewrite Hq. eauto.
  - unfold Cybint.fetch_feed_entry.
    destruct (Cybint.entry_link entry) as [[|c s]|]; try discriminate.
    injection Hid as <-. run. rewrite Hq. eauto.
  - unfold Osint.bulk_fetch_item.
    destruct (Osint.py_or (r !! "url") (r !! "href")) as [[|c s]|];
      try discriminate.
    injection Hid as <-. run. rewrite Hq. eauto.
  - injection Hid as <-.
    unfold Socmint.run_social_search_item. run. rewrite Hq. eauto.
  - injection Hid as <-.
    unfold Geoint.satellite_item. run. rewrite Hq. eauto.
  - injection Hid as <-.
    unfold Signals.ingest_signal. run. rewrite Hq. eauto.
  - unfold Adsint.scan_state.
    destruct (existsb _ _ || bool_decide _); [|discriminate].
    injection Hid as <-. run. cbn. rewrite Hq. eauto.
  - injection Hid as <-.
    unfold Maritint.regional_intel_item. run. cbn. rewrite Hq. eauto.
Qed.

End Gate.

Lemma reingestion_is_noop_witness :
  let w := Sample.world_with (Some "CVE-2024-0001") in
  exists w',
    @Pipeline.ingest Sample.offline
      (Pipeline.ViaCisa {[ "cveID" := "CVE-2024-0001"; "product" := "X" ]}) w
    = (inr 0%nat, w')
    /\ db w' = db w
    /\ logs w' = logs w
    /\ query_first (Some "CVE-2024-0001") (db w')
       = Some (Sample.row (Some "CVE-2024-0001"))
    /\ rows_keyed (Some "CVE-2024-0001") (db w')
       = rows_keyed (Some "CVE-2024-0001") (db w)
    /\ (unique_identifiers (db w) ->
        rows_keyed (Some "CVE-2024-0001") (db w') = 1%nat).
Proof.
  apply (@reingestion_is_noop Sample.offline).
  - reflexivity.
  - reflexivity.
Defined.

(** ** What an attempt adds *)

Section Shape.
Context `{Externals}.
Import Pipeline.

Lemma within_100 (z : Z) : 0 <= z <= 100 -> within 0 100 (PInt z).
Proof.
  intros [H0 H1]. unfold within. simpl.
  unfold Qle, inject_Z. simpl. lia.
Qed.

Lemma within_unit (q : Q) : (0 <= q)%Q -> (q <= 1)%Q -> within 0 1 (PFloat q).
Proof. intros H0 H1. unfold within. simpl. now split. Qed.

(** An attempt either leaves the visible store as it was, or appends one
    row: keyed by the identifier the adapter looked up and did not find,
    and carrying either the adapter's own fixed severity or the oracle's. *)
Ltac added Hq :=
  right; eexists _, _;
  split; [reflexivity|]; split; [exact Hq|];
  split; [cbn [db]; rewrite ?visible_commit, visible_add; reflexivity|];
  split; [reflexivity|]; split; [reflexivity|].

Ltac fixed_scores :=
  split; [apply within_100; cbn; lia | apply within_unit; unfold Qle; cbn; lia].

Lemma ingest_shape (a : attempt) (w : World) (r : exn + nat) (w' : World) :
  ingest a w = (r, w') ->
  visible (db w') = visible (db w)
  \/ exists x k,
       identifier_of a w = Some k
       /\ query_first k (db w) = None
       /\ visible (db w') = (visible (db w) ++ [x])%list
       /\ source_url x = k
       /\ r = inr 1%nat
       /\ (if uses_oracle a then oracle_fed w w' x else scores_in_range x).
Proof.
  destruct a as [vuln | source_name entry | keyword r0 | keyword user subreddit r0
                | location_name lat lon item | sig | state | region pattern];
    cbn [ingest identifier_of uses_oracle].
  - unfold Cybint.fetch_cisa_item. run.
    destruct (query_first (vuln !! "cveID") (db w)) eqn:Hq; intros [= <- <-].
    + now left.
    + added Hq. fixed_scores.
  - unfold Cybint.fetch_feed_entry.
    destruct (Cybint.entry_link entry) as [[|c s]|]; run;
      try (intros [= <- <-]; now left).
    destruct (query_first (Some (String c s)) (db w)) eqn:Hq.
    + intros [= <- <-]; now left.
    + destruct (Cybint.mentions_high_threat _ _); intros [= <- <-];
        added Hq; fixed_scores.
  - unfold Osint.bulk_fetch_item.
    destruct (Osint.py_or (r0 !! "url") (r0 !! "href")) as [[|c s]|]; run;
      try (intros [= <- <-]; now left).
    destruct (query_first (Some (String c s)) (db w)) eqn:Hq.
    { intros [= <- <-]; now left. }
    destruct (article_fetch (String c s)) as [article|];
      [|intros [= <- <-]; now left].
    cbv zeta.
    match goal with
    | |- context [Llm.analyze_text ?t w] => set (text := t)
    end.
    destruct (analyze_text_returns text w) as (j & w0 & Hrun & Hdb & Htick).
    rewrite Hrun.
    destruct j as [d|]; cbn; [|intros [= <- <-]; cbn; rewrite Hdb; now left].
    intros [= <- <-]. right. eexists _, _.
    split; [reflexivity|]. split; [exact Hq|].
    split; [cbn [db]; rewrite visible_commit, visible_add, Hdb; reflexivity|].
    split; [reflexivity|]. split; [reflexivity|].
    split; [cbn; now rewrite Htick|].
    split; [cbn; now rewrite Htick|].
    exists text, w0, d. auto.
  - unfold Socmint.run_social_search_item. run.
    destruct (query_first (Some (Py.get r0 "href" "")) (db w)) eqn:Hq.
    { intros [= <- <-]; now left. }
    cbv zeta.
    match goal with
    | |- context [Llm.analyze_text ?t w] => set (text := t)
    end.
    destruct (analyze_text_returns text w) as (j & w0 & Hrun & Hdb & Htick).
    rewrite Hrun.
    destruct j as [d|]; cbn; [|intros [= <- <-]; cbn; rewrite Hdb; now left].
    intros [= <- <-]. right. eexists _, _.
    split; [reflexivity|]. split; [exact Hq|].
    split; [cbn [db]; rewrite visible_commit, visible_add, Hdb; reflexivity|].
    split; [reflexivity|]. split; [reflexivity|].
    split; [cbn; now rewrite Htick|].
    split; [cbn; now rewrite Htick|].
    exists text, w0, d. auto.
  - unfold Geoint.satellite_item. run.
    destruct (query_first _ (db w)) eqn:Hq; [intros [= <- <-]; now left|].
    destruct (Geoint.scene_properties item !! "datetime") as [date|];
      [|intros [= <- <-]; now left].
    destruct (fromisoformat _); intros [= <- <-]; [|now left].
    added Hq. fixed_scores.
  - unfold Signals.ingest_signal. run.
    destruct (query_first _ (db w)) eqn:Hq; intros [= <- <-]; [now left|].
    added Hq. cbn. destruct (String.eqb _ _); fixed_scores.
  - unfold Adsint.scan_state.
    destruct (existsb _ _ || bool_decide _); run; cbn [db ticks logs];
      [|intros [= <- <-]; now left].
    destruct (query_first _ (db w)) eqn:Hq; [intros [= <- <-]; now left|].
    destruct (Adsint.sv_altitude state); [|intros [= <- <-]; now left].
    destruct (Adsint.sv_velocity state); intros [= <- <-]; [|now left].
    added Hq. cbn. destruct (bool_decide _); fixed_scores.
  - unfold Maritint.regional_intel_item. run. cbn [db ticks logs].
    destruct (query_first _ (db w)) eqn:Hq; intros [= <- <-]; [now left|].
    added Hq. fixed_scores.
Qed.

End Shape.

(** ** Ranges of the stored severity *)

Section Ranges.
Context `{Externals}.
Import Pipeline.

(** No adapter breaks the uniqueness of the identifiers. *)
Lemma ingest_keeps_identifiers_unique (a : attempt) (w : World) (r : exn + nat)
    (w' : World) :
  ingest a w = (r, w') ->
  unique_identifiers (db w) -> unique_identifiers (db w').
Proof.
  intros Hrun Hu. unfold unique_identifiers in *.
  destruct (ingest_shape a w r w' Hrun)
    as [-> | (x & k & _ & Hq & -> & Hk & _ & _)]; [exact Hu|].
  rewrite map_app. apply NoDup_app. split; [exact Hu|].
  split; [|apply NoDup_singleton].
  intros k' Hin Hx. cbn in Hx. apply list_elem_of_singleton in Hx. subst k'.
  apply list_elem_of_fmap in Hin as (y & Hy & Hin).
  apply query_first_none in Hq. unfold rows_keyed, keyed in Hq.
  apply length_zero_iff_nil in Hq.
  assert (Hy' : y ∈ filter (fun z => source_url z = k) (visible (db w)))
    by (apply list_elem_of_filter; split; congruence).
  rewrite Hq in Hy'. inversion Hy'.
Qed.

(** *** What the severity columns hold *)















(** C10. A row stored by the web-news or social-search adapter is stamped
    with the clock reading taken while it is ingested, and a publication
    date carried by the search result changes nothing to what is stored. *)
Theorem oracle_rows_stamped_at_ingestion (a : attempt) (w : World)
    (r : exn + nat) (w' : World) :
  uses_oracle a = true ->
  ingest a w = (r, w') ->
  (forall date, ingest (dated date a) w = (r, w'))
  /\ (visible (db w') = visible (db w)
      \/ exists x, visible (db w') = (visible (db w) ++ [x])%list
                   /\ timestamp x = clock (ticks w)
                   /\ ticks w' = S (ticks w)).
Proof.
  intros Hor Hrun. split.
  - intros date. rewrite <- Hrun.
    destruct a; try discriminate; cbn [dated ingest].
    + unfold Osint.bulk_fetch_item, Py.get.
      rewrite !lookup_insert_ne by discriminate. reflexivity.
    + unfold Socmint.run_social_search_item, Py.get.
      rewrite !lookup_insert_ne by discriminate. reflexivity.
  - destruct (ingest_shape a w r w' Hrun)
      as [Hsame | (x & k & _ & _ & Hvis & _ & _ & Hx)]; [now left|].
    right. exists x. rewrite Hor in Hx. destruct Hx as (Hts & Htick & _).
    auto.
Qed.

End Ranges.



Lemma oracle_rows_stamped_at_ingestion_witness :
  let a := Pipeline.ViaOsint "border"
             {[ "url" := "https://example.org/a"; "date" := "2001-01-01T00:00:00" ]} in
  let run := @Pipeline.ingest Sample.offline a Sample.empty_world in
  (forall date, @Pipeline.ingest Sample.offline (Pipeline.dated date a)
                  Sample.empty_world = (fst run, snd run))
  /\ (visible (db (snd run)) = visible (db Sample.empty_world)
      \/ exists x,
           visible (db (snd run)) = (visible (db Sample.empty_world) ++ [x])%list
           /\ timestamp x = 1700000000
           /\ ticks (snd run) = 1%nat).
Proof.
  intros a run.
  apply (@oracle_rows_stamped_at_ingestion Sample.offline a Sample.empty_world
           (fst run) (snd run)).
  - reflexivity.
  - apply surjective_pairing.
Defined.

(** ** The vulnerability catalogue *)

Section Catalogue.
Context `{Externals}.
Import Cybint.

Lemma for_each_cons {A : Type} (body : A -> M nat) (x : A) (l : list A) (w : World) :
  for_each body (x :: l) w
  = match body x w with
    | (inr n, w1) =>
        match for_each body l w1 with
        | (inr m, w2) => (inr (n + m)%nat, w2)
        | (inl e, w2) => (inl e, w2)
        end
    | (inl e, w1) => (inl e, w1)
    end.
Proof.
  cbn [for_each]. run. destruct (body x w) as [[e|n] w1]; [reflexivity|].
  destruct (for_each body l w1) as [[e|m] w2]; reflexivity.
Qed.

(** One turn of the catalogue loop: nothing when the identifier is there,
    one pending row under that identifier otherwise. *)
Lemma fetch_cisa_item_turn (vuln : gmap string string) (w : World) :
  (query_first (vuln !! "cveID") (db w) <> None
   /\ fetch_cisa_item vuln w = (inr 0%nat, w))
  \/ (query_first (vuln !! "cveID") (db w) = None
      /\ exists x, source_url x = vuln !! "cveID" /\ cisa_row x
                   /\ fetch_cisa_item vuln w
                      = (inr 1%nat, {| db := add x (db w);
                                       ticks := S (ticks w);
                                       logs := logs w |})).
Proof.
  unfold fetch_cisa_item. run.
  destruct (query_first (vuln !! "cveID") (db w)) eqn:Hq.
  - left. split; [discriminate|]. destruct w; reflexivity.
  - right. split; [reflexivity|]. eexists. split; [|split; [|reflexivity]].
    + reflexivity.
    + repeat split.
Qed.

(** The loop over the catalogue never raises, touches only the pending
    rows, adds rows of the fixed shape only, keeps the count of every
    identifier that was there and leaves exactly one row under each
    identifier that was absent and occurs in the catalogue. *)
Lemma cisa_loop (vulns : list (gmap string string)) (w : World) :
  exists n w' news,
    for_each fetch_cisa_item vulns w = (inr n, w')
    /\ committed (db w') = committed (db w)
    /\ pending (db w') = (pending (db w) ++ news)%list
    /\ logs w' = logs w
    /\ Forall cisa_row news
    /\ (forall k, rows_keyed k (db w) <> 0%nat ->
                  rows_keyed k (db w') = rows_keyed k (db w))
    /\ (forall k, rows_keyed k (db w) = 0%nat ->
                  k ∈ map (fun v : gmap string string => v !! "cveID") vulns ->
                  rows_keyed k (db w') = 1%nat).
Proof.
  revert w. induction vulns as [|v vulns IH]; intros w.
  - exists 0%nat, w, []. cbn. rewrite app_nil_r.
    repeat split; auto. intros k _ Hin. inversion Hin.
  - rewrite for_each_cons.
    destruct (fetch_cisa_item_turn v w) as [[Hq ->] | (Hq & x & Hx & Hrow & ->)].
    + destruct (IH w) as (n & w' & news & -> & Hc & Hp & Hl & Hrows & Hkeep & Hnew).
      exists (0 + n)%nat, w', news.
      repeat split; auto.
      intros k Hk0 Hin. apply Hnew; [exact Hk0|].
      cbn in Hin. apply elem_of_cons in Hin as [-> | Hin]; [|exact Hin].
      apply query_first_none in Hk0. contradiction.
    + set (w1 := {| db := add x (db w) |}).
      assert (Hst : stored x = x).
      { destruct Hrow as (_ & _ & Hs & Hc). apply stored_fixed; eauto. }
      destruct (IH w1) as (n & w' & news & -> & Hc & Hp & Hl & Hrows & Hkeep & Hnew).
      exists (1 + n)%nat, w', (x :: news).
      split; [reflexivity|]. split; [exact Hc|].
      split; [rewrite Hp; cbn; now rewrite Hst, <- app_assoc|].
      split; [exact Hl|].
      split; [constructor; assumption|].
      assert (Hstep : forall k, rows_keyed k (db w1)
                = (rows_keyed k (db w) + if decide (source_url x = k) then 1 else 0)%nat)
        by (intros k; apply rows_keyed_add).
      split.
      * intros k Hk0. rewrite Hkeep; rewrite Hstep.
        -- destruct (decide (source_url x = k)) as [E|E]; [|lia].
           exfalso. apply Hk0. apply query_first_none. congruence.
        -- lia.
      * intros k Hk0 Hin.
        destruct (decide (source_url x = k)) as [E|E].
        -- rewrite Hkeep; rewrite Hstep, Hk0, decide_True by exact E; lia.
        -- apply Hnew.
           ++ rewrite Hstep, Hk0, decide_False by exact E. reflexivity.
           ++ cbn in Hin. apply elem_of_cons in Hin as [-> | Hin];
                [congruence | exact Hin].
Qed.

End Catalogue.

Section CatalogueRun.
Context `{Externals}.
Import Cybint.

Lemma slice_to_lookup {A : Type} (n : nat) (l : list A) (i : nat) (x : A) :
  l !! i = Some x -> (i < n)%nat -> x ∈ slice_to (Z.of_nat n) l.
Proof.
  intros Hl Hi. unfold slice_to.
  replace (0 <=? Z.of_nat n) with true by (symmetry; apply Z.leb_le; lia).
  rewrite Nat2Z.id. apply list_elem_of_lookup. exists i.
  rewrite lookup_take_lt by exact Hi. exact Hl.
Qed.

(** C5, as the code has it.  For every item among the first twenty of the
    catalogue whose identifier is not in the store, a run of the adapter
    returns without error and leaves exactly one committed row keyed by
    that identifier, with category CYBINT, level ["CRITICAL"], score 95 and
    confidence 1.0. *)
Theorem fetch_cisa_exploits_new_item (vulns : list (gmap string string))
    (w : World) (i : nat) (vuln : gmap string string) :
  vulns !! i = Some vuln ->
  (i < 20)%nat ->
  rows_keyed (vuln !! "cveID") (db w) = 0%nat ->
  exists w' x,
    fetch_cisa_exploits (CisaData (Some vulns)) w = (inr tt, w')
    /\ pending (db w') = []
    /\ keyed (vuln !! "cveID") (committed (db w')) = [x]
    /\ cisa_row x.
Proof.
  intros Hl Hi Hk0.
  destruct (cisa_loop (slice_to 20 vulns) w)
    as (n & w1 & news & Hloop & Hc & Hp & _ & Hrows & _ & Hnew).
  unfold fetch_cisa_exploits, try_except, mbind, M_bind, bind, db_commit.
  cbn [default from_option id]. rewrite Hloop.
  assert (Hone : rows_keyed (vuln !! "cveID") (db w1) = 1%nat).
  { apply Hnew; [exact Hk0|].
    apply (list_elem_of_fmap_2 (fun v : gmap string string => v !! "cveID")).
    exact (slice_to_lookup 20 vulns i vuln Hl Hi). }
  unfold rows_keyed, visible in Hone, Hk0. rewrite Hc, Hp in Hone.
  rewrite app_assoc, keyed_app, length_app, Hk0 in Hone. cbn in Hone.
  destruct (keyed (vuln !! "cveID") news) as [|x [|y l]] eqn:Hx;
    try discriminate.
  eexists _, x. split; [reflexivity|]. cbn [db pending committed commit].
  split; [reflexivity|].
  split.
  - rewrite Hc, Hp, app_assoc, keyed_app, Hx.
    apply length_zero_iff_nil in Hk0. rewrite Hk0. reflexivity.
  - assert (Hin : x ∈ keyed (vuln !! "cveID") news) by (rewrite Hx; left).
    apply list_elem_of_filter in Hin as [_ Hin].
    rewrite Forall_forall in Hrows. now apply Hrows.
Qed.

End CatalogueRun.

Lemma fetch_cisa_exploits_new_item_witness :
  exists w' x,
    @Cybint.fetch_cisa_exploits Sample.offline
      (Cybint.CisaData (Some [ {[ "cveID" := "CVE-2024-0001"; "product" := "X" ]} ]))
      Sample.empty_world
    = (inr tt, w')
    /\ pending (db w') = []
    /\ keyed (Some "CVE-2024-0001") (committed (db w')) = [x]
    /\ Cybint.cisa_row x.
Proof.
  assert (Hfresh : rows_keyed (Some "CVE-2024-0001") (db Sample.empty_world) = 0%nat)
    by reflexivity.
  assert (Hfirst : (0 < 20)%nat) by lia.
  exact (@fetch_cisa_exploits_new_item Sample.offline
           [ {[ "cveID" := "CVE-2024-0001"; "product" := "X" ]} ]
           Sample.empty_world 0
           {[ "cveID" := "CVE-2024-0001"; "product" := "X" ]}
           eq_refl Hfirst Hfresh).
Defined.

(** C5, as stated, speaks of every item of the catalogue; the loop stops
    after twenty.  In a catalogue of 21 new items the last one leaves no
    row. *)
Lemma catalogue_item_beyond_twenty_dropped :
  ~ (forall (E : Externals) (vulns : list (gmap string string))
            (vuln : gmap string string) (w : World),
       vuln ∈ vulns ->
       rows_keyed (vuln !! "cveID") (db w) = 0%nat ->
       exists w',
         Cybint.fetch_cisa_exploits (Cybint.CisaData (Some vulns)) w = (inr tt, w')
         /\ rows_keyed (vuln !! "cveID") (db w') = 1%nat).
Proof.
  intros Hclaim.
  destruct (Hclaim Sample.offline (Sample.catalogue 21)
              {[ "cveID" := "CVE-21" ]} Sample.empty_world)
    as (w' & Hrun & Hone).
  - apply list_elem_of_lookup. exists 20%nat. reflexivity.
  - reflexivity.
  - vm_compute in Hrun. injection Hrun as <-.
    vm_compute in Hone. discriminate.
Qed.

(** ** The statistics of the briefing *)

Section Statistics.
Import Cli.

Lemma critical_count_counts (items : list IntelItem) :
  counts (fun x => threat_level x = PStr "CRITICAL") items (critical_count items).
Proof.
  unfold critical_count.
  induction items as [|x items IH]; simpl; [constructor|].
  destruct (threat_level x) as [|b|z|q|s] eqn:E; simpl;
    try (apply counts_miss; [rewrite E; discriminate | exact IH]).
  destruct (String.eqb s "CRITICAL") eqn:Es; simpl.
  - apply String.eqb_eq in Es. subst s. apply counts_hit; [exact E | exact IH].
  - apply String.eqb_neq in Es. apply counts_miss; [|exact IH].
    rewrite E. congruence.
Qed.

Lemma truthy_score_num (x : IntelItem) :
  numeric_scored x ->
  truthy (threat_score x) = true <-> ~ (score_num x == 0)%Q.
Proof.
  unfold numeric_scored, score_num.
  destruct (threat_score x) as [|b|z|q|s]; simpl; intros Hn.
  - split; [discriminate | intros Hq; now destruct Hq].
  - destruct b; split; try discriminate; try reflexivity.
    intros Hq. now destruct Hq.
  - rewrite negb_true_iff, Z.eqb_neq. unfold Qeq, inject_Z. simpl. lia.
  - rewrite negb_true_iff. split; intros Hq.
    + intros Hz. apply Qeq_bool_iff in Hz. congruence.
    + destruct (Qeq_bool q 0) eqn:E; [|reflexivity].
      apply Qeq_bool_iff in E. contradiction.
  - now destruct (Hn s).
Qed.

Lemma nonzero_counts (items : list IntelItem) :
  Forall numeric_scored items ->
  counts (fun x => ~ (score_num x == 0)%Q) items (length (threat_scores items)).
Proof.
  unfold threat_scores. rewrite length_map.
  induction 1 as [|x items Hx _ IH]; simpl; [constructor|].
  destruct (truthy (threat_score x)) eqn:E; simpl.
  - apply counts_hit; [now apply truthy_score_num | exact IH].
  - apply counts_miss; [|exact IH].
    rewrite <- truthy_score_num by assumption. congruence.
Qed.

Lemma as_number_score_num (x : IntelItem) :
  numeric_scored x -> threat_score x <> PNone ->
  as_number (threat_score x) = Some (score_num x).
Proof.
  unfold numeric_scored, score_num.
  destruct (threat_score x) as [|b|z|q|s]; simpl; intros Hn Hnone;
    try reflexivity; [congruence | now destruct (Hn s)].
Qed.

Lemma py_sum_numbers (items : list IntelItem) (acc : Q) :
  Forall numeric_scored items ->
  exists t, py_sum acc (threat_scores items) = Some t /\
            (t == acc + total (map score_num items))%Q.
Proof.
  unfold threat_scores, total.
  intros Hall. revert acc.
  induction Hall as [|x items Hx _ IH]; intros acc; simpl.
  - exists acc. split; [reflexivity|]. lra.
  - destruct (truthy (threat_score x)) eqn:E; simpl.
    + rewrite as_number_score_num;
        [|exact Hx | intros En; rewrite En in E; discriminate].
      destruct (IH (acc + score_num x)%Q) as (t & Ht & Hq).
      exists t. split; [exact Ht|]. rewrite Hq. lra.
    + destruct (IH acc) as (t & Ht & Hq). exists t. split; [exact Ht|].
      assert (Hz : (score_num x == 0)%Q).
      { destruct (Qeq_dec (score_num x) 0) as [Hz|Hz]; [exact Hz|].
        apply truthy_score_num in Hz; [congruence | exact Hx]. }
      rewrite Hq, Hz. lra.
Qed.

(** C9. The critical count is the number of records whose [threat_level] is
    ["CRITICAL"].  The mean score is taken over the records with a nonzero
    score only: it is the sum of the scores divided by the number of
    nonzero ones, and 0, not an error, when there is none. *)
Theorem generate_full_statistics (items : list IntelItem) :
  Forall numeric_scored items ->
  counts (fun x => threat_level x = PStr "CRITICAL") items (critical_count items)
  /\ exists n q,
       counts (fun x => ~ (score_num x == 0)%Q) items n
       /\ avg_score items = inr q
       /\ (n = 0%nat -> q = 0%Q)
       /\ (n <> 0%nat ->
           (q == total (map score_num items) / inject_Z (Z.of_nat n))%Q).
Proof.
  intros Hall. split; [apply critical_count_counts|].
  pose proof (nonzero_counts items Hall) as Hn.
  destruct (py_sum_numbers items 0 Hall) as (t & Ht & Hq).
  unfold avg_score.
  destruct (threat_scores items) as [|v scores] eqn:E.
  - exists 0%nat, 0%Q. repeat split; [exact Hn | congruence].
  - exists (length (v :: scores)). rewrite Ht.
    exists (t / inject_Z (Z.of_nat (length (v :: scores))))%Q.
    repeat split; [exact Hn | discriminate |].
    intros _. rewrite Hq. apply Qdiv_comp; [lra | reflexivity].
Qed.

End Statistics.

Lemma generate_full_statistics_witness :
  let items := [Sample.graded "CRITICAL" 95; Sample.graded "LOW" 0;
                Sample.graded "HIGH" 75] in
  Cli.counts (fun x => threat_level x = PStr "CRITICAL") items
             (Cli.critical_count items)
  /\ exists n q,
       Cli.counts (fun x => ~ (Cli.score_num x == 0)%Q) items n
       /\ Cli.avg_score items = inr q
       /\ (n = 0%nat -> q = 0%Q)
       /\ (n <> 0%nat ->
           (q == Cli.total (map Cli.score_num items) / inject_Z (Z.of_nat n))%Q).
Proof.
  apply generate_full_statistics.
  repeat (constructor; [intros s; discriminate|]).
  constructor.
Defined.

(** * Further properties of the adapters *)

(** ** One attempt *)

Section Attempts.
Context `{Externals}.
Import Pipeline.

Ltac unchanged := left; split; [reflexivity | eauto].

Ltac appended Hq :=
  right; eexists _, _;
  split; [reflexivity|]; split; [exact Hq|];
  split; [cbn [db]; rewrite ?visible_commit, visible_add; reflexivity|];
  split; reflexivity.

(** An attempt either leaves the rows a query sees as they were, reporting
    0 or raising, or appends one row under the identifier it looked up and
    did not find, reporting 1. *)
Lemma ingest_outcome (a : attempt) (w : World) (r : exn + nat) (w' : World) :
  ingest a w = (r, w') ->
  (visible (db w') = visible (db w)
   /\ (r = inr 0%nat \/ exists e, r = inl e))
  \/ exists x k,
       identifier_of a w = Some k
       /\ query_first k (db w) = None
       /\ visible (db w') = (visible (db w) ++ [x])%list
       /\ source_url x = k
       /\ r = inr 1%nat.
Proof.
  destruct a as [vuln | source_name entry | keyword r0 | keyword user subreddit r0
                | location_name lat lon item | sig | state | region pattern];
    cbn [ingest identifier_of].
  - unfold Cybint.fetch_cisa_item. run.
    destruct (query_first (vuln !! "cveID") (db w)) eqn:Hq; intros [= <- <-].
    + unchanged.
    + appended Hq.
  - unfold Cybint.fetch_feed_entry.
    destruct (Cybint.entry_link entry) as [[|c s]|]; run;
      try (intros [= <- <-]; unchanged).
    destruct (query_first (Some (String c s)) (db w)) eqn:Hq.
    + intros [= <- <-]; unchanged.
    + destruct (Cybint.mentions_high_threat _ _); intros [= <- <-]; appended Hq.
  - unfold Osint.bulk_fetch_item.
    destruct (Osint.py_or (r0 !! "url") (r0 !! "href")) as [[|c s]|]; run;
      try (intros [= <- <-]; unchanged).
    destruct (query_first (Some (String c s)) (db w)) eqn:Hq.
    { intros [= <- <-]; unchanged. }
    destruct (article_fetch (String c s)) as [article|];
      [|intros [= <- <-]; unchanged].
    cbv zeta.
    match goal with
    | |- context [Llm.analyze_text ?t w] => set (text := t)
    end.
    destruct (analyze_text_returns text w) as (j & w0 & Hrun & Hdb & Htick).
    rewrite Hrun.
    destruct j as [d|]; cbn;
      [|intros [= <- <-]; cbn; rewrite Hdb; unchanged].
    intros [= <- <-]. right. eexists _, _.
    split; [reflexivity|]. split; [exact Hq|].
    split; [cbn [db]; rewrite visible_commit, visible_add, Hdb; reflexivity|].
    split; reflexivity.
  - unfold Socmint.run_social_search_item. run.
    destruct (query_first (Some (Py.get r0 "href" "")) (db w)) eqn:Hq.
    { intros [= <- <-]; unchanged. }
    cbv zeta.
    match goal with
    | |- context [Llm.analyze_text ?t w] => set (text := t)
    end.
    destruct (analyze_text_returns text w) as (j & w0 & Hrun & Hdb & Htick).
    rewrite Hrun.
    destruct j as [d|]; cbn;
      [|intros [= <- <-]; cbn; rewrite Hdb; unchanged].
    intros [= <- <-]. right. eexists _, _.
    split; [reflexivity|]. split; [exact Hq|].
    split; [cbn [db]; rewrite visible_commit, visible_add, Hdb; reflexivity|].
    split; reflexivity.
  - unfold Geoint.satellite_item. run.
    destruct (query_first _ (db w)) eqn:Hq; [intros [= <- <-]; unchanged|].
    destruct (Geoint.scene_properties item !! "datetime") as [date|];
      [|intros [= <- <-]; unchanged].
    destruct (fromisoformat _); intros [= <- <-]; [|unchanged].
    appended Hq.
  - unfold Signals.ingest_signal. run.
    destruct (query_first _ (db w)) eqn:Hq; intros [= <- <-]; [unchanged|].
    appended Hq.
  - unfold Adsint.scan_state.
    destruct (existsb _ _ || bool_decide _); run; cbn [db ticks logs];
      [|intros [= <- <-]; unchanged].
    destruct (query_first _ (db w)) eqn:Hq; [intros [= <- <-]; unchanged|].
    destruct (Adsint.sv_altitude state); [|intros [= <- <-]; unchanged].
    destruct (Adsint.sv_velocity state); intros [= <- <-]; [|unchanged].
    appended Hq.
  - unfold Maritint.regional_intel_item. run. cbn [db ticks logs].
    destruct (query_first _ (db w)) eqn:Hq; intros [= <- <-]; [unchanged|].
    appended Hq.
Qed.

End Attempts.

(** ** Batches *)

Section Batches.
Context `{Externals}.
Import Pipeline Batch.

Lemma query_first_found (k : option string) (s : Session) :
  query_first k s <> None <-> exists x, x ∈ visible s /\ source_url x = k.
Proof.
  unfold query_first, key_is.
  induction (visible s) as [|y l IH]; simpl.
  - split; [congruence | intros (x & Hx & _); inversion Hx].
  - destruct (decide (source_url y = k)) as [E|E].
    + rewrite bool_decide_eq_true_2 by exact E.
      split; [intros _; exists y; split; [left | exact E] | discriminate].
    + rewrite bool_decide_eq_false_2 by exact E. rewrite IH.
      split; intros (x & Hx & Hk); exists x; split; try exact Hk.
      * now right.
      * apply elem_of_cons in Hx as [-> | Hx]; [contradiction | exact Hx].
Qed.

Lemma extends_refl {A : Type} (l : list A) : extends l l.
Proof. exists []. now rewrite app_nil_r. Qed.

Lemma extends_trans {A : Type} (l1 l2 l3 : list A) :
  extends l1 l2 -> extends l2 l3 -> extends l1 l3.
Proof.
  intros [m1 ->] [m2 ->]. exists (m1 ++ m2)%list. now rewrite app_assoc.
Qed.

Lemma query_first_extends (k : option string) (s1 s2 : Session) :
  extends (visible s1) (visible s2) ->
  query_first k s1 <> None -> query_first k s2 <> None.
Proof.
  intros [more Hm]. rewrite !query_first_found. intros (x & Hx & Hk).
  exists x. split; [|exact Hk]. rewrite Hm. apply elem_of_app. now left.
Qed.

(** A settled attempt does nothing: no row, no error. *)
Lemma ingest_settled (a : attempt) (w : World) :
  settled a w ->
  exists w', ingest a w = (inr 0%nat, w') /\ db w' = db w /\ logs w' = logs w.
Proof.
  unfold settled.
  destruct a as [vuln | source_name entry | keyword r0 | keyword user subreddit r0
                | location_name lat lon item | sig | state | region pattern];
    cbn [ingest identifier_of].
  - unfold Cybint.fetch_cisa_item. run.
    destruct (query_first _ (db w)); [eauto | congruence].
  - unfold Cybint.fetch_feed_entry.
    destruct (Cybint.entry_link entry) as [[|c s]|]; run; eauto.
    destruct (query_first _ (db w)); [eauto | congruence].
  - unfold Osint.bulk_fetch_item.
    destruct (Osint.py_or (r0 !! "url") (r0 !! "href")) as [[|c s]|]; run; eauto.
    destruct (query_first _ (db w)); [eauto | congruence].
  - unfold Socmint.run_social_search_item. run.
    destruct (query_first _ (db w)); [eauto | congruence].
  - unfold Geoint.satellite_item. run.
    destruct (query_first _ (db w)); [eauto | congruence].
  - unfold Signals.ingest_signal. run.
    destruct (query_first _ (db w)); [eauto | congruence].
  - unfold Adsint.scan_state.
    destruct (existsb _ _ || bool_decide _); run; cbn [db ticks logs]; eauto.
    destruct (query_first _ (db w)); [eauto | congruence].
  - unfold Maritint.regional_intel_item. run. cbn [db ticks logs].
    destruct (query_first _ (db w)); [eauto | congruence].
Qed.

(** A sure attempt never raises. *)
Lemma sure_returns (a : attempt) (w : World) :
  sure a = true -> exists n w', ingest a w = (inr n, w').
Proof.
  destruct a; try discriminate; intros _; cbn [ingest].
  - unfold Cybint.fetch_cisa_item. run.
    destruct (query_first _ (db w)); eauto.
  - unfold Cybint.fetch_feed_entry.
    destruct (Cybint.entry_link entry) as [[|c s]|]; run; eauto.
    destruct (query_first _ (db w)); eauto.
    destruct (Cybint.mentions_high_threat _ _); eauto.
  - unfold Signals.ingest_signal. run.
    destruct (query_first _ (db w)); eauto.
  - unfold Maritint.regional_intel_item. run. cbn [db ticks logs].
    destruct (query_first _ (db w)); eauto.
Qed.

Lemma query_first_added (x : IntelItem) (s : Session) :
  query_first (source_url x) (add x s) <> None.
Proof.
  apply query_first_found. exists (stored x). split; [|reflexivity].
  rewrite visible_add. apply elem_of_app. right. left.
Qed.

Ltac stored :=
  match goal with
  | |- query_first _ (add ?x ?s) <> None => exact (query_first_added x s)
  end.

(** After a sure attempt the identifier it looked up is in the store. *)
Lemma sure_stores (a : attempt) (w : World) (r : exn + nat) (w' : World) :
  sure a = true ->
  ingest a w = (r, w') ->
  match identifier_of a w with
  | None => True
  | Some k => query_first k (db w') <> None
  end.
Proof.
  destruct a; try discriminate; intros _; cbn [ingest identifier_of].
  - unfold Cybint.fetch_cisa_item. run.
    destruct (query_first _ (db w)) eqn:Hq; intros [= <- <-]; cbn [db].
    + congruence.
    + stored.
  - unfold Cybint.fetch_feed_entry.
    destruct (Cybint.entry_link entry) as [[|c s]|]; run; try exact (fun _ => I).
    destruct (query_first _ (db w)) eqn:Hq; [intros [= <- <-]; congruence|].
    destruct (Cybint.mentions_high_threat _ _); intros [= <- <-]; cbn [db];
      stored.
  - unfold Signals.ingest_signal. run.
    destruct (query_first _ (db w)) eqn:Hq; intros [= <- <-]; cbn [db].
    + congruence.
    + stored.
  - unfold Maritint.regional_intel_item. run. cbn [db ticks logs].
    destruct (query_first _ (db w)) eqn:Hq; intros [= <- <-]; cbn [db].
    + congruence.
    + stored.
Qed.

Lemma settled_transfer (a : attempt) (w1 w2 : World) :
  timeless a ->
  extends (visible (db w1)) (visible (db w2)) ->
  settled a w1 -> settled a w2.
Proof.
  unfold settled. intros Ht Hext. rewrite (Ht w2 w1).
  destruct (identifier_of a w1); [|auto].
  now apply query_first_extends.
Qed.

(** A batch only appends: the rows there before stay where they are, the
    rows appended are as many as reported when the batch completes, and
    never more than the batch has items; identifiers stay unique. *)
Lemma batch_appends (l : list attempt) (w : World) (r : exn + nat) (w' : World) :
  for_each ingest l w = (r, w') ->
  exists news,
    visible (db w') = (visible (db w) ++ news)%list
    /\ (forall n, r = inr n -> length news = n)
    /\ (length news <= length l)%nat
    /\ (unique_identifiers (db w) -> unique_identifiers (db w')).
Proof.
  revert w r w'. induction l as [|a l IH]; intros w r w'.
  - intros [= <- <-]. exists []. rewrite app_nil_r.
    split; [reflexivity|]. split; [now intros n [= <-]|]. split; [cbn; lia | auto].
  - rewrite for_each_cons.
    destruct (ingest a w) as [[e|n1] w1] eqn:Hstep.
    + intros [= <- <-].
      pose proof (ingest_keeps_identifiers_unique a w _ _ Hstep) as Hu.
      destruct (ingest_outcome a w _ _ Hstep)
        as [[Hv _] | (x & k & _ & _ & _ & _ & Hr)]; [|discriminate].
      exists []. rewrite app_nil_r.
      split; [exact Hv|]. split; [discriminate|]. split; [cbn; lia | exact Hu].
    + pose proof (ingest_keeps_identifiers_unique a w _ _ Hstep) as Hu1.
      destruct (for_each ingest l w1) as [r2 w2] eqn:Hrest.
      destruct (IH w1 _ _ Hrest) as (news & Hv2 & Hn2 & Hlen & Hu2).
      assert (Hstep' : exists first, visible (db w1) = (visible (db w) ++ first)%list
                                     /\ length first = n1 /\ (n1 <= 1)%nat).
      { destruct (ingest_outcome a w _ _ Hstep)
          as [[Hv [[= ->] | [e' [=]]]] | (x & k & _ & _ & Hv & _ & [= ->])].
        - exists []. rewrite app_nil_r. auto.
        - exists [x]. auto. }
      destruct Hstep' as (first & Hv1 & Hn1 & Hle).
      destruct r2 as [e|n2]; intros [= <- <-];
        exists (first ++ news)%list;
        rewrite Hv2, Hv1, <- app_assoc, length_app;
        (split; [reflexivity|]); (split; [|split; [cbn; lia | auto]]).
      * discriminate.
      * intros n [= <-]. rewrite Hn1. f_equal. now apply Hn2.
Qed.

(** A batch of sure, timeless attempts completes and leaves every one of
    them settled. *)
Lemma batch_settles (l : list attempt) (w : World) (r : exn + nat) (w' : World) :
  Forall (fun a => sure a = true) l ->
  Forall timeless l ->
  for_each ingest l w = (r, w') ->
  (exists n, r = inr n) /\ Forall (fun a => settled a w') l.
Proof.
  intros Hs Ht. revert w r w'.
  induction l as [|a l IH]; intros w r w'.
  - intros [= <- <-]. split; [eauto | constructor].
  - apply Forall_cons in Hs as [Hsa Hs]. apply Forall_cons in Ht as [Hta Ht].
    rewrite for_each_cons.
    destruct (sure_returns a w Hsa) as (n1 & w1 & Hstep). rewrite Hstep.
    destruct (for_each ingest l w1) as [r2 w2] eqn:Hrest.
    destruct (IH Hs Ht w1 r2 w2 Hrest) as [[n2 ->] Hall].
    intros [= <- <-]. split; [eauto|].
    constructor; [|exact Hall].
    destruct (batch_appends l w1 _ _ Hrest) as (news & Hv & _).
    pose proof (sure_stores a w _ _ Hsa Hstep) as Hk.
    unfold settled. rewrite (Hta w2 w).
    destruct (identifier_of a w); [|exact I].
    apply (query_first_extends _ (db w1)); [|exact Hk].
    now exists news.
Qed.

(** A batch of timeless attempts that are all settled does nothing. *)
Lemma batch_settled_noop (l : list attempt) (w : World) :
  Forall timeless l ->
  Forall (fun a => settled a w) l ->
  exists w', for_each ingest l w = (inr 0%nat, w')
             /\ db w' = db w /\ logs w' = logs w.
Proof.
  intros Ht. revert w. induction l as [|a l IH]; intros w Hall.
  - exists w. repeat split.
  - apply Forall_cons in Ht as [Hta Ht]. apply Forall_cons in Hall as [Ha Hall].
    rewrite for_each_cons.
    destruct (ingest_settled a w Ha) as (w1 & -> & Hdb1 & Hlog1).
    destruct (IH Ht w1) as (w2 & -> & Hdb2 & Hlog2).
    + rewrite Forall_forall in Ht, Hall. apply Forall_forall. intros b Hb.
      apply (settled_transfer b w w1); [now apply Ht | | now apply Hall].
      rewrite Hdb1. apply extends_refl.
    + exists w2. repeat split; congruence.
Qed.

End Batches.

(** ** The collectors as batches *)

Section Collectors.
Context `{Externals}.
Import Pipeline Batch.

Lemma for_each_via {A : Type} (g : A -> attempt) (l : list A) :
  for_each (fun x => ingest (g x)) l = for_each ingest (map g l).
Proof.
  induction l as [|x l IH]; [reflexivity|].
  cbn [for_each map]. now rewrite IH.
Qed.

Lemma commit_clean (s : Session) : pending s = [] -> commit s = s.
Proof.
  destruct s as [c p]. cbn. intros ->. unfold commit. cbn.
  now rewrite app_nil_r.
Qed.

Lemma timeless_cisa (vuln : gmap string string) : timeless (ViaCisa vuln).
Proof. intros w1 w2. reflexivity. Qed.

Lemma timeless_feed (name : string) (entry : Cybint.FeedEntry) :
  timeless (ViaFeed name entry).
Proof. intros w1 w2. reflexivity. Qed.

Lemma timeless_signal (sig : Signals.Signal) : timeless (ViaSignals sig).
Proof. intros w1 w2. reflexivity. Qed.

Lemma timeless_maritime (region : string) (pattern : Maritint.Pattern) :
  one_day -> timeless (ViaMaritint region pattern).
Proof. intros Hd w1 w2. cbn. now rewrite (Hd (ticks w1) (ticks w2)). Qed.

(** Running a batch of sure, timeless attempts again, on a store that shows
    the same rows, adds nothing. *)
Lemma batch_again (l : list attempt) (w : World) (r : exn + nat) (w1 w2 : World) :
  Forall (fun a => sure a = true) l ->
  Forall timeless l ->
  for_each ingest l w = (r, w1) ->
  visible (db w2) = visible (db w1) ->
  exists w3, for_each ingest l w2 = (inr 0%nat, w3)
             /\ db w3 = db w2 /\ logs w3 = logs w2.
Proof.
  intros Hs Ht Hrun Hv.
  destruct (batch_settles l w r w1 Hs Ht Hrun) as [_ Hall].
  apply batch_settled_noop; [exact Ht|].
  rewrite Forall_forall in Ht, Hall. apply Forall_forall. intros a Ha.
  apply (settled_transfer a w1 w2); [now apply Ht | | now apply Hall].
  rewrite Hv. apply extends_refl.
Qed.

(** What one poll of a feed does. *)
Lemma fetch_feed_shape (parsed : option (list Cybint.FeedEntry))
    (source_name : string) (limit : Z) (w : World) :
  exists count w' news,
    Cybint.fetch_feed parsed source_name limit w = (inr count, w')
    /\ visible (db w') = (visible (db w) ++ news)%list
    /\ length news = count
    /\ (count <= length (default [] parsed))%nat
    /\ (0 <= limit -> Z.of_nat count <= limit)
    /\ (parsed <> None -> pending (db w') = [])
    /\ (unique_identifiers (db w) -> unique_identifiers (db w')).
Proof.
  unfold Cybint.fetch_feed.
  destruct parsed as [entries|].
  - run.
    change (for_each (Cybint.fetch_feed_entry source_name) (slice_to limit entries))
      with (for_each (fun e => ingest (ViaFeed source_name e)) (slice_to limit entries)).
    rewrite for_each_via.
    set (l := map (ViaFeed source_name) (slice_to limit entries)).
    assert (Hs : Forall (fun a => sure a = true) l).
    { apply Forall_forall. intros a Ha. apply list_elem_of_fmap in Ha as (e & -> & _).
      reflexivity. }
    assert (Ht : Forall timeless l).
    { apply Forall_forall. intros a Ha. apply list_elem_of_fmap in Ha as (e & -> & _).
      apply timeless_feed. }
    destruct (for_each ingest l w) as [r w1] eqn:Hrun.
    destruct (batch_settles l w r w1 Hs Ht Hrun) as [[n ->] _].
    destruct (batch_appends l w _ w1 Hrun) as (news & Hv & Hn & Hlen & Hu).
    unfold l in Hlen. rewrite length_map in Hlen.
    exists n, {| db := commit (db w1); ticks := ticks w1; logs := logs w1 |}, news.
    split; [reflexivity|]. cbn [db].
    split; [now rewrite visible_commit|].
    split; [now apply Hn|].
    rewrite (Hn n eq_refl) in Hlen.
    assert (Hslice : (length (slice_to limit entries) <= length entries)%nat).
    { unfold slice_to. destruct (0 <=? limit); rewrite length_take; lia. }
    split; [cbn; lia|].
    split.
    { intros Hl. unfold slice_to in Hlen.
      replace (0 <=? limit) with true in Hlen by (symmetry; now apply Z.leb_le).
      rewrite length_take in Hlen. lia. }
    split; [reflexivity|].
    intros Hu0. specialize (Hu Hu0). unfold unique_identifiers in *.
    now rewrite visible_commit.
  - exists 0%nat, w, []. rewrite app_nil_r. cbn.
    repeat split; auto; try lia. congruence.
Qed.

(** X1. [fetch_feed] never raises.  It returns the number of rows it
    appended, which is at most the number of entries and, for a
    non-negative [limit], at most [limit]; the rows that were there stay in
    place, identifiers stay unique, and when the feed was parsed everything
    is committed at the end. *)
Theorem fetch_feed_counts (parsed : option (list Cybint.FeedEntry))
    (source_name : string) (limit : Z) (w : World) :
  exists count w' news,
    Cybint.fetch_feed parsed source_name limit w = (inr count, w')
    /\ visible (db w') = (visible (db w) ++ news)%list
    /\ length news = count
    /\ (count <= length (default [] parsed))%nat
    /\ (0 <= limit -> Z.of_nat count <= limit)
    /\ (parsed <> None -> pending (db w') = [])
    /\ (unique_identifiers (db w) -> unique_identifiers (db w')).
Proof. apply fetch_feed_shape. Qed.

(** X2. [fetch_feed] is idempotent on a feed: polling the same entries
    again, right after a first poll, returns 0 and leaves the session as
    the first poll left it. *)
Theorem fetch_feed_again (parsed : option (list Cybint.FeedEntry))
    (source_name : string) (limit : Z) (w : World) (r : exn + nat) (w1 : World) :
  Cybint.fetch_feed parsed source_name limit w = (r, w1) ->
  exists w2,
    Cybint.fetch_feed parsed source_name limit w1 = (inr 0%nat, w2)
    /\ db w2 = db w1 /\ logs w2 = logs w1.
Proof.
  unfold Cybint.fetch_feed.
  destruct parsed as [entries|]; [|intros [= <- <-]; eauto].
  run.
  change (for_each (Cybint.fetch_feed_entry source_name) (slice_to limit entries))
    with (for_each (fun e => ingest (ViaFeed source_name e)) (slice_to limit entries)).
  rewrite for_each_via.
  set (l := map (ViaFeed source_name) (slice_to limit entries)).
  assert (Hs : Forall (fun a => sure a = true) l).
  { apply Forall_forall. intros a Ha. apply list_elem_of_fmap in Ha as (e & -> & _).
    reflexivity. }
  assert (Ht : Forall timeless l).
  { apply Forall_forall. intros a Ha. apply list_elem_of_fmap in Ha as (e & -> & _).
    apply timeless_feed. }
  destruct (for_each ingest l w) as [r0 w0] eqn:Hrun.
  destruct (batch_settles l w r0 w0 Hs Ht Hrun) as [[n ->] _].
  intros [= <- <-].
  destruct (batch_again l w _ w0
              {| db := commit (db w0); ticks := ticks w0; logs := logs w0 |}
              Hs Ht Hrun) as (w3 & -> & Hdb & Hlog).
  { cbn. apply visible_commit. }
  eexists. split; [reflexivity|]. cbn in *. rewrite Hdb.
  split; [|exact Hlog].
  apply commit_clean. reflexivity.
Qed.

(** A non-oracle attempt never commits. *)
Lemma offline_attempt_keeps_committed (a : attempt) (w : World) (r : exn + nat)
    (w' : World) :
  uses_oracle a = false ->
  ingest a w = (r, w') ->
  committed (db w') = committed (db w).
Proof.
  destruct a; try discriminate; intros _; cbn [ingest].
  - unfold Cybint.fetch_cisa_item. run.
    destruct (query_first _ (db w)); intros [= <- <-]; reflexivity.
  - unfold Cybint.fetch_feed_entry.
    destruct (Cybint.entry_link entry) as [[|c s]|]; run;
      try (intros [= <- <-]; reflexivity).
    destruct (query_first _ (db w)); [intros [= <- <-]; reflexivity|].
    destruct (Cybint.mentions_high_threat _ _); intros [= <- <-]; reflexivity.
  - unfold Geoint.satellite_item. run.
    destruct (query_first _ (db w)); [intros [= <- <-]; reflexivity|].
    destruct (Geoint.scene_properties item !! "datetime");
      [|intros [= <- <-]; reflexivity].
    destruct (fromisoformat _); intros [= <- <-]; reflexivity.
  - unfold Signals.ingest_signal. run.
    destruct (query_first _ (db w)); intros [= <- <-]; reflexivity.
  - unfold Adsint.scan_state.
    destruct (existsb _ _ || bool_decide _); run; cbn [db ticks logs];
      [|intros [= <- <-]; reflexivity].
    destruct (query_first _ (db w)); [intros [= <- <-]; reflexivity|].
    destruct (Adsint.sv_altitude state); [|intros [= <- <-]; reflexivity].
    destruct (Adsint.sv_velocity state); intros [= <- <-]; reflexivity.
  - unfold Maritint.regional_intel_item. run. cbn [db ticks logs].
    destruct (query_first _ (db w)); intros [= <- <-]; reflexivity.
Qed.

Lemma offline_batch_keeps_committed (l : list attempt) (w : World)
    (r : exn + nat) (w' : World) :
  Forall (fun a => uses_oracle a = false) l ->
  for_each ingest l w = (r, w') ->
  committed (db w') = committed (db w).
Proof.
  intros Hall. revert w r w'.
  induction Hall as [|a l Ha _ IH]; intros w r w'.
  - now intros [= <- <-].
  - rewrite for_each_cons.
    destruct (ingest a w) as [[e|n1] w1] eqn:Hstep.
    + intros [= <- <-]. exact (offline_attempt_keeps_committed a w _ _ Ha Hstep).
    + destruct (for_each ingest l w1) as [[e|n2] w2] eqn:Hrest;
        intros [= <- <-];
        rewrite (IH w1 _ _ Hrest);
        exact (offline_attempt_keeps_committed a w _ _ Ha Hstep).
Qed.

End Collectors.

Section CatalogueBatch.
Context `{Externals}.
Import Pipeline Batch.

Lemma cisa_attempts (vulns : list (gmap string string)) :
  Forall (fun a => sure a = true) (map ViaCisa vulns)
  /\ Forall timeless (map ViaCisa vulns).
Proof.
  split; apply Forall_forall; intros a Ha;
    apply list_elem_of_fmap in Ha as (v & -> & _);
    [reflexivity | apply timeless_cisa].
Qed.

(** A batch of sure attempts logs nothing. *)
Lemma sure_batch_keeps_logs (l : list attempt) (w : World) (r : exn + nat)
    (w1 : World) :
  Forall (fun a => sure a = true) l ->
  for_each ingest l w = (r, w1) ->
  logs w1 = logs w.
Proof.
  intros Hs. revert w r w1.
  induction Hs as [|a l Ha _ IH]; intros w r w1.
  - now intros [= <- <-].
  - rewrite for_each_cons.
    assert (Hstep : forall r0 w0, ingest a w = (r0, w0) -> logs w0 = logs w).
    { intros r0 w0 Hstep.
      destruct a; try discriminate; cbn [ingest] in Hstep.
      + unfold Cybint.fetch_cisa_item in Hstep. run.
        destruct (query_first _ (db w)); injection Hstep as <- <-; reflexivity.
      + unfold Cybint.fetch_feed_entry in Hstep.
        destruct (Cybint.entry_link entry) as [[|c s]|]; run;
          try (injection Hstep as <- <-; reflexivity).
        destruct (query_first _ (db w)); [injection Hstep as <- <-; reflexivity|].
        destruct (Cybint.mentions_high_threat _ _);
          injection Hstep as <- <-; reflexivity.
      + unfold Signals.ingest_signal in Hstep. run.
        destruct (query_first _ (db w)); injection Hstep as <- <-; reflexivity.
      + unfold Maritint.regional_intel_item in Hstep. run.
        cbn [db ticks logs] in Hstep.
        destruct (query_first _ (db w)); injection Hstep as <- <-; reflexivity. }
    destruct (ingest a w) as [[e|n1] w0].
    + intros [= <- <-]. now apply (Hstep (inl e)).
    + destruct (for_each ingest l w0) as [[e|n2] w2] eqn:Hrest;
        intros [= <- <-]; rewrite (IH w0 _ _ Hrest); now apply (Hstep (inr n1)).
Qed.

(** What one run over the catalogue does. *)
Lemma fetch_cisa_exploits_shape (reply : Cybint.cisa_reply) (w : World) :
  exists w' news,
    Cybint.fetch_cisa_exploits reply w = (inr tt, w')
    /\ visible (db w') = (visible (db w) ++ news)%list
    /\ (length news <= 20)%nat
    /\ (unique_identifiers (db w) -> unique_identifiers (db w'))
    /\ match reply with
       | Cybint.CisaFailed => w' = logged (LogError "CYBINT Error") w
       | Cybint.CisaData _ => pending (db w') = [] /\ logs w' = logs w
       end.
Proof.
  unfold Cybint.fetch_cisa_exploits.
  destruct reply as [|data].
  - run. cbn. exists (logged (LogError "CYBINT Error") w), [].
    rewrite app_nil_r. repeat split; auto. cbn; lia.
  - run.
    change (for_each Cybint.fetch_cisa_item (slice_to 20 (default [] data)))
      with (for_each (fun v => ingest (ViaCisa v)) (slice_to 20 (default [] data))).
    rewrite for_each_via.
    set (l := map ViaCisa (slice_to 20 (default [] data))).
    destruct (cisa_attempts (slice_to 20 (default [] data))) as [Hs Ht].
    destruct (for_each ingest l w) as [r w1] eqn:Hrun.
    destruct (batch_settles l w r w1 Hs Ht Hrun) as [[n ->] _].
    destruct (batch_appends l w _ w1 Hrun) as (news & Hv & Hn & Hlen & Hu).
    pose proof (sure_batch_keeps_logs l w _ w1 Hs Hrun) as Hlogs.
    eexists _, news. split; [reflexivity|]. cbn [db logs].
    split; [now rewrite visible_commit|].
    split.
    { unfold l in Hlen. rewrite length_map in Hlen.
      unfold slice_to in Hlen. cbn in Hlen. rewrite length_take in Hlen. lia. }
    split; [intros Hu0; specialize (Hu Hu0); unfold unique_identifiers in *;
            now rewrite visible_commit|].
    split; [reflexivity | exact Hlogs].
Qed.

(** X3. [fetch_cisa_exploits] never raises, whatever the request came to.
    A failed request leaves the session untouched and logs one error.
    Otherwise at most twenty rows are appended, the rows that were there
    stay in place, identifiers stay unique and everything is committed. *)
Theorem fetch_cisa_exploits_bounded (reply : Cybint.cisa_reply) (w : World) :
  exists w' news,
    Cybint.fetch_cisa_exploits reply w = (inr tt, w')
    /\ visible (db w') = (visible (db w) ++ news)%list
    /\ (length news <= 20)%nat
    /\ (unique_identifiers (db w) -> unique_identifiers (db w'))
    /\ match reply with
       | Cybint.CisaFailed => w' = logged (LogError "CYBINT Error") w
       | Cybint.CisaData _ => pending (db w') = [] /\ logs w' = logs w
       end.
Proof. apply fetch_cisa_exploits_shape. Qed.

(** X4. [fetch_cisa_exploits] is idempotent on a catalogue: a second run on
    the same reply, right after the first, appends nothing and leaves the
    committed rows as they were. *)
Theorem fetch_cisa_exploits_again (data : option (list (gmap string string)))
    (w : World) (r : exn + unit) (w1 : World) :
  Cybint.fetch_cisa_exploits (Cybint.CisaData data) w = (r, w1) ->
  exists w2,
    Cybint.fetch_cisa_exploits (Cybint.CisaData data) w1 = (inr tt, w2)
    /\ db w2 = db w1 /\ logs w2 = logs w1.
Proof.
  unfold Cybint.fetch_cisa_exploits. run.
  change (for_each Cybint.fetch_cisa_item (slice_to 20 (default [] data)))
    with (for_each (fun v => ingest (ViaCisa v)) (slice_to 20 (default [] data))).
  rewrite for_each_via.
  set (l := map ViaCisa (slice_to 20 (default [] data))).
  destruct (cisa_attempts (slice_to 20 (default [] data))) as [Hs Ht].
  destruct (for_each ingest l w) as [r0 w0] eqn:Hrun.
  destruct (batch_settles l w r0 w0 Hs Ht Hrun) as [[n ->] _].
  intros [= <- <-].
  destruct (batch_again l w _ w0
              {| db := commit (db w0); ticks := ticks w0; logs := logs w0 |}
              Hs Ht Hrun) as (w3 & -> & Hdb & Hlog).
  { cbn. apply visible_commit. }
  eexists. split; [reflexivity|]. cbn in *. rewrite Hdb.
  split; [|exact Hlog].
  apply commit_clean. reflexivity.
Qed.

End CatalogueBatch.

Section SignalsAndMaritime.
Context `{Externals}.
Import Pipeline Batch.

(** The rows a batch appends all satisfy what each attempt's row does. *)
Lemma batch_rows (P : IntelItem -> Prop) (l : list attempt) :
  (forall a, a ∈ l -> forall w r w' x,
     ingest a w = (r, w') ->
     visible (db w') = (visible (db w) ++ [x])%list -> P x) ->
  forall w r w',
    for_each ingest l w = (r, w') ->
    exists news, visible (db w') = (visible (db w) ++ news)%list
                 /\ Forall P news.
Proof.
  induction l as [|a l IH]; intros HP w r w'.
  - intros [= <- <-]. exists []. now rewrite app_nil_r.
  - rewrite for_each_cons.
    assert (HPl : forall b, b ∈ l -> forall w r w' x,
               ingest b w = (r, w') ->
               visible (db w') = (visible (db w) ++ [x])%list -> P x)
      by (intros b Hb; apply HP; now right).
    destruct (ingest a w) as [r1 w1] eqn:Hstep.
    assert (Hfirst : exists first, visible (db w1) = (visible (db w) ++ first)%list
                                   /\ Forall P first).
    { destruct (ingest_outcome a w _ _ Hstep)
        as [[Hv _] | (x & k & _ & _ & Hv & _ & _)].
      - exists []. now rewrite app_nil_r.
      - exists [x]. split; [exact Hv|]. constructor; [|constructor].
        apply (HP a ltac:(left) w r1 w1 x Hstep Hv). }
    destruct Hfirst as (first & Hv1 & HP1).
    destruct r1 as [e|n1].
    + intros [= <- <-]. eauto.
    + destruct (for_each ingest l w1) as [r2 w2] eqn:Hrest.
      destruct (IH HPl w1 r2 w2 Hrest) as (news & Hv2 & HP2).
      assert (Hall : visible (db w2) = (visible (db w) ++ (first ++ news))%list
                     /\ Forall P (first ++ news)).
      { rewrite Hv2, Hv1, <- app_assoc. split; [reflexivity|].
        apply Forall_app. now split. }
      destruct r2; intros [= <- <-]; eauto.
Qed.

Lemma detected_kinds (text : string) (sig : Signals.Signal) :
  sig ∈ Signals.detect_eam_patterns text ->
  (Signals.sig_type sig = "EAM-SKYKING" /\ Signals.sig_priority sig = "CRITICAL")
  \/ (Signals.sig_type sig = "EAM-STANDARD" /\ Signals.sig_priority sig = "HIGH").
Proof.
  unfold Signals.detect_eam_patterns. intros Hin.
  apply elem_of_app in Hin as [Hin | Hin];
    apply list_elem_of_fmap in Hin as (m & -> & _); cbn; auto.
Qed.

Lemma appended_row (x y : IntelItem) (s : Session) :
  visible (add y s) = (visible s ++ [x])%list -> x = stored y.
Proof.
  rewrite visible_add. intros Hv. apply app_inv_head in Hv. congruence.
Qed.

Lemma not_appended (x : IntelItem) (s : Session) :
  visible s = (visible s ++ [x])%list -> False.
Proof.
  intros Hv. apply (f_equal length) in Hv. rewrite length_app in Hv.
  cbn in Hv. lia.
Qed.

Lemma signal_attempt_row (text : string) (a : attempt) :
  a ∈ map ViaSignals (Signals.detect_eam_patterns text) ->
  forall w r w' x,
    ingest a w = (r, w') ->
    visible (db w') = (visible (db w) ++ [x])%list -> signal_row x.
Proof.
  intros Ha w r w' x. apply list_elem_of_fmap in Ha as (sig & -> & Hsig).
  cbn [ingest]. unfold Signals.ingest_signal. run.
  destruct (query_first _ (db w)); intros [= <- <-] Hv; cbn [db] in Hv.
  - destruct (not_appended _ _ Hv).
  - apply appended_row in Hv. subst x. unfold signal_row. cbn.
    split; [reflexivity|]. split; [reflexivity|].
    destruct (detected_kinds text sig Hsig) as [[-> ->] | [-> ->]]; cbn; auto.
Qed.

Lemma signal_attempts (sigs : list Signals.Signal) :
  Forall (fun a => sure a = true) (map ViaSignals sigs)
  /\ Forall timeless (map ViaSignals sigs).
Proof.
  split; apply Forall_forall; intros a Ha;
    apply list_elem_of_fmap in Ha as (v & -> & _);
    [reflexivity | apply timeless_signal].
Qed.

(** Once the log is read, [ingest_log_file] returns: every row it appends
    is a signal row, there are at most as many as the two patterns matched,
    the rows that were there stay in place and identifiers stay unique. *)
Lemma ingest_log_file_shape (file : option string) (w : World) :
  exists w' news,
    Signals.ingest_log_file file w = (inr tt, w')
    /\ visible (db w') = (visible (db w) ++ news)%list
    /\ Forall signal_row news
    /\ (length news <= length (findall_skyking (default "" file))
                       + length (findall_eam (default "" file)))%nat
    /\ (unique_identifiers (db w) -> unique_identifiers (db w')).
Proof.
  unfold Signals.ingest_log_file.
  destruct file as [raw_data|];
    [|exists w, []; rewrite app_nil_r; repeat split; auto; cbn; lia].
  destruct (Signals.detect_eam_patterns raw_data) as [|sig sigs] eqn:Hd;
    [exists w, []; rewrite app_nil_r; repeat split; auto; cbn; lia|].
  rewrite <- Hd. run.
  change (for_each Signals.ingest_signal (Signals.detect_eam_patterns raw_data))
    with (for_each (fun s => ingest (ViaSignals s)) (Signals.detect_eam_patterns raw_data)).
  rewrite for_each_via.
  set (l := map ViaSignals (Signals.detect_eam_patterns raw_data)).
  destruct (signal_attempts (Signals.detect_eam_patterns raw_data)) as [Hs Ht].
  destruct (for_each ingest l w) as [r w1] eqn:Hrun.
  destruct (batch_settles l w r w1 Hs Ht Hrun) as [[n ->] _].
  destruct (batch_appends l w _ w1 Hrun) as (news & Hv & Hn & Hlen & Hu).
  destruct (batch_rows signal_row l (signal_attempt_row raw_data) w _ w1 Hrun)
    as (news' & Hv' & Hrows).
  assert (news' = news) by (rewrite Hv in Hv'; now apply app_inv_head in Hv').
  subst news'.
  eexists _, news. split; [reflexivity|]. cbn [db].
  split; [now rewrite visible_commit|].
  split; [exact Hrows|].
  split.
  { unfold l in Hlen. rewrite length_map in Hlen.
    unfold Signals.detect_eam_patterns in Hlen.
    rewrite length_app, !length_map in Hlen. exact Hlen. }
  intros Hu0. specialize (Hu Hu0). unfold unique_identifiers in *.
  now rewrite visible_commit.
Qed.

(** X5. [ingest_log_file] raises exactly when the path exists and cannot be
    opened or read: [open] sits outside any handler, the exception leaves
    the function and nothing is stored or logged.  On a missing path and on
    a log that is read it returns: every row it appends is a COMINT row
    with confidence 1.0 whose level and score go together, CRITICAL with 90
    (priority broadcast) or HIGH with 60 (generic pattern); there are at
    most as many as the two patterns matched; the rows that were there stay
    in place and identifiers stay unique. *)
Theorem ingest_log_file_rows (path : Signals.log_path) (w : World) :
  match path with
  | Signals.OpenRaises e => Signals.ingest_log_path path w = (inl e, w)
  | _ =>
      exists w' news,
        Signals.ingest_log_path path w = (inr tt, w')
        /\ visible (db w') = (visible (db w) ++ news)%list
        /\ Forall signal_row news
        /\ (length news
            <= length (findall_skyking (Signals.content_of path))
               + length (findall_eam (Signals.content_of path)))%nat
        /\ (path = Signals.NoSuchPath -> w' = w)
        /\ (unique_identifiers (db w) -> unique_identifiers (db w'))
  end.
Proof.
  destruct path as [|e|raw_data]; cbn [Signals.ingest_log_path Signals.content_of].
  - exists w, []. rewrite app_nil_r. repeat split; auto. cbn. lia.
  - reflexivity.
  - destruct (ingest_log_file_shape (Some raw_data) w)
      as (w' & news & Hrun & Hv & Hrows & Hlen & Hu).
    exists w', news. repeat split; auto. discriminate.
Qed.

(** X6. [ingest_log_file] is idempotent on a log: reading the same content
    again, in the same process, appends nothing. *)
Theorem ingest_log_file_again (file : option string) (w : World)
    (r : exn + unit) (w1 : World) :
  Signals.ingest_log_file file w = (r, w1) ->
  exists w2,
    Signals.ingest_log_file file w1 = (inr tt, w2)
    /\ visible (db w2) = visible (db w1) /\ logs w2 = logs w1.
Proof.
  unfold Signals.ingest_log_file.
  destruct file as [raw_data|]; [|intros [= <- <-]; eauto].
  destruct (Signals.detect_eam_patterns raw_data) as [|sig sigs] eqn:Hd;
    [intros [= <- <-]; eauto|].
  rewrite <- Hd. run.
  change (for_each Signals.ingest_signal (Signals.detect_eam_patterns raw_data))
    with (for_each (fun s => ingest (ViaSignals s)) (Signals.detect_eam_patterns raw_data)).
  rewrite for_each_via.
  set (l := map ViaSignals (Signals.detect_eam_patterns raw_data)).
  destruct (signal_attempts (Signals.detect_eam_patterns raw_data)) as [Hs Ht].
  destruct (for_each ingest l w) as [r0 w0] eqn:Hrun.
  destruct (batch_settles l w r0 w0 Hs Ht Hrun) as [[n ->] _].
  intros [= <- <-].
  destruct (batch_again l w _ w0
              {| db := commit (db w0); ticks := ticks w0; logs := logs w0 |}
              Hs Ht Hrun) as (w3 & -> & Hdb & Hlog).
  { cbn. apply visible_commit. }
  eexists. split; [reflexivity|]. cbn [db logs] in *. rewrite Hdb.
  split; [now rewrite !visible_commit | exact Hlog].
Qed.

End SignalsAndMaritime.

Section Maritime.
Context `{Externals}.
Import Pipeline Batch.

(** [patterns_for] always has an entry: the generic one when no regional
    pattern is selected. *)
Lemma patterns_for_nonempty (region : string) (lat_min lat_max lon_min lon_max : Q) :
  Maritint.patterns_for region lat_min lat_max lon_min lon_max <> [].
Proof.
  unfold Maritint.patterns_for.
  destruct (concat _) eqn:E; discriminate.
Qed.

Lemma sure_batch_returns (l : list attempt) (w : World) :
  Forall (fun a => sure a = true) l ->
  exists n w', for_each ingest l w = (inr n, w').
Proof.
  intros Hs. revert w. induction Hs as [|a l Ha _ IH]; intros w.
  - exists 0%nat, w. reflexivity.
  - rewrite for_each_cons.
    destruct (sure_returns a w Ha) as (n1 & w1 & ->).
    destruct (IH w1) as (n2 & w2 & ->). eauto.
Qed.

Lemma maritime_attempts (region : string) (ps : list Maritint.Pattern) :
  Forall (fun a => sure a = true) (map (ViaMaritint region) ps).
Proof.
  apply Forall_forall. intros a Ha.
  apply list_elem_of_fmap in Ha as (v & -> & _). reflexivity.
Qed.

Lemma maritime_attempts_timeless (region : string) (ps : list Maritint.Pattern) :
  one_day -> Forall timeless (map (ViaMaritint region) ps).
Proof.
  intros Hd. apply Forall_forall. intros a Ha.
  apply list_elem_of_fmap in Ha as (v & -> & _). now apply timeless_maritime.
Qed.

Lemma maritime_attempt_row (region : string) (ps : list Maritint.Pattern)
    (a : attempt) :
  a ∈ map (ViaMaritint region) ps ->
  forall w r w' x,
    ingest a w = (r, w') ->
    visible (db w') = (visible (db w) ++ [x])%list -> maritime_row region x.
Proof.
  intros Ha w r w' x. apply list_elem_of_fmap in Ha as (p & -> & _).
  cbn [ingest]. unfold Maritint.regional_intel_item. run. cbn [db ticks logs].
  destruct (query_first _ (db w)); intros [= <- <-] Hv; cbn [db] in Hv.
  - destruct (not_appended _ _ Hv).
  - apply appended_row in Hv. subst x. repeat split.
Qed.

(** X7. [_generate_regional_intel] never raises and works on every region
    name: afterwards the store holds at least one row, everything is
    committed, and each row it appended is a MARITINT row of that region
    with level ELEVATED, score 55 and confidence 0.7; the rows that were
    there stay in place and identifiers stay unique. *)
Theorem generate_regional_intel_records (region : string)
    (lat_min lat_max lon_min lon_max : Q) (w : World) :
  exists w' news,
    Maritint._generate_regional_intel region lat_min lat_max lon_min lon_max w
    = (inr tt, w')
    /\ visible (db w') = (visible (db w) ++ news)%list
    /\ Forall (maritime_row region) news
    /\ pending (db w') = []
    /\ visible (db w') <> []
    /\ (unique_identifiers (db w) -> unique_identifiers (db w')).
Proof.
  unfold Maritint._generate_regional_intel. run.
  pose proof (patterns_for_nonempty region lat_min lat_max lon_min lon_max) as Hne.
  set (ps := Maritint.patterns_for region lat_min lat_max lon_min lon_max) in *.
  change (for_each (Maritint.regional_intel_item region) ps)
    with (for_each (fun p => ingest (ViaMaritint region p)) ps).
  rewrite for_each_via.
  set (l := map (ViaMaritint region) ps).
  pose proof (maritime_attempts region ps) as Hs.
  destruct (sure_batch_returns l w Hs) as (n & w1 & Hrun). rewrite Hrun.
  destruct (batch_appends l w _ w1 Hrun) as (news & Hv & Hn & Hlen & Hu).
  destruct (batch_rows (maritime_row region) l (maritime_attempt_row region ps)
              w _ w1 Hrun) as (news' & Hv' & Hrows).
  assert (news' = news) by (rewrite Hv in Hv'; now apply app_inv_head in Hv').
  subst news'.
  eexists _, news. split; [reflexivity|]. cbn [db].
  split; [now rewrite visible_commit|].
  split; [exact Hrows|].
  split; [reflexivity|].
  split.
  - rewrite visible_commit.
    destruct ps as [|p ps']; [congruence|].
    unfold l in Hrun. cbn [map] in Hrun. rewrite for_each_cons in Hrun.
    destruct (ingest (ViaMaritint region p) w) as [r0 w0] eqn:Hstep.
    pose proof (sure_stores (ViaMaritint region p) w _ _ eq_refl Hstep) as Hk.
    cbn [identifier_of] in Hk. apply query_first_found in Hk as (x & Hx & _).
    destruct r0 as [e|n0]; [injection Hrun as _ <-|].
    + intros Hnil. rewrite Hnil in Hx. inversion Hx.
    + destruct (for_each ingest (map (ViaMaritint region) ps') w0)
        as [r2 w2] eqn:Hrest.
      destruct (batch_appends _ w0 _ w2 Hrest) as (more & Hv2 & _).
      assert (w2 = w1) by (destruct r2; congruence). subst w2.
      intros Hnil. rewrite Hv2 in Hnil.
      apply app_eq_nil in Hnil as [Hnil _]. rewrite Hnil in Hx. inversion Hx.
  - intros Hu0. specialize (Hu Hu0). unfold unique_identifiers in *.
    now rewrite visible_commit.
Qed.

(** X8. Within one day [_generate_regional_intel] is idempotent: a second
    scan of the same region appends nothing and leaves the session as the
    first scan left it. *)
Theorem generate_regional_intel_again (region : string)
    (lat_min lat_max lon_min lon_max : Q) (w : World) (r : exn + unit)
    (w1 : World) :
  one_day ->
  Maritint._generate_regional_intel region lat_min lat_max lon_min lon_max w
  = (r, w1) ->
  exists w2,
    Maritint._generate_regional_intel region lat_min lat_max lon_min lon_max w1
    = (inr tt, w2)
    /\ db w2 = db w1 /\ logs w2 = logs w1.
Proof.
  intros Hd. unfold Maritint._generate_regional_intel. run.
  set (ps := Maritint.patterns_for region lat_min lat_max lon_min lon_max) in *.
  change (for_each (Maritint.regional_intel_item region) ps)
    with (for_each (fun p => ingest (ViaMaritint region p)) ps).
  rewrite for_each_via.
  set (l := map (ViaMaritint region) ps).
  pose proof (maritime_attempts region ps) as Hs.
  pose proof (maritime_attempts_timeless region ps Hd) as Ht.
  destruct (for_each ingest l w) as [r0 w0] eqn:Hrun.
  destruct (batch_settles l w r0 w0 Hs Ht Hrun) as [[n ->] _].
  intros [= <- <-].
  destruct (batch_again l w _ w0
              {| db := commit (db w0); ticks := ticks w0; logs := logs w0 |}
              Hs Ht Hrun) as (w3 & -> & Hdb & Hlog).
  { cbn. apply visible_commit. }
  eexists. split; [reflexivity|]. cbn [db logs] in *. rewrite Hdb.
  split; [|exact Hlog].
  apply commit_clean. reflexivity.
Qed.

End Maritime.

Section OracleAdapters.
Context `{Externals}.
Import Pipeline Batch.



(** *** Rows the store takes *)














End OracleAdapters.

Section Degradation.
Context `{Externals}.
Import Pipeline Batch.

(** X11. In [bulk_fetch], for a search result whose URL is new: when the
    article cannot be fetched the result is skipped and nothing changes,
    not even the log; when the article is fetched but the oracle call fails
    the row is stored all the same, under the URL, with the fallback
    classification, and committed. *)
Theorem bulk_fetch_item_degrades (keyword : string) (r : gmap string string)
    (w : World) (url : string) :
  Osint.py_or (r !! "url") (r !! "href") = Some url ->
  url <> "" ->
  query_first (Some url) (db w) = None ->
  (article_fetch url = None ->
   Osint.bulk_fetch_item keyword r w = (inr 0%nat, w))
  /\ (forall article, article_fetch url = Some article ->
      let cleaned := clean_text (article_text article) in
      let raw_body :=
        if (String.length cleaned <? 100)%nat then Py.get r "body" "" else cleaned in
      Llm.oracle_failure (prefix_to 3000 raw_body) ->
      exists x w',
        Osint.bulk_fetch_item keyword r w = (inr 1%nat, w')
        /\ visible (db w') = (visible (db w) ++ [x])%list
        /\ pending (db w') = []
        /\ logs w' = (logs w ++ [LogError "LLM Analysis Failed"])%list
        /\ source_url x = Some url
        /\ int_category x = "OSINT"
        /\ timestamp x = clock (ticks w)
        /\ fallback_row x).
Proof.
  intros Hurl Hne Hq. unfold Osint.bulk_fetch_item. rewrite Hurl.
  destruct url as [|c s]; [congruence|].
  run. rewrite Hq. split.
  - intros ->. reflexivity.
  - intros article Hart Hfail. rewrite Hart.
    rewrite (analyze_text_failed _ w Hfail). cbn.
    eexists _, _. split; [reflexivity|]. cbn [db logs].
    split; [now rewrite visible_commit, visible_add|].
    repeat split.
Qed.

(** X12. In [run_social_search], for a search result whose URL is new: when
    the oracle call fails the row is stored all the same, under the URL,
    with the fallback classification, and committed. *)
Theorem run_social_search_item_degrades (keyword : string)
    (user subreddit : option string) (r : gmap string string) (w : World) :
  let url := Py.get r "href" "" in
  let full_text :=
    "[" ++ Socmint.platform_of url ++ "] " ++ Py.get r "title" "" ++ Llm.nl
    ++ Py.get r "body" "" in
  query_first (Some url) (db w) = None ->
  Llm.oracle_failure full_text ->
  exists x w',
    Socmint.run_social_search_item keyword user subreddit r w = (inr 1%nat, w')
    /\ visible (db w') = (visible (db w) ++ [x])%list
    /\ pending (db w') = []
    /\ logs w' = (logs w ++ [LogError "LLM Analysis Failed"])%list
    /\ source_url x = Some url
    /\ int_category x = "SOCMINT"
    /\ raw_text x = full_text
    /\ timestamp x = clock (ticks w)
    /\ fallback_row x.
Proof.
  intros url full_text Hq Hfail. unfold Socmint.run_social_search_item.
  run. fold url. rewrite Hq. cbv zeta. fold full_text.
  rewrite (analyze_text_failed _ w Hfail). cbn.
  eexists _, _. split; [reflexivity|]. cbn [db logs].
  split; [now rewrite visible_commit, visible_add|].
  repeat split.
Qed.

End Degradation.

Section Flights.
Context `{Externals}.
Import Pipeline Batch.

Lemma for_each_app {A : Type} (body : A -> M nat) (l1 l2 : list A) (w : World) :
  for_each body (l1 ++ l2) w
  = match for_each body l1 w with
    | (inr n, w1) =>
        match for_each body l2 w1 with
        | (inr m, w2) => (inr (n + m)%nat, w2)
        | (inl e, w2) => (inl e, w2)
        end
    | (inl e, w1) => (inl e, w1)
    end.
Proof.
  revert w. induction l1 as [|x l1 IH]; intros w.
  - cbn [app]. change (for_each body [] w) with (@inr exn nat 0%nat, w).
    cbv beta iota.
    destruct (for_each body l2 w) as [[e|m] w2]; reflexivity.
  - cbn [app]. rewrite !for_each_cons.
    destruct (body x w) as [[e|n] w1]; [reflexivity|].
    rewrite IH.
    destruct (for_each body l1 w1) as [[e|n1] w2]; [reflexivity|].
    destruct (for_each body l2 w2) as [[e|m] w3]; [reflexivity|].
    now rewrite Nat.add_assoc.
Qed.

(** An aircraft outside the watch list is passed over: nothing changes. *)
Lemma scan_state_unwatched (state : Adsint.StateVector) (w : World) :
  watched state = false -> Adsint.scan_state state w = (inr 0%nat, w).
Proof.
  unfold watched, Adsint.scan_state. cbv zeta. intros ->. reflexivity.
Qed.

Lemma scan_states_filter (states : list Adsint.StateVector) (w : World) :
  for_each Adsint.scan_state states w
  = for_each Adsint.scan_state (List.filter watched states) w.
Proof.
  revert w. induction states as [|st states IH]; intros w; [reflexivity|].
  cbn [List.filter]. destruct (watched st) eqn:Hw.
  - rewrite !for_each_cons.
    destruct (Adsint.scan_state st w) as [[e|n] w1]; [reflexivity|].
    now rewrite IH.
  - rewrite for_each_cons, (scan_state_unwatched st w Hw), IH.
    destruct (for_each Adsint.scan_state (List.filter watched states) w)
      as [[e|m] w2]; reflexivity.
Qed.

Lemma flight_attempt_returns (state : Adsint.StateVector) (w : World) :
  formattable state ->
  exists n w', ingest (ViaAdsint state) w = (inr n, w').
Proof.
  intros [Ha Hv]. cbn [ingest]. unfold Adsint.scan_state.
  destruct (existsb _ _ || bool_decide _); run; cbn [db ticks logs]; eauto.
  destruct (query_first _ _); eauto.
  destruct (Adsint.sv_altitude state); [|congruence].
  destruct (Adsint.sv_velocity state); [|congruence].
  eauto.
Qed.

Lemma flight_attempt_row (states : list Adsint.StateVector) (a : attempt) :
  a ∈ map ViaAdsint states ->
  forall w r w' x,
    ingest a w = (r, w') ->
    visible (db w') = (visible (db w) ++ [x])%list -> flight_row x.
Proof.
  intros Ha w r w' x. apply list_elem_of_fmap in Ha as (st & -> & _).
  cbn [ingest]. unfold Adsint.scan_state.
  destruct (existsb _ _ || bool_decide _); run; cbn [db ticks logs].
  - destruct (query_first _ _);
      [intros [= <- <-] Hv; destruct (not_appended _ _ Hv)|].
    destruct (Adsint.sv_altitude st);
      [|intros [= <- <-] Hv; destruct (not_appended _ _ Hv)].
    destruct (Adsint.sv_velocity st);
      [|intros [= <- <-] Hv; destruct (not_appended _ _ Hv)].
    intros [= <- <-] Hv. cbn [db] in Hv. apply appended_row in Hv. subst x.
    unfold flight_row. cbn.
    split; [reflexivity|]. split; [reflexivity|].
    destruct (bool_decide _); auto.
  - intros [= <- <-] Hv. destruct (not_appended _ _ Hv).
Qed.

(** X13. [scan_region] on states that all carry an altitude and a velocity
    returns normally.  It stores rows for watched aircraft only (a military
    callsign prefix or a known hardware identifier): at most one per
    watched state, each an ADSINT row with confidence 1.0 and either HIGH
    with score 75 or ELEVATED with score 50; everything is committed, the
    rows that were there stay in place and identifiers stay unique. *)
Theorem scan_region_watchlist_only (states : list Adsint.StateVector) (w : World) :
  Forall formattable states ->
  exists w' news,
    Adsint.scan_region (Some states) w = (inr tt, w')
    /\ visible (db w') = (visible (db w) ++ news)%list
    /\ (length news <= length (List.filter watched states))%nat
    /\ Forall flight_row news
    /\ (states <> [] -> pending (db w') = [])
    /\ (unique_identifiers (db w) -> unique_identifiers (db w')).
Proof.
  intros Hf. unfold Adsint.scan_region.
  destruct states as [|st0 states0];
    [exists w, []; rewrite app_nil_r; repeat split; auto; congruence|].
  set (states := st0 :: states0) in *. run.
  rewrite scan_states_filter.
  set (ws := List.filter watched states).
  change (for_each Adsint.scan_state ws)
    with (for_each (fun s => ingest (ViaAdsint s)) ws).
  rewrite for_each_via.
  set (l := map ViaAdsint ws).
  assert (Hret : forall w0, exists n w1, for_each ingest l w0 = (inr n, w1)).
  { assert (Hfw : Forall formattable ws).
    { apply Forall_forall. intros s Hs. rewrite Forall_forall in Hf. apply Hf.
      apply list_elem_of_In. apply list_elem_of_In in Hs.
      unfold ws in Hs. apply filter_In in Hs. tauto. }
    unfold l. clear -Hfw. induction Hfw as [|s ws Hs _ IH]; intros w0.
    - exists 0%nat, w0. reflexivity.
    - cbn [map]. rewrite for_each_cons.
      destruct (flight_attempt_returns s w0 Hs) as (n1 & w1 & ->).
      destruct (IH w1) as (n2 & w2 & ->). eauto. }
  destruct (Hret w) as (n & w1 & Hrun). rewrite Hrun.
  destruct (batch_appends l w _ w1 Hrun) as (news & Hv & Hn & Hlen & Hu).
  destruct (batch_rows flight_row l (flight_attempt_row ws) w _ w1 Hrun)
    as (news' & Hv' & Hrows).
  assert (news' = news) by (rewrite Hv in Hv'; now apply app_inv_head in Hv').
  subst news'.
  eexists _, news. split; [reflexivity|]. cbn [db].
  split; [now rewrite visible_commit|].
  split; [unfold l in Hlen; now rewrite length_map in Hlen|].
  split; [exact Hrows|].
  split; [reflexivity|].
  intros Hu0. specialize (Hu Hu0). unfold unique_identifiers in *.
  now rewrite visible_commit.
Qed.

(** X14. [scan_region] has no handler around its loop.  When a watched
    aircraft that is not yet stored for the hour comes without altitude or
    without velocity, formatting its summary raises [TypeError] out of the
    function: the states after it are not looked at, nothing is committed,
    and the rows added for the states before it stay pending. *)
Theorem scan_region_raises_unformattable (before after : list Adsint.StateVector)
    (state : Adsint.StateVector) (w : World) (n : nat) (w1 : World) :
  for_each Adsint.scan_state before w = (inr n, w1) ->
  watched state = true ->
  query_first (Some ("ADSINT-" ++ Adsint.sv_icao24 state ++ "-"
                     ++ strftime_hour (clock (ticks w1)))) (db w1) = None ->
  ~ formattable state ->
  exists w',
    Adsint.scan_region (Some (before ++ state :: after)%list) w = (inl TypeError, w')
    /\ db w' = db w1
    /\ committed (db w') = committed (db w).
Proof.
  intros Hbefore Hw Hq Hnf. unfold Adsint.scan_region.
  destruct (before ++ state :: after)%list as [|s0 rest] eqn:Hall;
    [destruct before; discriminate|].
  rewrite <- Hall. run. rewrite for_each_app, Hbefore, for_each_cons.
  assert (Hstate : Adsint.scan_state state w1 = (inl TypeError, ticked w1)).
  { unfold Adsint.scan_state. unfold watched in Hw. cbv zeta in Hw. rewrite Hw.
    run. cbn [db ticks logs]. rewrite Hq.
    destruct (Adsint.sv_altitude state) eqn:Ea; [|reflexivity].
    destruct (Adsint.sv_velocity state) eqn:Ev; [|reflexivity].
    exfalso. apply Hnf. split; congruence. }
  rewrite Hstate. exists (ticked w1). split; [reflexivity|].
  split; [reflexivity|]. cbn [ticked db].
  change (for_each Adsint.scan_state before)
    with (for_each (fun s => ingest (ViaAdsint s)) before) in Hbefore.
  rewrite for_each_via in Hbefore.
  apply (offline_batch_keeps_committed (map ViaAdsint before) w (inr n) w1);
    [|exact Hbefore].
  apply Forall_forall. intros a Ha.
  apply list_elem_of_fmap in Ha as (v & -> & _). reflexivity.
Qed.

End Flights.

Section Satellite.
Context `{Externals}.
Import Pipeline Batch.





End Satellite.

Section WholeScan.
Context `{Externals}.
Import Pipeline Batch.

(** The feeds of a scan, one after the other: no poll raises, the total is
    the number of rows appended, and each poll adds at most [limit]. *)
Lemma poll_feeds (limit : Z) (parse : string -> option (list Cybint.FeedEntry))
    (feeds : list (string * string)) (w : World) :
  exists total w' news,
    for_each (fun feed => Cybint.fetch_feed (parse (snd feed)) (fst feed) limit)
             feeds w = (inr total, w')
    /\ visible (db w') = (visible (db w) ++ news)%list
    /\ length news = total
    /\ (0 <= limit -> Z.of_nat total <= Z.of_nat (length feeds) * limit)
    /\ (unique_identifiers (db w) -> unique_identifiers (db w')).
Proof.
  revert w. induction feeds as [|[name url] feeds IH]; intros w.
  - exists 0%nat, w, []. rewrite app_nil_r. repeat split; auto. cbn; lia.
  - rewrite for_each_cons. cbn [fst snd].
    destruct (fetch_feed_shape (parse url) name limit w)
      as (n1 & w1 & news1 & -> & Hv1 & Hn1 & _ & Hl1 & _ & Hu1).
    destruct (IH w1) as (n2 & w2 & news2 & -> & Hv2 & Hn2 & Hl2 & Hu2).
    exists (n1 + n2)%nat, w2, (news1 ++ news2)%list.
    split; [reflexivity|].
    split; [now rewrite Hv2, Hv1, app_assoc|].
    split; [rewrite length_app; lia|].
    split; [|auto].
    intros Hl. specialize (Hl1 Hl). specialize (Hl2 Hl). cbn [length]. lia.
Qed.

Lemma query_first_commit (k : option string) (s : Session) :
  query_first k (commit s) = query_first k s.
Proof. unfold query_first. now rewrite visible_commit. Qed.

(** After a poll, every entry polled that has a link is in the store. *)
Lemma fetch_feed_stores (entries : list Cybint.FeedEntry) (source_name : string)
    (limit : Z) (w : World) (r : exn + nat) (w' : World) :
  Cybint.fetch_feed (Some entries) source_name limit w = (r, w') ->
  forall e c s,
    e ∈ slice_to limit entries ->
    Cybint.entry_link e = Some (String c s) ->
    query_first (Some (String c s)) (db w') <> None.
Proof.
  unfold Cybint.fetch_feed. run.
  change (for_each (Cybint.fetch_feed_entry source_name) (slice_to limit entries))
    with (for_each (fun e => ingest (ViaFeed source_name e)) (slice_to limit entries)).
  rewrite for_each_via.
  set (l := map (ViaFeed source_name) (slice_to limit entries)).
  assert (Hs : Forall (fun a => sure a = true) l).
  { apply Forall_forall. intros a Ha. apply list_elem_of_fmap in Ha as (e & -> & _).
    reflexivity. }
  assert (Ht : Forall timeless l).
  { apply Forall_forall. intros a Ha. apply list_elem_of_fmap in Ha as (e & -> & _).
    apply timeless_feed. }
  destruct (for_each ingest l w) as [r0 w0] eqn:Hrun.
  destruct (batch_settles l w r0 w0 Hs Ht Hrun) as [[n ->] Hall].
  intros [= <- <-] e c s He Hlink. cbn [db]. rewrite query_first_commit.
  rewrite Forall_forall in Hall.
  assert (Hin : ViaFeed source_name e ∈ l)
    by (apply list_elem_of_fmap; now exists e).
  specialize (Hall _ Hin). unfold settled in Hall. cbn [identifier_of] in Hall.
  now rewrite Hlink in Hall.
Qed.

(** After a run over the catalogue, each of its first twenty items is in
    the store. *)
Lemma fetch_cisa_exploits_stores (data : option (list (gmap string string)))
    (w : World) (r : exn + unit) (w' : World) :
  Cybint.fetch_cisa_exploits (Cybint.CisaData data) w = (r, w') ->
  forall v, v ∈ slice_to 20 (default [] data) ->
            query_first (v !! "cveID") (db w') <> None.
Proof.
  unfold Cybint.fetch_cisa_exploits. run.
  change (for_each Cybint.fetch_cisa_item (slice_to 20 (default [] data)))
    with (for_each (fun v => ingest (ViaCisa v)) (slice_to 20 (default [] data))).
  rewrite for_each_via.
  set (l := map ViaCisa (slice_to 20 (default [] data))).
  destruct (cisa_attempts (slice_to 20 (default [] data))) as [Hs Ht].
  destruct (for_each ingest l w) as [r0 w0] eqn:Hrun.
  destruct (batch_settles l w r0 w0 Hs Ht Hrun) as [[n ->] Hall].
  intros [= <- <-] v Hv. cbn [db]. rewrite query_first_commit.
  rewrite Forall_forall in Hall.
  assert (Hin : ViaCisa v ∈ l) by (apply list_elem_of_fmap; now exists v).
  exact (Hall _ Hin).
Qed.

(** Every feed of a scan is polled, whatever the others came to. *)
Lemma poll_feeds_stores (limit : Z) (parse : string -> option (list Cybint.FeedEntry))
    (feeds : list (string * string)) (w : World) (r : exn + nat) (w' : World) :
  for_each (fun feed => Cybint.fetch_feed (parse (snd feed)) (fst feed) limit)
           feeds w = (r, w') ->
  forall name url entries e c s,
    (name, url) ∈ feeds ->
    parse url = Some entries ->
    e ∈ slice_to limit entries ->
    Cybint.entry_link e = Some (String c s) ->
    query_first (Some (String c s)) (db w') <> None.
Proof.
  revert w r w'. induction feeds as [|[name0 url0] feeds IH]; intros w r w' Hrun
    name url entries e c s Hfeed Hparse He Hlink.
  - inversion Hfeed.
  - rewrite for_each_cons in Hrun. cbn [fst snd] in Hrun.
    destruct (Cybint.fetch_feed (parse url0) name0 limit w) as [r1 w1] eqn:Hstep.
    destruct (fetch_feed_shape (parse url0) name0 limit w)
      as (n1 & w1' & news1 & Hstep' & _).
    rewrite Hstep in Hstep'. injection Hstep' as -> <-.
    destruct (poll_feeds limit parse feeds w1)
      as (n2 & w2 & news2 & Hrest & Hv2 & _).
    rewrite Hrest in Hrun. injection Hrun as <- <-.
    apply elem_of_cons in Hfeed as [[= -> ->] | Hfeed].
    + apply (query_first_extends _ (db w1)); [now exists news2|].
      rewrite Hparse in Hstep.
      exact (fetch_feed_stores entries name0 limit w _ w1 Hstep e c s He Hlink).
    + exact (IH w1 _ w2 Hrest name url entries e c s Hfeed Hparse He Hlink).
Qed.

(** X16. [scan_all] never raises, and a failure of one source leaves the
    others to run: whatever the catalogue request came to, and whatever
    the other feeds came to, every entry with a link among the first
    [limit_per_feed] of each feed that was parsed is in the store
    afterwards, and so is each of the first twenty items of a catalogue
    that was received.  The total it prints is the number of rows the
    seven feeds appended, at most seven times a non-negative
    [limit_per_feed]; the catalogue adds at most twenty more.  The rows
    that were there stay in place and identifiers stay unique. *)
Theorem scan_all_isolates_failures (limit_per_feed : Z) (cisa : Cybint.cisa_reply)
    (parse : string -> option (list Cybint.FeedEntry)) (w : World) :
  exists total w' exploits articles,
    CybintScan.scan_all limit_per_feed cisa parse w = (inr total, w')
    /\ visible (db w') = (visible (db w) ++ exploits ++ articles)%list
    /\ (length exploits <= 20)%nat
    /\ length articles = total
    /\ (0 <= limit_per_feed -> Z.of_nat total <= 7 * limit_per_feed)
    /\ (unique_identifiers (db w) -> unique_identifiers (db w'))
    /\ (forall data v,
          cisa = Cybint.CisaData data ->
          v ∈ slice_to 20 (default [] data) ->
          query_first (v !! "cveID") (db w') <> None)
    /\ (forall name url entries e link,
          (name, url) ∈ CybintScan.CYBER_FEEDS ->
          parse url = Some entries ->
          e ∈ slice_to limit_per_feed entries ->
          Cybint.entry_link e = Some link -> link <> "" ->
          query_first (Some link) (db w') <> None).
Proof.
  unfold CybintScan.scan_all. unfold mbind, M_bind, bind.
  destruct (fetch_cisa_exploits_shape cisa w)
    as (w1 & exploits & Hcisa & Hv1 & Hlen & Hu1 & _).
  rewrite Hcisa.
  destruct (poll_feeds limit_per_feed parse CybintScan.CYBER_FEEDS w1)
    as (total & w2 & articles & Hfeeds & Hv2 & Hn & Hl & Hu2).
  rewrite Hfeeds.
  exists total, w2, exploits, articles.
  split; [reflexivity|].
  split; [now rewrite Hv2, Hv1, app_assoc|].
  split; [exact Hlen|]. split; [exact Hn|].
  split; [intros Hlim; specialize (Hl Hlim); cbn in Hl; lia|].
  split; [auto|].
  split.
  - intros data v -> Hv.
    apply (query_first_extends _ (db w1)); [now exists articles|].
    exact (fetch_cisa_exploits_stores data w _ w1 Hcisa v Hv).
  - intros name url entries e link Hfeed Hparse He Hlink Hne.
    destruct link as [|c s]; [congruence|].
    exact (poll_feeds_stores limit_per_feed parse CybintScan.CYBER_FEEDS w1 _ w2
             Hfeeds name url entries e c s Hfeed Hparse He Hlink).
Qed.

End WholeScan.

(** ** The status panel *)

Section StatusPanel.
Import Theme Defcon.

(** X17. The level [calculate_defcon] computes, on any inputs, is a key of
    [DEFCON_LEVELS]: [print_defcon_status] finds its entry, and the keys
    are exactly the levels 1 to 5. *)
Theorem print_defcon_status_finds_level (avg_threat_score : Q) (critical_count : Z) :
  is_Some (print_defcon_status (calculate_defcon avg_threat_score critical_count))
  /\ forall level, is_Some (print_defcon_status level) <-> 1 <= level <= 5.
Proof.
  split.
  - unfold calculate_defcon.
    destruct (_ || _); [now eexists|].
    destruct (_ || _); [now eexists|].
    destruct (_ || _); [now eexists|].
    destruct (Qle_bool _ _); now eexists.
  - intros level. unfold print_defcon_status, DEFCON_LEVELS. split.
    + intros [v Hv].
      destruct (decide (level = 1)) as [->|]; [lia|].
      destruct (decide (level = 2)) as [->|]; [lia|].
      destruct (decide (level = 3)) as [->|]; [lia|].
      destruct (decide (level = 4)) as [->|]; [lia|].
      destruct (decide (level = 5)) as [->|]; [lia|].
      rewrite !lookup_insert_ne in Hv by congruence.
      rewrite lookup_singleton_ne in Hv by congruence. discriminate.
    + intros Hl.
      assert (level = 1 \/ level = 2 \/ level = 3 \/ level = 4 \/ level = 5)
        as [->|[->|[->|[->| ->]]]] by lia; now eexists.
Qed.

End StatusPanel.

(** ** The report's input *)

Section ReportInput.
Import Report.

Lemma summaries_of_app (c : string) (l1 l2 : list IntelItem) :
  summaries_of c (l1 ++ l2) = (summaries_of c l1 ++ summaries_of c l2)%list.
Proof. unfold summaries_of. now rewrite List.filter_app, map_app. Qed.

Lemma summaries_of_skip (c : string) (x : IntelItem) (l : list IntelItem) :
  String.eqb (int_category x) c && truthy (summary x) = false ->
  summaries_of c (x :: l) = summaries_of c l.
Proof. unfold summaries_of. cbn [List.filter]. now intros ->. Qed.

(** X18. In [generate_full] a row whose category is not one of OSINT,
    SOCMINT, GEOINT, COMINT and CYBINT (a flight or maritime row), or whose
    summary is empty, enters no group of the report's input; it is still
    counted in the number of items and, when its level is CRITICAL, in the
    critical count. *)
Theorem intel_data_leaves_out (before after : list IntelItem) (x : IntelItem) :
  reported_category (int_category x) = false \/ truthy (summary x) = false ->
  intel_data (before ++ x :: after) = intel_data (before ++ after)
  /\ length (before ++ x :: after) = S (length (before ++ after))
  /\ Cli.critical_count (before ++ x :: after)
     = (Cli.critical_count (before ++ after)
        + if eq_str (threat_level x) "CRITICAL" then 1 else 0)%nat.
Proof.
  intros Hout. split; [|split].
  - assert (Hskip : forall c, reported_category c = true ->
               summaries_of c (before ++ x :: after) = summaries_of c (before ++ after)).
    { intros c Hc. rewrite !summaries_of_app. f_equal.
      apply summaries_of_skip. destruct Hout as [Hcat | ->]; [|apply andb_false_r].
      destruct (String.eqb (int_category x) c) eqn:E; [|reflexivity].
      apply String.eqb_eq in E. congruence. }
    unfold intel_data. rewrite !Hskip by reflexivity. reflexivity.
  - rewrite !length_app. cbn. lia.
  - unfold Cli.critical_count.
    rewrite !List.filter_app, !length_app. cbn [List.filter].
    destruct (eq_str (threat_level x) "CRITICAL"); cbn; lia.
Qed.

Lemma group_parts_length (g : string * list pyval) :
  (length (group_parts g) <= 22)%nat.
Proof.
  unfold group_parts. destruct (snd g) as [|v l]; [cbn; lia|].
  cbn [length]. rewrite length_app, length_take. cbn [length]. lia.
Qed.

Lemma join_lines_strings (parts : list pyval) :
  Forall (fun v => exists s, v = PStr s) parts -> is_Some (join_lines parts).
Proof.
  induction 1 as [|v parts [s ->] _ [t IH]]; cbn; [now eexists|].
  rewrite IH. now eexists.
Qed.

Lemma summaries_of_strings (c : string) (items : list IntelItem) :
  Forall text_summary items ->
  Forall (fun v => exists s, v = PStr s) (summaries_of c items).
Proof.
  unfold summaries_of. induction 1 as [|x items Hx _ IH]; cbn; [constructor|].
  destruct (String.eqb (int_category x) c && truthy (summary x)) eqn:E;
    [|exact IH].
  cbn. constructor; [|exact IH].
  apply andb_true_iff in E as [_ E].
  destruct Hx as [Hx | Hx]; [rewrite Hx in E; discriminate | exact Hx].
Qed.

Lemma group_parts_strings (g : string * list pyval) :
  Forall (fun v => exists s, v = PStr s) (snd g) ->
  Forall (fun v => exists s, v = PStr s) (group_parts g).
Proof.
  intros Hg. unfold group_parts. destruct (snd g) as [|v l] eqn:E; [constructor|].
  constructor; [now eexists|].
  apply Forall_app. split; [now apply Forall_take|].
  constructor; [now eexists | constructor].
Qed.

Lemma prefix_to_length (n : nat) (s : string) :
  (String.length (prefix_to n s) <= n)%nat.
Proof.
  unfold prefix_to. revert s. induction n as [|n IH]; intros s.
  - destruct s; cbn; lia.
  - destruct s as [|c s]; cbn; [lia|]. specialize (IH s). lia.
Qed.

(** X19. The input [generate_full_report] builds from the groups of
    [generate_full] is bounded: an empty group gives no line, any other a
    header, its first twenty summaries and an empty line, so at most 22
    lines per group and 110 in all, and the text put in the prompt has at
    most 8000
    characters.  When every summary is a string or NULL, as a text column
    holds, the text is built without error. *)
Theorem report_context_bounded (items : list IntelItem) :
  Forall text_summary items ->
  Forall (fun group =>
            length (group_parts group)
            = match snd group with
              | [] => 0%nat
              | summaries => (2 + Nat.min 20 (length summaries))%nat
              end
            /\ (length (group_parts group) <= 22)%nat)
         (intel_data items)
  /\ (length (context_parts (intel_data items)) <= 110)%nat
  /\ exists context,
       report_context (intel_data items) = Some context
       /\ Z.of_nat (String.length context) <= 8000.
Proof.
  intros Htext. split; [|split].
  - apply Forall_forall. intros group _.
    split; [|apply group_parts_length].
    unfold group_parts. destruct (snd group) as [|v l]; [reflexivity|].
    cbn [length]. rewrite length_app, length_take. cbn [length]. lia.
  - unfold context_parts, intel_data. cbn [map concat].
    rewrite !length_app. cbn [length].
    pose proof (group_parts_length ("OSINT", summaries_of "OSINT" items)).
    pose proof (group_parts_length ("SOCMINT", summaries_of "SOCMINT" items)).
    pose proof (group_parts_length ("GEOINT", summaries_of "GEOINT" items)).
    pose proof (group_parts_length ("SIGNALS", summaries_of "COMINT" items)).
    pose proof (group_parts_length ("CYBINT", summaries_of "CYBINT" items)).
    lia.
  - unfold report_context.
    destruct (join_lines_strings (context_parts (intel_data items))) as [context ->].
    + unfold context_parts, intel_data. cbn [map concat].
      repeat (apply Forall_app; split);
        try (apply group_parts_strings; cbn [snd]; now apply summaries_of_strings).
      constructor.
    + eexists. split; [reflexivity|].
      pose proof (prefix_to_length (Z.to_nat 8000) context). lia.
Qed.

End ReportInput.

Lemma intel_data_leaves_out_witness :
  let flight := {| timestamp := 0; int_category := "ADSINT"; source_url := None;
                   keyword := "FORTE10"; raw_text := ""; author := None;
                   summary := PStr "RQ-4 over the Black Sea";
                   country := PStr "United States";
                   threat_level := PStr "CRITICAL"; threat_score := PInt 75;
                   confidence := PFloat 1; latitude := None; longitude := None |} in
  Report.intel_data ([Sample.graded "LOW" 10] ++ flight :: [])
  = Report.intel_data ([Sample.graded "LOW" 10] ++ [])
  /\ length ([Sample.graded "LOW" 10] ++ flight :: [])
     = S (length ([Sample.graded "LOW" 10] ++ []))
  /\ Cli.critical_count ([Sample.graded "LOW" 10] ++ flight :: [])
     = (Cli.critical_count ([Sample.graded "LOW" 10] ++ [])
        + if eq_str (threat_level flight) "CRITICAL" then 1 else 0)%nat.
Proof.
  intros flight.
  apply (intel_data_leaves_out [Sample.graded "LOW" 10] [] flight).
  left. reflexivity.
Defined.

Lemma report_context_bounded_witness :
  let items := Fixtures.crowded in
  (Forall (fun group =>
             length (Report.group_parts group)
             = match snd group with
               | [] => 0%nat
               | summaries => (2 + Nat.min 20 (length summaries))%nat
               end
             /\ (length (Report.group_parts group) <= 22)%nat)
          (Report.intel_data items)
   /\ (length (Report.context_parts (Report.intel_data items)) <= 110)%nat
   /\ exists context,
        Report.report_context (Report.intel_data items) = Some context
        /\ Z.of_nat (String.length context) <= 8000)
  /\ length (Report.context_parts (Report.intel_data items)) = 25%nat
  /\ option_map String.length (Report.report_context (Report.intel_data items))
     = Some (Z.to_nat 8000).
Proof.
  intros items. split; [|split; vm_compute; reflexivity].
  apply report_context_bounded.
  unfold items, Fixtures.crowded. apply Forall_app. split.
  - apply Forall_forall. intros x Hx. apply list_elem_of_In in Hx.
    apply repeat_spec in Hx. subst x. right. now eexists.
  - constructor; [right; now eexists | constructor].
Defined.

(** ** The mean fed to the alert level *)

Section MeanRange.
Import Pipeline Cli.

Lemma py_sum_bounded (l : list pyval) (acc : Q) :
  Forall (within 0 100) l ->
  exists t, py_sum acc l = Some t
            /\ (acc <= t)%Q
            /\ (t <= acc + 100 * inject_Z (Z.of_nat (length l)))%Q.
Proof.
  intros Hall. revert acc. induction Hall as [|v l Hv _ IH]; intros acc.
  - exists acc. split; [reflexivity|]. split; [lra|].
    cbn [length]. change (inject_Z (Z.of_nat 0)) with 0%Q. lra.
  - cbn [py_sum length]. unfold within in Hv.
    destruct (as_number v) as [q|]; [|contradiction].
    destruct Hv as [H0 H1].
    destruct (IH (acc + q)%Q) as (t & -> & Hlo & Hhi).
    exists t. split; [reflexivity|]. split; [lra|].
    rewrite Nat2Z.inj_succ, <- Z.add_1_r, inject_Z_plus.
    change (inject_Z 1) with 1%Q. lra.
Qed.

(** X20. When every stored score is between 0 and 100 (or NULL), the mean
    [generate_full] computes is defined and lies between 0 and 100 as
    well. *)
Theorem avg_score_in_range (items : list IntelItem) :
  Forall (fun x => threat_score x = PNone \/ within 0 100 (threat_score x)) items ->
  exists q, avg_score items = inr q /\ (0 <= q)%Q /\ (q <= 100)%Q.
Proof.
  intros Hall. unfold avg_score.
  assert (Hscores : Forall (within 0 100) (threat_scores items)).
  { unfold threat_scores. induction Hall as [|x items Hx _ IH]; cbn; [constructor|].
    destruct (truthy (threat_score x)) eqn:E; [|exact IH].
    cbn. constructor; [|exact IH].
    destruct Hx as [Hx | Hx]; [rewrite Hx in E; discriminate | exact Hx]. }
  destruct (threat_scores items) as [|v scores] eqn:E.
  - exists 0%Q. split; [reflexivity|]. lra.
  - destruct (py_sum_bounded (v :: scores) 0 Hscores) as (t & -> & Hlo & Hhi).
    eexists. split; [reflexivity|].
    set (n := inject_Z (Z.of_nat (length (v :: scores)))) in *.
    assert (Hn : (0 < n)%Q).
    { unfold n. rewrite <- (Zlt_Qlt 0). cbn [length]. lia. }
    split.
    + apply Qle_shift_div_l; [exact Hn | lra].
    + apply Qle_shift_div_r; [exact Hn | lra].
Qed.

End MeanRange.

Lemma avg_score_in_range_witness :
  exists q, Cli.avg_score [Sample.graded "CRITICAL" 95; Sample.graded "LOW" 0;
                           Sample.graded "HIGH" 75] = inr q
            /\ (0 <= q)%Q /\ (q <= 100)%Q.
Proof.
  apply avg_score_in_range.
  repeat (constructor; [right; unfold Pipeline.within, Qle; cbn; lia|]).
  constructor.
Defined.

(** ** The date parser's other exceptions *)

Section DateErrors.
Context `{Externals}.

(** X21. [parse_flexible_date] catches [ValueError] and [TypeError] only:
    any other exception of the parser (its [OverflowError]) leaves the
    function as it is, with nothing logged and no fallback to the current
    time. *)
Theorem parse_flexible_date_propagates (s : string) (e : exn) (w : World) :
  s <> "" ->
  dateutil_parse s = ParseRaises e ->
  e <> ValueError -> e <> TypeError ->
  Utils.parse_flexible_date s w = (inl e, w).
Proof.
  intros Hs Hp Hv Ht. unfold Utils.parse_flexible_date.
  destruct s as [|c s]; [congruence|].
  cbn [truthy]. replace (String.eqb (String c s) "") with false by (now destruct c).
  cbn [negb]. unfold try_except_value_type. rewrite Hp.
  destruct e; try congruence; reflexivity.
Qed.

End DateErrors.

Lemma parse_flexible_date_propagates_witness :
  @Utils.parse_flexible_date
    (Sample.externals ConnectionFailed None (ParseRaises OverflowError))
    "99999999999999999999999999" Sample.empty_world
  = (inl OverflowError, Sample.empty_world).
Proof.
  apply (@parse_flexible_date_propagates
           (Sample.externals ConnectionFailed None (ParseRaises OverflowError))).
  - discriminate.
  - reflexivity.
  - discriminate.
  - discriminate.
Defined.

(** ** Instances of the collectors' properties *)

Lemma fetch_feed_again_witness :
  let parsed :=
    Some [Cybint.mkFeedEntry (Some "https://example.org/advisory")
            (Some "Zero-day exploit in the wild") None None;
          Cybint.mkFeedEntry (Some "https://example.org/notes")
            (Some "Release notes") None None] in
  let run := @Cybint.fetch_feed Sample.offline parsed "Example" 5
               Sample.empty_world in
  exists w2,
    @Cybint.fetch_feed Sample.offline parsed "Example" 5 (snd run) = (inr 0%nat, w2)
    /\ db w2 = db (snd run) /\ logs w2 = logs (snd run).
Proof.
  intros parsed run.
  apply (@fetch_feed_again Sample.offline parsed "Example" 5 Sample.empty_world
           (fst run) (snd run)).
  apply surjective_pairing.
Defined.

Lemma fetch_cisa_exploits_again_witness :
  let data := Some (Sample.catalogue 3) in
  let run := @Cybint.fetch_cisa_exploits Sample.offline (Cybint.CisaData data)
               Sample.empty_world in
  exists w2,
    @Cybint.fetch_cisa_exploits Sample.offline (Cybint.CisaData data) (snd run)
    = (inr tt, w2)
    /\ db w2 = db (snd run) /\ logs w2 = logs (snd run).
Proof.
  intros data run.
  apply (@fetch_cisa_exploits_again Sample.offline data Sample.empty_world
           (fst run) (snd run)).
  apply surjective_pairing.
Defined.

Lemma ingest_log_file_again_witness :
  let file := Some "SKYKING SKYKING DO NOT ANSWER TIME 42 AUTH XY" in
  let run := @Signals.ingest_log_file Fixtures.receiving file Sample.empty_world in
  exists w2,
    @Signals.ingest_log_file Fixtures.receiving file (snd run) = (inr tt, w2)
    /\ visible (db w2) = visible (db (snd run)) /\ logs w2 = logs (snd run).
Proof.
  intros file run.
  apply (@ingest_log_file_again Fixtures.receiving file Sample.empty_world
           (fst run) (snd run)).
  apply surjective_pairing.
Defined.

Lemma generate_regional_intel_again_witness :
  let run := @Maritint._generate_regional_intel Sample.offline "Black Sea"
               40 47 27 42 Sample.empty_world in
  exists w2,
    @Maritint._generate_regional_intel Sample.offline "Black Sea" 40 47 27 42
      (snd run) = (inr tt, w2)
    /\ db w2 = db (snd run) /\ logs w2 = logs (snd run).
Proof.
  intros run.
  apply (@generate_regional_intel_again Sample.offline "Black Sea" 40 47 27 42
           Sample.empty_world (fst run) (snd run)).
  - intros n m. reflexivity.
  - apply surjective_pairing.
Defined.

Lemma bulk_fetch_item_degrades_witness :
  let r : gmap string string :=
    {[ "url" := "https://example.org/a"; "body" := "Troops at the border" ]} in
  let w := Sample.empty_world in
  let url := "https://example.org/a" in
  (@article_fetch Sample.offline url = None ->
   @Osint.bulk_fetch_item Sample.offline "border" r w = (inr 0%nat, w))
  /\ (forall article, @article_fetch Sample.offline url = Some article ->
      let cleaned := @clean_text Sample.offline (article_text article) in
      let raw_body :=
        if (String.length cleaned <? 100)%nat then Py.get r "body" "" else cleaned in
      @Llm.oracle_failure Sample.offline (prefix_to 3000 raw_body) ->
      exists x w',
        @Osint.bulk_fetch_item Sample.offline "border" r w = (inr 1%nat, w')
        /\ visible (db w') = (visible (db w) ++ [x])%list
        /\ pending (db w') = []
        /\ logs w' = (logs w ++ [LogError "LLM Analysis Failed"])%list
        /\ source_url x = Some url
        /\ int_category x = "OSINT"
        /\ timestamp x = @clock Sample.offline (ticks w)
        /\ @Batch.fallback_row x).
Proof.
  intros r w url.
  apply (@bulk_fetch_item_degrades Sample.offline "border" r w url).
  - reflexivity.
  - discriminate.
  - reflexivity.
Defined.

Lemma run_social_search_item_degrades_witness :
  let r : gmap string string :=
    {[ "href" := "https://t.me/s/example/1"; "title" := "Convoy" ]} in
  exists x w',
    @Socmint.run_social_search_item Sample.offline "border" None None r
      Sample.empty_world = (inr 1%nat, w')
    /\ visible (db w') = [x]
    /\ pending (db w') = []
    /\ logs w' = [LogError "LLM Analysis Failed"]
    /\ source_url x = Some "https://t.me/s/example/1"
    /\ int_category x = "SOCMINT"
    /\ timestamp x = 1700000000
    /\ Batch.fallback_row x.
Proof.
  intros r.
  destruct (@run_social_search_item_degrades Sample.offline "border" None None r
              Sample.empty_world)
    as (x & w' & Hrun & Hv & Hp & Hl & Hs & Hc & _ & Ht & Hf).
  - reflexivity.
  - apply Llm.fail_request. reflexivity.
  - exists x, w'. repeat split; try assumption; apply Hf.
Defined.

Lemma scan_region_watchlist_only_witness :
  let states :=
    [Adsint.mkStateVector "ae01d5" (Some "GORDO15 ") "United States"
       (Some 30%Q) (Some 50%Q) (Some 10000%Q) (Some 230%Q);
     Adsint.mkStateVector "4b1805" (Some "SWR8T   ") "Switzerland"
       (Some 8%Q) (Some 47%Q) (Some 11000%Q) (Some 240%Q)] in
  let w := Sample.empty_world in
  exists w' news,
    @Adsint.scan_region Sample.offline (Some states) w = (inr tt, w')
    /\ visible (db w') = (visible (db w) ++ news)%list
    /\ (length news <= length (List.filter Batch.watched states))%nat
    /\ Forall Batch.flight_row news
    /\ (states <> [] -> pending (db w') = [])
    /\ (unique_identifiers (db w) -> unique_identifiers (db w')).
Proof.
  intros states w.
  apply (@scan_region_watchlist_only Sample.offline states w).
  repeat (constructor; [split; discriminate|]). constructor.
Defined.

Lemma scan_region_raises_unformattable_witness :
  let state :=
    Adsint.mkStateVector "ae1234" (Some "RCH482  ") "United States"
      (Some 30%Q) (Some 50%Q) None (Some 230%Q) in
  let after :=
    [Adsint.mkStateVector "ae01d5" (Some "GORDO15 ") "United States"
       (Some 30%Q) (Some 50%Q) (Some 10000%Q) (Some 230%Q)] in
  let w := Sample.empty_world in
  exists w',
    @Adsint.scan_region Sample.offline (Some ([] ++ state :: after)%list) w
    = (inl TypeError, w')
    /\ db w' = db w
    /\ committed (db w') = committed (db w).
Proof.
  intros state after w.
  apply (@scan_region_raises_unformattable Sample.offline [] after state w 0%nat w).
  - reflexivity.
  - reflexivity.
  - reflexivity.
  - intros [Ha _]. apply Ha. reflexivity.
Defined.



Lemma scan_all_isolates_failures_witness :
  exists total w',
    @CybintScan.scan_all Sample.offline 10 Cybint.CisaFailed Fixtures.one_feed_up
      Sample.empty_world = (inr total, w')
    /\ query_first (Some "https://krebsonsecurity.com/2024/01/a") (db w') <> None.
Proof.
  destruct (@scan_all_isolates_failures Sample.offline 10 Cybint.CisaFailed
              Fixtures.one_feed_up Sample.empty_world)
    as (total & w' & exploits & articles & Hrun & _ & _ & _ & _ & _ & _ & Hfeeds).
  exists total, w'. split; [exact Hrun|].
  apply (Hfeeds "Krebs on Security" "https://krebsonsecurity.com/feed/"
           [Cybint.mkFeedEntry (Some "https://krebsonsecurity.com/2024/01/a")
              (Some "Ransomware gang claims breach") None None]
           (Cybint.mkFeedEntry (Some "https://krebsonsecurity.com/2024/01/a")
              (Some "Ransomware gang claims breach") None None)).
  - unfold CybintScan.CYBER_FEEDS. do 2 right. left.
  - reflexivity.
  - left.
  - reflexivity.
  - discriminate.
Defined.

Lemma ingest_log_file_rows_witness :
  @Signals.ingest_log_path Sample.offline (Signals.OpenRaises OSError)
    Sample.empty_world = (inl OSError, Sample.empty_world).
Proof.
  exact (@ingest_log_file_rows Sample.offline (Signals.OpenRaises OSError)
           Sample.empty_world).
Defined.

(** ** Text clean-up *)

Section TextCleanUp.
Import Text.

Lemma string_app_assoc (a b c : string) : (a ++ b) ++ c = a ++ (b ++ c).
Proof.
  induction a as [|x a IH]; [reflexivity|].
  change (String x ((a ++ b) ++ c) = String x (a ++ b ++ c)). now f_equal.
Qed.

Lemma string_app_nil_r (a : string) : a ++ "" = a.
Proof.
  induction a as [|x a IH]; [reflexivity|].
  change (String x (a ++ "") = String x a). now f_equal.
Qed.

Lemma has_gt_app (a b : string) : has_gt (a ++ b) = has_gt a || has_gt b.
Proof.
  induction a as [|x a IH]; [reflexivity|].
  change (Ascii.eqb x ">" || has_gt (a ++ b)
          = Ascii.eqb x ">" || has_gt a || has_gt b).
  now rewrite IH, orb_assoc.
Qed.

(** Unfolding [tagless] behind a [<]. *)
Lemma tagless_lt (x : string) :
  tagless (String "<" x)
  = match x with
    | EmptyString => true
    | String d y => if Ascii.eqb d ">" then tagless y else negb (has_gt x)
    end.
Proof. reflexivity. Qed.

Lemma tagless_lt_gt (y : string) :
  tagless (String "<" (String ">" y)) = tagless y.
Proof. reflexivity. Qed.

Lemma tagless_other (c : ascii) (x : string) :
  Ascii.eqb c "<" = false -> tagless (String c x) = tagless x.
Proof. intros E. cbn [tagless]. now rewrite E. Qed.

Lemma no_gt_tagless (x : string) : has_gt x = false -> tagless x = true.
Proof.
  induction x as [|c x IH]; [reflexivity|].
  cbn [has_gt]. intros E. apply orb_false_elim in E as [Ec Ex].
  destruct (Ascii.eqb c "<") eqn:El.
  - apply Ascii.eqb_eq in El. subst c. rewrite tagless_lt.
    destruct x as [|d y]; [reflexivity|].
    rewrite Ex. cbn [has_gt] in Ex. apply orb_false_elim in Ex as [Ed Ey].
    now rewrite Ed.
  - rewrite tagless_other by exact El. now apply IH.
Qed.

Lemma no_gt_tagless_lt (x : string) :
  has_gt x = false -> tagless (String "<" x) = true.
Proof. intros E. apply no_gt_tagless. cbn [has_gt]. now rewrite E. Qed.

(** Without a [>] to come, an open tag is put back as it was read. *)
Lemma strip_tags_unclosed (s b : string) :
  has_gt s = false -> strip_tags_from (Some b) s = String "<" (b ++ s).
Proof.
  revert b. induction s as [|c s IH]; intros b; cbn [has_gt strip_tags_from].
  - intros _. now rewrite string_app_nil_r.
  - intros E. apply orb_false_elim in E as [Ec Es]. rewrite Ec.
    rewrite IH by exact Es. now rewrite string_app_assoc.
Qed.

(** What the tag pattern leaves has no tag. *)
Lemma strip_tags_from_tagless (s : string) :
  tagless (strip_tags_from None s) = true
  /\ forall b, has_gt b = false -> tagless (strip_tags_from (Some b) s) = true.
Proof.
  induction s as [|c s [IHn IHs]]; cbn [strip_tags_from].
  - split; [reflexivity|]. intros b Hb. now apply no_gt_tagless_lt.
  - split.
    + destruct (Ascii.eqb c "<") eqn:E; [now apply IHs|].
      now rewrite tagless_other.
    + intros b Hb. destruct (Ascii.eqb c ">") eqn:E.
      * destruct b; [|exact IHn]. rewrite tagless_lt_gt. exact IHn.
      * apply IHs. rewrite has_gt_app. cbn [has_gt]. now rewrite Hb, E.
Qed.

(** On a text without tag the tag pattern changes nothing. *)
Lemma strip_tags_fixed_upto (n : nat) (s : string) :
  (String.length s <= n)%nat -> tagless s = true ->
  strip_tags_from None s = s.
Proof.
  revert s. induction n as [|n IH]; intros s Hlen Ht.
  - destruct s; [reflexivity | cbn in Hlen; lia].
  - destruct s as [|c s]; [reflexivity|]. cbn [String.length] in Hlen.
    cbn [strip_tags_from]. destruct (Ascii.eqb c "<") eqn:E.
    + apply Ascii.eqb_eq in E. subst c. rewrite tagless_lt in Ht.
      destruct s as [|d y]; [reflexivity|].
      destruct (Ascii.eqb d ">") eqn:Ed.
      * apply Ascii.eqb_eq in Ed. subst d. cbn [strip_tags_from].
        change (Ascii.eqb ">" ">") with true. cbv iota.
        cbn [String.length] in Hlen.
        rewrite IH; [reflexivity | lia | exact Ht].
      * apply negb_true_iff in Ht.
        now rewrite strip_tags_unclosed by exact Ht.
    + rewrite tagless_other in Ht by exact E.
      rewrite IH; [reflexivity | lia | exact Ht].
Qed.

Lemma strip_tags_fixed (s : string) :
  tagless s = true -> strip_tags s = s.
Proof. apply (strip_tags_fixed_upto (String.length s)). lia. Qed.

Lemma is_space_not_gt (c : ascii) : is_space c = true -> Ascii.eqb c ">" = false.
Proof. destruct c as [[] [] [] [] [] [] [] []]; cbv; congruence. Qed.

Lemma is_space_not_lt (c : ascii) : is_space c = true -> Ascii.eqb c "<" = false.
Proof. destruct c as [[] [] [] [] [] [] [] []]; cbv; congruence. Qed.

Lemma not_space_not_blank (c : ascii) : is_space c = false -> Ascii.eqb c " " = false.
Proof. destruct c as [[] [] [] [] [] [] [] []]; cbv; congruence. Qed.

Lemma has_gt_collapse (r : bool) (s : string) :
  has_gt (collapse_from r s) = has_gt s.
Proof.
  revert r. induction s as [|c s IH]; intros r; [reflexivity|].
  cbn [collapse_from has_gt]. destruct (is_space c) eqn:E.
  - rewrite (is_space_not_gt c E). destruct r; cbn [has_gt orb]; apply IH.
  - cbn [has_gt]. now rewrite IH.
Qed.

Lemma tagless_tail (c : ascii) (s : string) :
  tagless (String c s) = true -> tagless s = true.
Proof.
  destruct (Ascii.eqb c "<") eqn:E.
  - apply Ascii.eqb_eq in E. subst c. rewrite tagless_lt.
    destruct s as [|d y]; [reflexivity|].
    destruct (Ascii.eqb d ">") eqn:Ed.
    + apply Ascii.eqb_eq in Ed. subst d. now rewrite tagless_other.
    + intros Hg. apply negb_true_iff in Hg. now apply no_gt_tagless.
  - now rewrite tagless_other.
Qed.

(** Collapsing whitespace makes no tag. *)
Lemma tagless_collapse_upto (n : nat) (s : string) (r : bool) :
  (String.length s <= n)%nat -> tagless s = true ->
  tagless (collapse_from r s) = true.
Proof.
  revert s r. induction n as [|n IH]; intros s r Hlen Ht.
  - destruct s; [reflexivity | cbn in Hlen; lia].
  - destruct s as [|c s]; [reflexivity|]. cbn [String.length] in Hlen.
    cbn [collapse_from]. destruct (is_space c) eqn:Es.
    + rewrite tagless_other in Ht by now apply is_space_not_lt.
      destruct r; [|rewrite tagless_other by reflexivity]; apply IH; auto; lia.
    + destruct (Ascii.eqb c "<") eqn:E.
      * apply Ascii.eqb_eq in E. subst c. rewrite tagless_lt in Ht.
        destruct s as [|d y]; [reflexivity|].
        destruct (Ascii.eqb d ">") eqn:Ed.
        -- apply Ascii.eqb_eq in Ed. subst d.
           change (collapse_from false (String ">" y))
             with (String ">" (collapse_from false y)).
           rewrite tagless_lt_gt. cbn [String.length] in Hlen.
           apply IH; auto; lia.
        -- apply negb_true_iff in Ht. apply no_gt_tagless_lt.
           now rewrite has_gt_collapse.
      * rewrite tagless_other in * by exact E. apply IH; auto; lia.
Qed.

Lemma tagless_lstrip (s : string) :
  tagless s = true -> tagless (lstrip s) = true.
Proof.
  induction s as [|c s IH]; [reflexivity|]. intros Ht. cbn [lstrip].
  destruct (is_space c); [|exact Ht].
  apply IH. exact (tagless_tail c s Ht).
Qed.

Lemma rstrip_cons_keep (c : ascii) (s : string) :
  is_space c = false -> rstrip (String c s) = String c (rstrip s).
Proof. intros E. cbn [rstrip]. rewrite E. now destruct (rstrip s). Qed.

Lemma rstrip_cons_space (c : ascii) (s : string) :
  is_space c = true ->
  rstrip (String c s)
  = match rstrip s with
    | EmptyString => EmptyString
    | r => String c r
    end.
Proof. intros E. cbn [rstrip]. rewrite E. reflexivity. Qed.

Lemma has_gt_rstrip (s : string) :
  has_gt s = false -> has_gt (rstrip s) = false.
Proof.
  induction s as [|c s IH]; [reflexivity|]. cbn [has_gt]. intros E.
  apply orb_false_elim in E as [Ec Es]. specialize (IH Es).
  destruct (is_space c) eqn:Esp.
  - rewrite rstrip_cons_space by exact Esp.
    destruct (rstrip s) eqn:Er; [reflexivity|].
    cbn [has_gt] in *. now rewrite Ec.
  - rewrite rstrip_cons_keep by exact Esp. cbn [has_gt]. now rewrite Ec.
Qed.

(** Dropping whitespace at the end makes no tag. *)
Lemma tagless_rstrip_upto (n : nat) (s : string) :
  (String.length s <= n)%nat -> tagless s = true -> tagless (rstrip s) = true.
Proof.
  revert s. induction n as [|n IH]; intros s Hlen Ht.
  - destruct s; [reflexivity | cbn in Hlen; lia].
  - destruct s as [|c s]; [reflexivity|]. cbn [String.length] in Hlen.
    destruct (is_space c) eqn:Es.
    + rewrite rstrip_cons_space by exact Es.
      pose proof (is_space_not_lt c Es) as El.
      rewrite tagless_other in Ht by exact El.
      assert (Hr : tagless (rstrip s) = true) by (apply IH; auto; lia).
      destruct (rstrip s); [reflexivity|]. now rewrite tagless_other.
    + rewrite rstrip_cons_keep by exact Es.
      destruct (Ascii.eqb c "<") eqn:E.
      * apply Ascii.eqb_eq in E. subst c. rewrite tagless_lt in Ht.
        destruct s as [|d y]; [reflexivity|].
        destruct (Ascii.eqb d ">") eqn:Ed.
        -- apply Ascii.eqb_eq in Ed. subst d.
           rewrite rstrip_cons_keep by reflexivity.
           rewrite tagless_lt_gt. cbn [String.length] in Hlen.
           apply IH; auto; lia.
        -- apply negb_true_iff in Ht. apply no_gt_tagless_lt.
           now apply has_gt_rstrip.
      * rewrite tagless_other in * by exact E. apply IH; auto; lia.
Qed.

(** What the whitespace pattern leaves has single spaces only. *)
Lemma spaced_collapse (r : bool) (s : string) :
  spaced_from r (collapse_from r s) = true.
Proof.
  revert r. induction s as [|c s IH]; intros r; [reflexivity|].
  cbn [collapse_from]. destruct (is_space c) eqn:Es.
  - destruct r; [apply IH|].
    cbn [spaced_from]. change (Ascii.eqb " " " ") with true. cbv iota.
    cbn [negb andb]. apply IH.
  - cbn [spaced_from]. rewrite (not_space_not_blank c Es), Es. apply IH.
Qed.

Lemma spaced_lstrip (a : bool) (s : string) :
  spaced_from a s = true -> spaced_from true (lstrip s) = true.
Proof.
  revert a. induction s as [|c s IH]; intros a; [reflexivity|].
  cbn [spaced_from lstrip]. destruct (is_space c) eqn:Es.
  - destruct (Ascii.eqb c " "); [|discriminate].
    intros Ht. apply andb_prop in Ht as [_ Ht]. now apply (IH true).
  - rewrite (not_space_not_blank c Es). cbn [spaced_from].
    now rewrite (not_space_not_blank c Es), Es.
Qed.

Lemma tidy_rstrip (a : bool) (s : string) :
  spaced_from a s = true ->
  rstrip s = "" \/ tidy_from a (rstrip s) = true.
Proof.
  revert a. induction s as [|c s IH]; intros a; [now left|].
  cbn [spaced_from]. destruct (is_space c) eqn:Es.
  - destruct (Ascii.eqb c " ") eqn:Eb; [|discriminate].
    intros Ht. apply andb_prop in Ht as [Ha Ht].
    rewrite rstrip_cons_space by exact Es.
    destruct (IH true Ht) as [-> | Hr]; [now left|].
    destruct (rstrip s); [discriminate|]. right.
    cbn [tidy_from] in *. now rewrite Eb, Ha.
  - rewrite (not_space_not_blank c Es). cbn [negb andb]. intros Ht.
    rewrite rstrip_cons_keep by exact Es. right.
    cbn [tidy_from]. rewrite (not_space_not_blank c Es), Es. cbn [negb andb].
    destruct (IH false Ht) as [-> | Hr]; [reflexivity | exact Hr].
Qed.

(** A tidy text is left alone by the whitespace pattern and by [strip]. *)
Lemma tidy_collapse (a : bool) (z : string) :
  tidy_from a z = true -> collapse_from a z = z.
Proof.
  revert a. induction z as [|c z IH]; intros a; [reflexivity|].
  cbn [tidy_from collapse_from]. destruct (Ascii.eqb c " ") eqn:Eb.
  - apply Ascii.eqb_eq in Eb. subst c. change (is_space " ") with true. cbv iota.
    intros Ht. apply andb_prop in Ht as [Ha Ht].
    destruct a; [discriminate|]. now rewrite (IH true).
  - intros Ht. apply andb_prop in Ht as [Hs Ht].
    apply negb_true_iff in Hs. rewrite Hs. now rewrite (IH false).
Qed.

Lemma tidy_rstrip_fixed (a : bool) (z : string) :
  tidy_from a z = true -> rstrip z = z.
Proof.
  revert a. induction z as [|c z IH]; intros a; [reflexivity|].
  cbn [tidy_from]. destruct (Ascii.eqb c " ") eqn:Eb.
  - apply Ascii.eqb_eq in Eb. subst c.
    intros Ht. apply andb_prop in Ht as [_ Ht].
    rewrite rstrip_cons_space by reflexivity. rewrite (IH true Ht).
    destruct z; [discriminate | reflexivity].
  - intros Ht. apply andb_prop in Ht as [Hs Ht].
    apply negb_true_iff in Hs.
    rewrite rstrip_cons_keep by exact Hs. now rewrite (IH false Ht).
Qed.

Lemma tidy_first (z : string) :
  tidy_from true z = true ->
  exists c z', z = String c z' /\ is_space c = false
               /\ tidy_from false z = true.
Proof.
  destruct z as [|c z]; [discriminate|]. cbn [tidy_from].
  destruct (Ascii.eqb c " ") eqn:Eb; [discriminate|].
  intros Ht. exists c, z. split; [reflexivity|].
  apply andb_prop in Ht as [Hs Ht]. apply negb_true_iff in Hs.
  split; [exact Hs|]. now rewrite Hs, Ht.
Qed.

Lemma clean_text_shape (s : string) :
  (Text.clean_text s = "" \/ tidy_from true (Text.clean_text s) = true)
  /\ tagless (Text.clean_text s) = true.
Proof.
  unfold Text.clean_text. destruct s as [|c s]; [split; [now left | reflexivity]|].
  cbn [truthy]. replace (String.eqb (String c s) "") with false by (now destruct c).
  cbn [negb]. set (x := String c s). unfold strip. split.
  - apply (tidy_rstrip true). apply (spaced_lstrip false).
    apply spaced_collapse.
  - apply (tagless_rstrip_upto (String.length (lstrip (collapse_whitespace (strip_tags x)))));
      [lia|].
    apply tagless_lstrip.
    apply (tagless_collapse_upto (String.length (strip_tags x))); [lia|].
    apply strip_tags_from_tagless.
Qed.

Lemma length_append (a b : string) :
  String.length (a ++ b) = (String.length a + String.length b)%nat.
Proof.
  induction a as [|x a IH]; [reflexivity|].
  change (S (String.length (a ++ b)) = S (String.length a + String.length b)).
  now rewrite IH.
Qed.

Lemma strip_tags_from_length (s : string) :
  (String.length (strip_tags_from None s) <= String.length s)%nat
  /\ forall b, (String.length (strip_tags_from (Some b) s)
                <= S (String.length b + String.length s))%nat.
Proof.
  induction s as [|c s [IHn IHs]]; cbn [strip_tags_from String.length].
  - split; [lia|]. intros b. lia.
  - split.
    + destruct (Ascii.eqb c "<"); [specialize (IHs ""); cbn in IHs |
                                    cbn [String.length]]; lia.
    + intros b. destruct (Ascii.eqb c ">").
      * destruct b; cbn [String.length]; lia.
      * specialize (IHs (b ++ String c "")). rewrite length_append in IHs.
        cbn [String.length] in IHs. lia.
Qed.

Lemma collapse_from_length (r : bool) (s : string) :
  (String.length (collapse_from r s) <= String.length s)%nat.
Proof.
  revert r. induction s as [|c s IH]; intros r; [reflexivity|].
  cbn [collapse_from]. destruct (is_space c).
  - destruct r; cbn [String.length]; [specialize (IH true) | specialize (IH true)]; lia.
  - cbn [String.length]. specialize (IH false). lia.
Qed.

Lemma lstrip_length (s : string) :
  (String.length (lstrip s) <= String.length s)%nat.
Proof.
  induction s as [|c s IH]; [reflexivity|]. cbn [lstrip].
  destruct (is_space c); cbn [String.length]; lia.
Qed.

Lemma rstrip_length (s : string) :
  (String.length (rstrip s) <= String.length s)%nat.
Proof.
  induction s as [|c s IH]; [reflexivity|]. cbn [rstrip].
  destruct (rstrip s); [destruct (is_space c)|]; cbn [String.length] in *; lia.
Qed.

(** X22. What [clean_text] returns is in normal form, on ASCII text: it has
    no whitespace other than single spaces between two other characters
    (none at either end, no tab or newline), the tag pattern finds nothing
    in it any more, and it is no longer than the text given. *)
Theorem clean_text_normal_form (s : string) :
  tidy (Text.clean_text s) = true
  /\ tagless (Text.clean_text s) = true
  /\ (String.length (Text.clean_text s) <= String.length s)%nat.
Proof.
  destruct (clean_text_shape s) as [Ht Hg].
  split; [|split; [exact Hg|]].
  - unfold tidy. destruct Ht as [-> | Ht]; [reflexivity|].
    now destruct (Text.clean_text s).
  - unfold Text.clean_text. destruct (negb (truthy (PStr s))); [cbn; lia|].
    unfold strip, collapse_whitespace, strip_tags.
    pose proof (rstrip_length (lstrip (collapse_from false (strip_tags_from None s)))).
    pose proof (lstrip_length (collapse_from false (strip_tags_from None s))).
    pose proof (collapse_from_length false (strip_tags_from None s)).
    pose proof (proj1 (strip_tags_from_length s)).
    lia.
Qed.

(** X23. [clean_text] is idempotent, on ASCII text: cleaning a cleaned text
    gives it back. *)
Theorem clean_text_idempotent (s : string) :
  Text.clean_text (Text.clean_text s) = Text.clean_text s.
Proof.
  destruct (clean_text_shape s) as [[He | Ht] Hg]; [now rewrite He|].
  set (z := Text.clean_text s) in *.
  destruct (tidy_first z Ht) as (c & z' & Hz & Hs & Hf).
  unfold Text.clean_text at 1. rewrite Hz at 1.
  cbn [truthy]. replace (String.eqb (String c z') "") with false by (now destruct c).
  cbn [negb]. rewrite (strip_tags_fixed z Hg).
  unfold collapse_whitespace. rewrite (tidy_collapse false z Hf).
  unfold strip. replace (lstrip z) with z.
  - exact (tidy_rstrip_fixed true z Ht).
  - rewrite Hz. cbn [lstrip]. now rewrite Hs.
Qed.

End TextCleanUp.
